(** * Playwright-AI-Telegram-Automation: catalog fetch and menu handlers

    A shallow embedding of [src/automation/tasks.js] and
    [src/commands/handlers.js].  The handlers are asynchronous JavaScript
    functions over module-level stores; they are transcribed into a small
    program monad whose nodes are the [await] points, the un-awaited calls,
    the console output and the reads and writes of the stores.  The replies
    of Telegram, of Playwright and of the file system come from an oracle,
    so that a theorem over all oracles covers every behaviour of the
    outside world. *)

From Stdlib Require Import ZArith Ascii.
From stdpp Require Import gmap strings pretty.

Local Open Scope Z_scope.

(** ** JavaScript strings

    Strings are byte strings holding UTF-8 text.  An ASCII needle occurs in
    a text as a substring of code units exactly when its bytes occur in the
    UTF-8 encoding, and the white space characters that [trim] removes are
    matched as whole UTF-8 sequences. *)

Module Js.

Fixpoint bytes (l : list nat) : string :=
  match l with
  | [] => ""
  | b :: l => String (ascii_of_nat b) (bytes l)
  end.

Fixpoint revOnto (s acc : string) : string :=
  match s with
  | EmptyString => acc
  | String c s => revOnto s (String c acc)
  end.

Definition reverse (s : string) : string := revOnto s "".

(** [truthy s]: a string is falsy exactly when it is empty. *)
Definition truthy (s : string) : bool :=
  match s with EmptyString => false | String _ _ => true end.

(** [dropPrefix p s]: the rest of [s] after the prefix [p], if [s] starts
    with [p]. *)
Fixpoint dropPrefix (p s : string) : option string :=
  match p, s with
  | EmptyString, _ => Some s
  | String a p, String b s => if Ascii.eqb a b then dropPrefix p s else None
  | String _ _, EmptyString => None
  end.

(** [includes s needle] is [s.includes(needle)]. *)
Fixpoint includes (s needle : string) : bool :=
  match dropPrefix needle s with
  | Some _ => true
  | None =>
      match s with
      | EmptyString => false
      | String _ s => includes s needle
      end
  end.

(** The ECMAScript WhiteSpace and LineTerminator code points, in UTF-8:
    TAB, LF, VT, FF, CR, SP, U+00A0, U+1680, U+2000 to U+200A, U+2028,
    U+2029, U+202F, U+205F, U+3000 and U+FEFF. *)
Definition whiteSpace : list string :=
  [ bytes [9%nat]; bytes [10%nat]; bytes [11%nat]; bytes [12%nat];
    bytes [13%nat]; bytes [32%nat];
    bytes [194; 160]%nat; bytes [225; 154; 128]%nat;
    bytes [226; 128; 128]%nat; bytes [226; 128; 129]%nat;
    bytes [226; 128; 130]%nat; bytes [226; 128; 131]%nat;
    bytes [226; 128; 132]%nat; bytes [226; 128; 133]%nat;
    bytes [226; 128; 134]%nat; bytes [226; 128; 135]%nat;
    bytes [226; 128; 136]%nat; bytes [226; 128; 137]%nat;
    bytes [226; 128; 138]%nat; bytes [226; 128; 168]%nat;
    bytes [226; 128; 169]%nat; bytes [226; 128; 175]%nat;
    bytes [226; 129; 159]%nat; bytes [227; 128; 128]%nat;
    bytes [239; 187; 191]%nat ].

Fixpoint dropAny (ps : list string) (s : string) : option string :=
  match ps with
  | [] => None
  | p :: ps =>
      match dropPrefix p s with
      | Some r => Some r
      | None => dropAny ps s
      end
  end.

Fixpoint trimStartFuel (fuel : nat) (ws : list string) (s : string) : string :=
  match fuel with
  | O => s
  | S fuel =>
      match dropAny ws s with
      | Some r => trimStartFuel fuel ws r
      | None => s
      end
  end.

Definition trimStart (s : string) : string :=
  trimStartFuel (String.length s) whiteSpace s.

Definition trimEnd (s : string) : string :=
  reverse (trimStartFuel (String.length s) (map reverse whiteSpace) (reverse s)).

(** [trim s] is [s.trim()]. *)
Definition trim (s : string) : string := trimEnd (trimStart s).

(** [s] between double quotes. *)
Definition quoted (s : string) : string :=
  bytes [34%nat] +:+ s +:+ bytes [34%nat].

End Js.

(** ** Data *)

(** One entry of the list returned by [page.$$eval] in [navigateToDuckAI]:
    [{ name, isBeta, features }]; [isBeta] is [null] or the badge text. *)
Record Model := {
  name : string;
  isBeta : option string;
  features : list string
}.

(** What the extraction callback sees of one [li] element: the result of
    each of its three queries, every element reduced to its
    [textContent]. *)
Record DomItem := {
  nameElement : option string;      (* querySelector("p.J58ouJfofMIxA2Ukt6lA") *)
  betaBadge : option string;        (* querySelector("span.gADc1vgzmPc4cvxu7yBr") *)
  featureElements : list string     (* querySelectorAll("ul... li... p...") *)
}.

(** [messageStore[chatId]]. *)
Record MessagePair := {
  userMessageId : Z;
  botMessageId : Z
}.

(** The module-level stores of [handlers.js] and the three globals of
    [tasks.js].  Objects indexed by a numeric id are maps from [Z]. *)
Record State := {
  messageStore : gmap Z MessagePair;
  userAcceptanceStore : gmap Z bool;
  userModelsStore : gmap Z (list Model);
  userSelectedModelStore : gmap Z string;
  fetchingModelsFor : gset Z;
  globalBrowser : option Z;
  globalContext : option Z;
  globalPage : option Z
}.

Definition initialState : State :=
  {| messageStore := ∅; userAcceptanceStore := ∅; userModelsStore := ∅;
     userSelectedModelStore := ∅; fetchingModelsFor := ∅;
     globalBrowser := None; globalContext := None; globalPage := None |}.

Definition setMessageStore (f : gmap Z MessagePair → gmap Z MessagePair) (s : State) : State :=
  {| messageStore := f (messageStore s);
     userAcceptanceStore := userAcceptanceStore s;
     userModelsStore := userModelsStore s;
     userSelectedModelStore := userSelectedModelStore s;
     fetchingModelsFor := fetchingModelsFor s;
     globalBrowser := globalBrowser s; globalContext := globalContext s;
     globalPage := globalPage s |}.

Definition setUserAcceptanceStore (f : gmap Z bool → gmap Z bool) (s : State) : State :=
  {| messageStore := messageStore s;
     userAcceptanceStore := f (userAcceptanceStore s);
     userModelsStore := userModelsStore s;
     userSelectedModelStore := userSelectedModelStore s;
     fetchingModelsFor := fetchingModelsFor s;
     globalBrowser := globalBrowser s; globalContext := globalContext s;
     globalPage := globalPage s |}.

Definition setUserModelsStore (f : gmap Z (list Model) → gmap Z (list Model)) (s : State) : State :=
  {| messageStore := messageStore s;
     userAcceptanceStore := userAcceptanceStore s;
     userModelsStore := f (userModelsStore s);
     userSelectedModelStore := userSelectedModelStore s;
     fetchingModelsFor := fetchingModelsFor s;
     globalBrowser := globalBrowser s; globalContext := globalContext s;
     globalPage := globalPage s |}.

Definition setUserSelectedModelStore (f : gmap Z string → gmap Z string) (s : State) : State :=
  {| messageStore := messageStore s;
     userAcceptanceStore := userAcceptanceStore s;
     userModelsStore := userModelsStore s;
     userSelectedModelStore := f (userSelectedModelStore s);
     fetchingModelsFor := fetchingModelsFor s;
     globalBrowser := globalBrowser s; globalContext := globalContext s;
     globalPage := globalPage s |}.

Definition setFetchingModelsFor (f : gset Z → gset Z) (s : State) : State :=
  {| messageStore := messageStore s;
     userAcceptanceStore := userAcceptanceStore s;
     userModelsStore := userModelsStore s;
     userSelectedModelStore := userSelectedModelStore s;
     fetchingModelsFor := f (fetchingModelsFor s);
     globalBrowser := globalBrowser s; globalContext := globalContext s;
     globalPage := globalPage s |}.

Definition setGlobalBrowser (b : option Z) (s : State) : State :=
  {| messageStore := messageStore s;
     userAcceptanceStore := userAcceptanceStore s;
     userModelsStore := userModelsStore s;
     userSelectedModelStore := userSelectedModelStore s;
     fetchingModelsFor := fetchingModelsFor s;
     globalBrowser := b; globalContext := globalContext s;
     globalPage := globalPage s |}.

Definition setGlobalContext (c : option Z) (s : State) : State :=
  {| messageStore := messageStore s;
     userAcceptanceStore := userAcceptanceStore s;
     userModelsStore := userModelsStore s;
     userSelectedModelStore := userSelectedModelStore s;
     fetchingModelsFor := fetchingModelsFor s;
     globalBrowser := globalBrowser s; globalContext := c;
     globalPage := globalPage s |}.

Definition setGlobalPage (p : option Z) (s : State) : State :=
  {| messageStore := messageStore s;
     userAcceptanceStore := userAcceptanceStore s;
     userModelsStore := userModelsStore s;
     userSelectedModelStore := userSelectedModelStore s;
     fetchingModelsFor := fetchingModelsFor s;
     globalBrowser := globalBrowser s; globalContext := globalContext s;
     globalPage := p |}.

(** ** The outside world *)

(** A thrown JavaScript value: an [Error] with its [message]. *)
Inductive JsError := Error (msg : string).

Definition errorMessage (e : JsError) : string :=
  match e with Error msg => msg end.

(** How a call ended: [Ok v] when the promise resolves, [Thrown e] when it
    rejects. *)
Inductive Outcome (A : Type) :=
| Ok (a : A)
| Thrown (e : JsError).
Arguments Ok {A} a.
Arguments Thrown {A} e.

(** The fields of the Telegraf context that the handlers read. *)
Record Ctx := {
  fromId : Z;                       (* ctx.from.id *)
  firstName : option string;        (* ctx.from.first_name *)
  userName : option string;         (* ctx.from.username *)
  chatId : Z;                       (* ctx.chat.id *)
  messageId : Z                     (* ctx.message.message_id *)
}.

Inductive Button :=
| CallbackButton (text data : string)     (* Markup.button.callback *)
| UrlButton (text url : string).          (* Markup.button.url *)

Inductive Extra :=
| NoExtra
| InlineKeyboard (rows : list (list Button))
| MarkdownInlineKeyboard (rows : list (list Button))
| ReplyKeyboard (rows : list (list string)) (placeholder : string).

(** An entry of [parsed.users] in the users file, as far as the code looks
    at it, which is its [id].  The marks of [userAcceptanceStore] are kept
    under the user ids; an entry whose [id] gives another property key sets
    a property that no handler reads. *)
Inductive UserEntry :=
| UserRecord (id : Z)         (* a value whose [id] is the number [id] *)
| UserOther (key : option Z)  (* any other value but [null]: its [id] is not a
                                 number equal to a user id; [key] is the user
                                 id whose decimal is the property key of that
                                 [id], if there is one (as for the string "7") *)
| UserNull.                   (* [null]: reading its [id] throws *)

(** [parsed.users], for what the file holds. *)
Inductive UsersField :=
| UsersArray (users : list UserEntry)
| UsersUndefined              (* no such property *)
| UsersNull
| UsersOther.                 (* a number, a string, a boolean or an object
                                 that is not an array *)

(** [JSON.parse(data)]: [null], or a value whose [users] can be read. *)
Inductive Parsed :=
| ParsedNull
| ParsedValue (users : UsersField).

(** The callback handed to [setTimeout] in [ensureModelsLoaded]. *)
Inductive Deferred :=
| DeleteStatusMessage (chat msg : Z).

Inductive Call :=
(* Telegraf *)
| CtxReply (ctx : Ctx) (text : string) (extra : Extra)
| CtxEditMessageText (ctx : Ctx) (text : string) (extra : Extra)
| CtxAnswerCbQuery (ctx : Ctx) (text : option string) (showAlert : bool)
| CtxDeleteMessage (ctx : Ctx) (msg : option Z)
| TelegramEditMessageText (chat msg : Z) (text : string)
| TelegramDeleteMessage (chat msg : Z)
(* timers *)
| SetTimeout (cb : Deferred) (ms : Z)
| Sleep (ms : Z)
(* fs *)
| ReadUsersFile
| WriteUsersFile (users : list UserEntry)
(* Playwright *)
| ChromiumLaunch
| BrowserNewContext (browser : Z)
| ContextAddInitScript (context : Z)
| ContextNewPage (context : Z)
| PageUrl (page : Z)
| PageGoto (page : Z) (url : string) (timeout : Z)
| PageWaitForTimeout (page : Z) (ms : Z)
| LocatorIsVisible (page : Z) (selector : string)
| PageClick (page : Z) (selector : string) (timeout : option Z)
| PageWaitForSelector (page : Z) (selector state : string) (timeout : Z)
| PageEvalAll (page : Z) (selector : string)
| KeyboardPress (page : Z) (key : string)
| BrowserClose (browser : Z).

(** What a call resolves to: the [message_id] of a sent message, a handle
    for a browser, context or page, the list items matched by [$$eval],
    what [JSON.parse] makes of the users file ([WriteUsersFile] takes the
    [users] of the object that is written).
    [page.url()] is synchronous in Playwright; what it returns is up to the
    outside world all the same, so it is a call like the others. *)
Definition resp (c : Call) : Type :=
  match c with
  | CtxReply _ _ _ => Z
  | ReadUsersFile => Parsed
  | ChromiumLaunch | BrowserNewContext _ | ContextNewPage _ => Z
  | PageUrl _ => string
  | LocatorIsVisible _ _ => bool
  | PageEvalAll _ _ => list DomItem
  | _ => unit
  end.

(** The [n]-th call of a run is answered by [env n]. *)
Definition Oracle := nat → ∀ c : Call, Outcome (resp c).

Inductive Event :=
| Awaited (c : Call)        (* a call whose result is awaited *)
| Fired (c : Call)          (* a call whose promise is dropped *)
| Logged (msg : string).    (* console.error *)

(** ** Programs

    The body of an [async] function that returns an [R]: it returns or
    throws, waits for a call ([Await], where the function is suspended and
    other handlers may run), makes a call without waiting for it ([Fire]),
    writes to the console ([Log]), or reads or writes the stores.  An inner
    [async] function of the repository is run in place, and its caller goes
    on as soon as it returns. *)

Inductive Prog (R : Type) : Type :=
| Ret (r : R)
| Throw (e : JsError)
| Await (c : Call) (k : Outcome (resp c) → Prog R)
| Fire (c : Call) (k : Prog R)
| Log (msg : string) (k : Prog R)
| Read (k : State → Prog R)
| Write (f : State → State) (k : Prog R).
Arguments Ret {R} r.
Arguments Throw {R} e.
Arguments Await {R} c k.
Arguments Fire {R} c k.
Arguments Log {R} msg k.
Arguments Read {R} k.
Arguments Write {R} f k.

Fixpoint bind {A B} (p : Prog A) (f : A → Prog B) : Prog B :=
  match p with
  | Ret a => f a
  | Throw e => Throw e
  | Await c k => Await c (λ o, bind (k o) f)
  | Fire c k => Fire c (bind k f)
  | Log m k => Log m (bind k f)
  | Read k => Read (λ s, bind (k s) f)
  | Write g k => Write g (bind k f)
  end.

(** [try { p } catch (error) { h error }] *)
Fixpoint tryCatch {A} (p : Prog A) (h : JsError → Prog A) : Prog A :=
  match p with
  | Ret a => Ret a
  | Throw e => h e
  | Await c k => Await c (λ o, tryCatch (k o) h)
  | Fire c k => Fire c (tryCatch k h)
  | Log m k => Log m (tryCatch k h)
  | Read k => Read (λ s, tryCatch (k s) h)
  | Write g k => Write g (tryCatch k h)
  end.

(** [try { p } finally { f }]: [f] runs on every way out of [p]; when [f]
    completes normally the completion of [p] stands. *)
Fixpoint finally {A} (p : Prog A) (f : Prog unit) : Prog A :=
  match p with
  | Ret a => bind f (λ _, Ret a)
  | Throw e => bind f (λ _, Throw e)
  | Await c k => Await c (λ o, finally (k o) f)
  | Fire c k => Fire c (finally k f)
  | Log m k => Log m (finally k f)
  | Read k => Read (λ s, finally (k s) f)
  | Write g k => Write g (finally k f)
  end.

(** [await c] *)
Definition await (c : Call) : Prog (resp c) :=
  Await c (λ o, match o with Ok v => Ret v | Thrown e => Throw e end).

(** An un-awaited call and [console.error]. *)
Definition fire (c : Call) : Prog unit := Fire c (Ret tt).
Definition consoleError (msg : string) : Prog unit := Log msg (Ret tt).

Definition get : Prog State := Read Ret.
Definition modify (f : State → State) : Prog unit := Write f (Ret tt).

Declare Scope prog_scope.
Delimit Scope prog_scope with prog.
Notation "x <- p ;; q" := (bind p (λ x, q))
  (at level 100, p at next level, right associativity) : prog_scope.
Notation "p ;; q" := (bind p (λ _, q))
  (at level 100, right associativity) : prog_scope.
Local Open Scope prog_scope.

(** ** Running a program

    [run p env n s] runs [p] to completion from the stores [s], with no
    other handler in between and the calls numbered from [n]: it gives the
    completion, the stores at the end, the events in order and the number
    of the next call. *)

Record Result (R : Type) := {
  completion : Outcome R;
  stores : State;
  events : list Event;
  next : nat
}.
Arguments completion {R} r.
Arguments stores {R} r.
Arguments events {R} r.
Arguments next {R} r.

Definition emit {R} (e : Event) (r : Result R) : Result R :=
  {| completion := completion r; stores := stores r;
     events := e :: events r; next := next r |}.

Fixpoint run {R} (p : Prog R) (env : Oracle) (n : nat) (s : State) : Result R :=
  match p with
  | Ret r => {| completion := Ok r; stores := s; events := []; next := n |}
  | Throw e => {| completion := Thrown e; stores := s; events := []; next := n |}
  | Await c k => emit (Awaited c) (run (k (env n c)) env (S n) s)
  | Fire c k => emit (Fired c) (run k env n s)
  | Log m k => emit (Logged m) (run k env n s)
  | Read k => run (k s) env n s
  | Write f k => run k env n (f s)
  end.

(** [advance p s]: the synchronous stretch of [p] up to its next [await]
    (or to its end).  Nothing else runs in between: JavaScript handlers
    interleave only at their [await]s. *)
Fixpoint advance {R} (p : Prog R) (s : State) : State * list Event * Prog R :=
  match p with
  | Fire c k => let '(s', t, q) := advance k s in (s', Fired c :: t, q)
  | Log m k => let '(s', t, q) := advance k s in (s', Logged m :: t, q)
  | Read k => advance (k s) s
  | Write f k => advance k (f s)
  | _ => (s, [], p)
  end.

(** ** [src/automation/tasks.js] *)

Module Tasks.

(** The object returned by [navigateToDuckAI]. *)
Record NavResult := {
  success : bool;
  message : string;
  error : option string;
  models : list Model
}.

(** The selectors, as written in the source. *)
Definition anomalyModal : string :=
  "div[data-testid=" +:+ Js.quoted "anomaly-modal" +:+ "]".
Definition welcomeModal : string :=
  "div[role=" +:+ Js.quoted "dialog" +:+ "][aria-modal=" +:+ Js.quoted "true" +:+ "]".
Definition agreeButton : string :=
  "button:has-text(" +:+ Js.quoted "Agree and Continue" +:+ ")".
Definition dropdownButton : string :=
  "button.AHrsI58GK_lguBKwmM47.KV9dAjcCJnb8LJzKTup3".
Definition dropdownList : string :=
  "div.hOHAbtCOIyeIzsBNXomV ul[role=" +:+ Js.quoted "radiogroup" +:+ "]".
Definition freeModelItems : string :=
  "div.hOHAbtCOIyeIzsBNXomV ul[role=" +:+ Js.quoted "radiogroup"
  +:+ "].SNQyQwxXuNCOKeRCqHri:first-of-type li.bPPjvKMux8ZtRPD4cZrA".
Definition closeButton : string :=
  "button[aria-label=" +:+ Js.quoted "close dialog" +:+ "]".
Definition dropdownModal : string := "div.hOHAbtCOIyeIzsBNXomV".

Definition captchaError : JsError :=
  Error "CAPTCHA/Challenge detected. Cannot proceed in headless mode".

(** The callback of [page.$$eval], for one [li]. *)
Definition extractItem (item : DomItem) : Model :=
  {| name := match nameElement item with
             | Some text => Js.trim text
             | None => EmptyString
             end;
     isBeta := match betaBadge item with
               | Some text => Some (Js.trim text)
               | None => None
               end;
     features := map Js.trim (featureElements item) |}.

(** [(items) => items.map(...)] *)
Definition extractModels (items : list DomItem) : list Model :=
  map extractItem items.

(** [page.locator(sel).isVisible().catch(() => false)] *)
Definition isVisibleOrFalse (page : Z) (sel : string) : Prog bool :=
  Await (LocatorIsVisible page sel)
    (λ o, match o with Ok b => Ret b | Thrown _ => Ret false end).

(** [globalBrowser.close()] and the three globals set to [null]. *)
Definition closeAndForget (browser : Z) : Prog unit :=
  await (BrowserClose browser) ;;
  modify (setGlobalBrowser None) ;;
  modify (setGlobalContext None) ;;
  modify (setGlobalPage None).

(** A method called on a global that holds [null]. *)
Definition nullError (method : string) : JsError :=
  Error ("Cannot read properties of null (reading '" +:+ method +:+ "')").

(** [if (!globalBrowser) { ... }]: launch, context, init script, page. *)
Definition launchIfNeeded : Prog unit :=
  s <- get ;;
  match globalBrowser s with
  | Some _ => Ret tt
  | None =>
      browser <- await ChromiumLaunch ;;
      modify (setGlobalBrowser (Some browser)) ;;
      s <- get ;;
      match globalBrowser s with
      | None => Throw (nullError "newContext")
      | Some browser =>
          context <- await (BrowserNewContext browser) ;;
          modify (setGlobalContext (Some context)) ;;
          s <- get ;;
          match globalContext s with
          | None => Throw (nullError "addInitScript")
          | Some context =>
              await (ContextAddInitScript context) ;;
              s <- get ;;
              match globalContext s with
              | None => Throw (nullError "newPage")
              | Some context =>
                  page <- await (ContextNewPage context) ;;
                  modify (setGlobalPage (Some page))
              end
          end
      end
  end.

(** [if (!page.url().includes("duck.ai")) { ... }]: navigation, first
    challenge check, welcome modal. *)
Definition openSite (page : Z) : Prog unit :=
  url <- await (PageUrl page) ;;
  if Js.includes url "duck.ai" then Ret tt
  else
    await (PageGoto page "https://duck.ai" 30000) ;;
    await (PageWaitForTimeout page 2000) ;;
    captchaModal <- isVisibleOrFalse page anomalyModal ;;
    if captchaModal : bool then Throw captchaError
    else
      modalVisible <- isVisibleOrFalse page welcomeModal ;;
      if modalVisible : bool then
        await (PageClick page agreeButton None) ;;
        await (PageWaitForSelector page welcomeModal "hidden" 10000)
      else Ret tt.

(** From the wait for the dropdown button to [page.$$eval]. *)
Definition openDropdownAndExtract (page : Z) : Prog (list Model) :=
  await (PageWaitForSelector page dropdownButton "visible" 10000) ;;
  captchaModal2 <- isVisibleOrFalse page anomalyModal ;;
  if captchaModal2 : bool then Throw captchaError
  else
    await (PageClick page dropdownButton (Some 10000)) ;;
    await (PageWaitForSelector page dropdownList "visible" 10000) ;;
    items <- await (PageEvalAll page freeModelItems) ;;
    Ret (extractModels items).

(** From the navigation to the extracted list. *)
Definition reachModels (page : Z) : Prog (list Model) :=
  openSite page ;;
  openDropdownAndExtract page.

(** The inner [try]: the close button, then the wait for the modal to go. *)
Definition closeWithButton (page : Z) : Prog unit :=
  await (PageClick page closeButton (Some 5000)) ;;
  await (PageWaitForSelector page dropdownModal "hidden" 5000).

Definition pressEscape (page : Z) : Call := KeyboardPress page "Escape".

(** [try { ... } catch (error) { await page.keyboard.press("Escape") }] *)
Definition closeDropdown (page : Z) : Prog unit :=
  tryCatch (closeWithButton page) (λ _, await (pressEscape page)).

(** [if (!keepOpen && globalBrowser) { ... }] *)
Definition closeUnlessKept (keepOpen : bool) : Prog unit :=
  s <- get ;;
  match globalBrowser s with
  | Some browser => if negb keepOpen then closeAndForget browser else Ret tt
  | None => Ret tt
  end.

(** The object returned at the end of the [try]. *)
Definition extracted (models : list Model) : NavResult :=
  {| success := true;
     message := "Successfully extracted " +:+ pretty (length models)
                +:+ " free models!";
     error := None;
     models := models |}.

(** The object returned by the [catch]. *)
Definition failure (e : JsError) : NavResult :=
  {| success := false;
     message := "Error: " +:+ errorMessage e;
     error := Some (errorMessage e);
     models := [] |}.

(** The body of the outer [try]. *)
Definition navigateBody (keepOpen : bool) : Prog NavResult :=
  launchIfNeeded ;;
  s <- get ;;
  match globalPage s with
  | None => Throw (nullError "url")
  | Some page =>
      models <- reachModels page ;;
      closeDropdown page ;;
      closeUnlessKept keepOpen ;;
      Ret (extracted models)
  end.

(** The outer [catch (error)]. *)
Definition navigateCatch (keepOpen : bool) (e : JsError) : Prog NavResult :=
  closeUnlessKept keepOpen ;;
  Ret (failure e).

Definition navigateToDuckAI (keepOpen : bool) : Prog NavResult :=
  tryCatch (navigateBody keepOpen) (navigateCatch keepOpen).

(** [closeBrowser] *)
Definition closeBrowser : Prog unit :=
  s <- get ;;
  match globalBrowser s with
  | Some browser => closeAndForget browser
  | None => Ret tt
  end.

End Tasks.

(** ** [src/commands/handlers.js] *)

Module Handlers.

(** The object returned by [ensureModelsLoaded]; a field that the source
    leaves out is [false] or [None] here. *)
Record LoadResult := {
  success : bool;
  alreadyLoaded : bool;
  models : option (list Model);
  message : option string
}.

Definition newline : string := Js.bytes [10%nat].

(** [parsed.users.forEach((user) => { userAcceptanceStore[user.id] = true })]:
    the entries are marked one after the other, up to the first [null],
    where reading the [id] throws. *)
Fixpoint markUsers (users : list UserEntry) : Prog unit :=
  match users with
  | [] => Ret tt
  | user :: users =>
      match user with
      | UserRecord id | UserOther (Some id) =>
          modify (setUserAcceptanceStore <[id := true]>) ;;
          markUsers users
      | UserOther None => markUsers users
      | UserNull => Throw (Tasks.nullError "id")
      end
  end.

(** [loadUsers]: what is returned is [parsed], of which the callers read
    [users] alone; any error gives [{ users: [] }]. *)
Definition loadUsers : Prog UsersField :=
  tryCatch
    (parsed <- await ReadUsersFile ;;
     match parsed with
     | ParsedNull => Throw (Tasks.nullError "users")
     | ParsedValue (UsersArray users) =>
         markUsers users ;;
         Ret (UsersArray users)
     | ParsedValue field => Ret field
     end)
    (λ _, Ret (UsersArray [])).

(** [initializeBotData] (its [console.log] is left out). *)
Definition initializeBotData : Prog unit :=
  loadUsers ;; Ret tt.

(** [users.findIndex((u) => u.id === id)]: the index of the first entry
    whose [id] is that number, if there is one. *)
Fixpoint findIndex (id : Z) (users : list UserEntry) : Outcome (option nat) :=
  match users with
  | [] => Ok None
  | user :: users =>
      match user with
      | UserRecord id' =>
          if Z.eqb id' id then Ok (Some 0%nat)
          else match findIndex id users with
               | Ok index => Ok (S <$> index)
               | Thrown e => Thrown e
               end
      | UserOther _ =>
          match findIndex id users with
          | Ok index => Ok (S <$> index)
          | Thrown e => Thrown e
          end
      | UserNull => Thrown (Tasks.nullError "id")
      end
  end.

(** A synchronous step that returns or throws. *)
Definition lift {A} (o : Outcome A) : Prog A :=
  match o with
  | Ok a => Ret a
  | Thrown e => Throw e
  end.

(** [saveUser], for the user data of [extractUserData(ctx)]: of an entry
    of the file only the [id] is kept, so the entry that replaces the one of
    the user and the entry that is pushed are both [UserRecord id]. *)
Definition saveUser (id : Z) : Prog bool :=
  tryCatch
    (usersData <- loadUsers ;;
     match usersData with
     | UsersArray users =>
         existingUserIndex <- lift (findIndex id users) ;;
         let written :=
           match existingUserIndex with
           | Some index => <[index := UserRecord id]> users
           | None => users ++ [UserRecord id]
           end in
         await (WriteUsersFile written) ;;
         Ret true
     | UsersUndefined =>
         Throw (Error "Cannot read properties of undefined (reading 'findIndex')")
     | UsersNull => Throw (Tasks.nullError "findIndex")
     | UsersOther => Throw (Error "usersData.users.findIndex is not a function")
     end)
    (λ e, consoleError ("Error saving user data: " +:+ errorMessage e) ;;
          Ret false).

(** [userModelsStore[userId] && userModelsStore[userId].length > 0] *)
Definition hasModels (stored : option (list Model)) : bool :=
  match stored with
  | Some (_ :: _) => true
  | _ => false
  end.

(** [userModelsStore[userId] || []] *)
Definition modelsOrEmpty (stored : option (list Model)) : list Model :=
  match stored with
  | Some models => models
  | None => []
  end.

(** [userAcceptanceStore[userId]], as a condition. *)
Definition accepted (s : State) (userId : Z) : bool :=
  match userAcceptanceStore s !! userId with
  | Some b => b
  | None => false
  end.

Definition alreadyLoadedResult : LoadResult :=
  {| success := true; alreadyLoaded := true; models := None; message := None |}.

Definition busyResult : LoadResult :=
  {| success := false; alreadyLoaded := false; models := None;
     message := Some "Already fetching models, please wait..." |}.

Definition failedResult (reason : string) : LoadResult :=
  {| success := false; alreadyLoaded := false; models := None;
     message := Some reason |}.

Definition loadedResult (models : list Model) : LoadResult :=
  {| success := true; alreadyLoaded := false; models := Some models;
     message := None |}.

Definition connecting : string := "🔄 Connecting to server...".

(** [if (result.success) { ... } else { ... }] of [ensureModelsLoaded]. *)
Definition reportFetch (ctx : Ctx) (userId statusMsg : Z) (result : Tasks.NavResult)
  : Prog LoadResult :=
  if Tasks.success result then
    modify (setUserModelsStore <[userId := Tasks.models result]>) ;;
    await (TelegramEditMessageText (chatId ctx) statusMsg
             ("✅ Successfully loaded " +:+ pretty (length (Tasks.models result))
              +:+ " models!")) ;;
    fire (SetTimeout (DeleteStatusMessage (chatId ctx) statusMsg) 2000) ;;
    Ret (loadedResult (Tasks.models result))
  else
    await (TelegramEditMessageText (chatId ctx) statusMsg
             ("❌ Failed to load models: " +:+ Tasks.message result)) ;;
    Ret (failedResult (Tasks.message result)).

(** The body of the [try] of [ensureModelsLoaded]. *)
Definition fetchModels (ctx : Ctx) (userId : Z) : Prog LoadResult :=
  modify (setFetchingModelsFor (λ fetching, {[userId]} ∪ fetching)) ;;
  statusMsg <- await (CtxReply ctx connecting NoExtra) ;;
  result <- Tasks.navigateToDuckAI true ;;
  reportFetch ctx userId statusMsg result.

(** The [catch] of [ensureModelsLoaded]. *)
Definition fetchFailed (e : JsError) : Prog LoadResult :=
  consoleError ("Error fetching models: " +:+ errorMessage e) ;;
  Ret (failedResult (errorMessage e)).

Definition ensureModelsLoaded (ctx : Ctx) (userId : Z) : Prog LoadResult :=
  s <- get ;;
  if hasModels (userModelsStore s !! userId) then Ret alreadyLoadedResult
  else if bool_decide (userId ∈ fetchingModelsFor s) then Ret busyResult
  else
    finally
      (tryCatch (fetchModels ctx userId) fetchFailed)
      (modify (setFetchingModelsFor (λ fetching, fetching ∖ {[userId]}))).

(** The callback of the [setTimeout] of [ensureModelsLoaded]. *)
Definition runDeferred (cb : Deferred) : Prog unit :=
  match cb with
  | DeleteStatusMessage chat msg =>
      tryCatch (await (TelegramDeleteMessage chat msg)) (λ _, Ret tt)
  end.

(** [ctx.from.first_name || ctx.from.username || "there"] *)
Definition displayName (ctx : Ctx) : string :=
  match firstName ctx with
  | Some (String c n) => String c n
  | _ =>
      match userName ctx with
      | Some (String c n) => String c n
      | _ => "there"
      end
  end.

Definition mainKeyboard : Extra :=
  ReplyKeyboard [["🔄 Change Model"]] "Ask anything...".

Definition showMainMenu (ctx : Ctx) (username : string) : Prog unit :=
  fire (CtxReply ctx ("You're all set, " +:+ username +:+ "! 🎉") mainKeyboard).

Definition policyUrl : string :=
  "https://github.com/SahandMSV/Playwright-AI-Telegram-Automation".

Definition startHandler (ctx : Ctx) : Prog unit :=
  let userId := fromId ctx in
  let username := displayName ctx in
  s <- get ;;
  if accepted s userId then showMainMenu ctx username
  else
    fire (CtxReply ctx
            ("Welcome " +:+ username +:+ "! 🤖" +:+ newline +:+ newline
             +:+ "Before using this bot, please review and accept our policy.")
            (InlineKeyboard
               [[UrlButton "📋 Policy" policyUrl;
                 CallbackButton "✅ Accept" "accept_policy"]])).

Definition pleaseStart : string :=
  "⚠️ Please start the bot with /start and accept the policy first.".

(** The start of the [try] of [acceptPolicyHandler], up to the call of
    [navigateToDuckAI]. *)
Definition logIn (ctx : Ctx) : Prog unit :=
  let userId := fromId ctx in
  await (CtxEditMessageText ctx "Logging you in..." NoExtra) ;;
  saveUser userId ;;
  modify (setUserAcceptanceStore <[userId := true]>) ;;
  await (CtxAnswerCbQuery ctx None false) ;;
  await (CtxEditMessageText ctx "Connecting to server..." NoExtra).

(** [if (result.success) { ... } else { ... }] of [acceptPolicyHandler]. *)
Definition reportLogIn (ctx : Ctx) (result : Tasks.NavResult) : Prog unit :=
  let userId := fromId ctx in
  let username := displayName ctx in
  if Tasks.success result then
    modify (setUserModelsStore <[userId := Tasks.models result]>) ;;
    await (CtxEditMessageText ctx "Connected successfully ✅" NoExtra) ;;
    Await (Sleep 1200) (λ _, Ret tt) ;;
    await (CtxDeleteMessage ctx None) ;;
    await (CtxReply ctx ("You're all set, " +:+ username +:+ "! 🎉") mainKeyboard) ;;
    Ret tt
  else
    await (CtxEditMessageText ctx
             ("❌ Connection failed: " +:+ Tasks.message result) NoExtra) ;;
    await (CtxReply ctx "You can try again later." mainKeyboard) ;;
    Ret tt.

(** The [catch] of [acceptPolicyHandler]. *)
Definition logInFailed (ctx : Ctx) (e : JsError) : Prog unit :=
  consoleError ("Error in acceptPolicyHandler: " +:+ errorMessage e) ;;
  await (CtxEditMessageText ctx "❌ An error occurred. Please try again." NoExtra) ;;
  showMainMenu ctx (displayName ctx).

Definition acceptPolicyHandler (ctx : Ctx) : Prog unit :=
  tryCatch
    (logIn ctx ;;
     result <- Tasks.navigateToDuckAI true ;;
     reportLogIn ctx result)
    (logInFailed ctx).

(** The label of a model's row:
    [model.isBeta ? `${model.name} [${model.isBeta}]` : model.name]. *)
Definition buttonText (model : Model) : string :=
  match isBeta model with
  | Some beta =>
      if Js.truthy beta then name model +:+ " [" +:+ beta +:+ "]"
      else name model
  | None => name model
  end.

Definition modelButton (model : Model) : list Button :=
  [CallbackButton (buttonText model) ("view_model_" +:+ name model)].

Definition closeButtonRow : list Button :=
  [CallbackButton "❌ Close" "close_menu"].

(** [models.map(...)] followed by [modelButtons.push([close])]. *)
Definition modelButtons (models : list Model) : list (list Button) :=
  map modelButton models ++ [closeButtonRow].

Definition showModelMenu (ctx : Ctx) : Prog unit :=
  let userId := fromId ctx in
  s <- get ;;
  if negb (accepted s userId) then fire (CtxReply ctx pleaseStart NoExtra)
  else
    let userMessageId := messageId ctx in
    let chatId := chatId ctx in
    loadResult <- ensureModelsLoaded ctx userId ;;
    if negb (success loadResult) && negb (alreadyLoaded loadResult) then
      match message loadResult with
      | Some (String c m) =>
          fire (CtxReply ctx
                  ("⚠️ " +:+ String c m +:+ newline +:+ newline +:+ "Please try again.")
                  NoExtra)
      | _ => Ret tt
      end
    else
      s <- get ;;
      let models := modelsOrEmpty (userModelsStore s !! userId) in
      match models with
      | [] => fire (CtxReply ctx "⚠️ No models available. Please try again." NoExtra)
      | _ :: _ =>
          botMessage <- await (CtxReply ctx "🤖 Available Models:"
                                 (InlineKeyboard (modelButtons models))) ;;
          modify (setMessageStore
                    <[chatId := {| userMessageId := userMessageId;
                                   botMessageId := botMessage |}]>)
      end.

(** The bullet of a feature line. *)
Definition featureEmoji (feature : string) : string :=
  if Js.includes feature "Image" then "  📷"
  else if Js.includes feature "Web search" then "  🌐"
  else if Js.includes feature "General-purpose" then "  ⭐"
  else if Js.includes feature "Reasoning" then "  💡"
  else if Js.includes feature "moderation" then "  🛡️"
  else if Js.includes feature "Open source" then "  🔓"
  else if Js.includes feature "Created by" then "  👤"
  else "  •".

Definition featureLine (feature : string) : string :=
  featureEmoji feature +:+ " " +:+ feature +:+ newline.

(** [model.features.forEach(...)], appending to the message. *)
Definition featureLines (features : list string) : string :=
  foldl (λ message feature, message +:+ featureLine feature) EmptyString features.

Definition betaMarker (model : Model) : string :=
  match isBeta model with
  | Some beta => if Js.truthy beta then " [" +:+ beta +:+ "]" else EmptyString
  | None => EmptyString
  end.

(** The text of the detail view. *)
Definition detailMessage (model : Model) : string :=
  "🤖 *" +:+ name model +:+ "*" +:+ betaMarker model +:+ newline +:+ newline
  +:+ match features model with
      | [] => EmptyString
      | _ :: _ => "*Features:*" +:+ newline +:+ featureLines (features model)
      end.

Definition detailKeyboard (model : Model) : Extra :=
  MarkdownInlineKeyboard
    [[CallbackButton "⬅️ Back" "back_to_models";
      CallbackButton "✅ Select" ("select_model_" +:+ name model)]].

Definition viewModelDetails (ctx : Ctx) (modelName : string) : Prog unit :=
  let userId := fromId ctx in
  s <- get ;;
  let models := modelsOrEmpty (userModelsStore s !! userId) in
  match find (λ m, String.eqb (name m) modelName) models with
  | None =>
      await (CtxAnswerCbQuery ctx (Some "❌ Model not found") false) ;;
      Ret tt
  | Some model =>
      tryCatch
        (await (CtxEditMessageText ctx (detailMessage model) (detailKeyboard model)) ;;
         await (CtxAnswerCbQuery ctx None false))
        (λ e,
           consoleError ("Error editing message: " +:+ errorMessage e) ;;
           await (CtxAnswerCbQuery ctx (Some "Error displaying model details") false))
  end.

Definition backToModels (ctx : Ctx) : Prog unit :=
  let userId := fromId ctx in
  s <- get ;;
  let models := modelsOrEmpty (userModelsStore s !! userId) in
  match models with
  | [] => await (CtxAnswerCbQuery ctx (Some "No models available") false)
  | _ :: _ =>
      tryCatch
        (await (CtxEditMessageText ctx "🤖 Available Models:"
                  (InlineKeyboard (modelButtons models))) ;;
         await (CtxAnswerCbQuery ctx None false))
        (λ e,
           consoleError ("Error editing message: " +:+ errorMessage e) ;;
           await (CtxAnswerCbQuery ctx (Some "Error going back") false))
  end.

Definition undefinedError (property : string) : JsError :=
  Error ("Cannot read properties of undefined (reading '" +:+ property +:+ "')").

(** The body of the [try] of [handleModelSelection] and of [closeMenu]:
    [messageStore[chatId]] is read again after the first deletion. *)
Definition deleteMenuMessages (ctx : Ctx) : Prog unit :=
  let chatId := chatId ctx in
  s <- get ;;
  match messageStore s !! chatId with
  | Some entry =>
      await (CtxDeleteMessage ctx (Some (botMessageId entry))) ;;
      s <- get ;;
      match messageStore s !! chatId with
      | Some entry =>
          await (TelegramDeleteMessage chatId (userMessageId entry)) ;;
          modify (setMessageStore (delete chatId))
      | None => Throw (undefinedError "userMessageId")
      end
  | None => Ret tt
  end.

Definition handleModelSelection (ctx : Ctx) (modelName : string) : Prog unit :=
  let userId := fromId ctx in
  modify (setUserSelectedModelStore <[userId := modelName]>) ;;
  await (CtxAnswerCbQuery ctx (Some ("✅ " +:+ modelName +:+ " has been selected!")) true) ;;
  tryCatch
    (deleteMenuMessages ctx)
    (λ e, consoleError ("Error deleting messages: " +:+ errorMessage e)).

Definition closeMenu (ctx : Ctx) : Prog unit :=
  tryCatch
    (deleteMenuMessages ctx)
    (λ e,
       consoleError ("Error deleting messages: " +:+ errorMessage e) ;;
       await (CtxAnswerCbQuery ctx (Some "Could not delete messages") false)).

Definition settingsHandler (ctx : Ctx) : Prog unit :=
  fire (CtxAnswerCbQuery ctx
          (Some ("⚙️ Settings feature is coming soon! 🚀" +:+ newline +:+ newline
                 +:+ "We're working hard to bring you awesome customization options. Stay tuned! 😊"))
          true).

Definition starting : string := "🚀 Starting browser automation...".

(** [if (result.success) { ... } else { ... }] of [openHandler]. *)
Definition reportOpen (ctx : Ctx) (result : Tasks.NavResult) : Prog unit :=
  let userId := fromId ctx in
  if Tasks.success result then
    modify (setUserModelsStore <[userId := Tasks.models result]>) ;;
    await (CtxReply ctx
             ("✅ Successfully loaded " +:+ pretty (length (Tasks.models result))
              +:+ " models!" +:+ newline +:+ newline
              +:+ "Use " +:+ Js.quoted "🔄 Change Model"
              +:+ " to see available options.")
             NoExtra) ;;
    Ret tt
  else
    await (CtxReply ctx ("❌ " +:+ Tasks.message result) NoExtra) ;;
    Ret tt.

(** The [catch] of [openHandler]. *)
Definition openFailed (ctx : Ctx) (e : JsError) : Prog unit :=
  consoleError ("Error in openHandler: " +:+ errorMessage e) ;;
  await (CtxReply ctx "❌ An error occurred. Please try again." NoExtra) ;;
  Ret tt.

Definition openHandler (ctx : Ctx) : Prog unit :=
  let userId := fromId ctx in
  s <- get ;;
  if negb (accepted s userId) then fire (CtxReply ctx pleaseStart NoExtra)
  else
    tryCatch
      (await (CtxReply ctx starting NoExtra) ;;
       result <- Tasks.navigateToDuckAI true ;;
       reportOpen ctx result)
      (openFailed ctx).

(** [helpHandler] *)
Definition helpMessage : string :=
  "📚 Help Information" +:+ newline +:+ newline
  +:+ "Available features:" +:+ newline
  +:+ "• " +:+ Js.quoted "Change Model"
  +:+ " - Select from available AI models" +:+ newline
  +:+ "• " +:+ Js.quoted "Settings"
  +:+ " - Configure bot preferences (coming soon)" +:+ newline +:+ newline
  +:+ "Bot commands:" +:+ newline
  +:+ "• /start - Show main menu" +:+ newline
  +:+ "• /help - Show this help message" +:+ newline
  +:+ "• /open - Launch Chrome, navigate to duck.ai, and extract available models".

Definition helpHandler (ctx : Ctx) : Prog unit :=
  fire (CtxReply ctx helpMessage NoExtra).

End Handlers.

(** ** The entry file (its registrations of handlers) *)

Module Index.

(** The handlers that the entry file registers, with what the trigger
    hands them: [bot.start], [bot.help], [bot.command("open")], the
    [accept_policy] action, the two [bot.hears], and the four menu
    actions. *)
Inductive Handler :=
| OnStart
| OnHelp
| OnOpen
| OnAcceptPolicy
| OnChangeModel
| OnSettings
| OnViewModel (modelName : string)
| OnBackToModels
| OnSelectModel (modelName : string)
| OnCloseMenu.

Definition handle (h : Handler) (ctx : Ctx) : Prog unit :=
  match h with
  | OnStart => Handlers.startHandler ctx
  | OnHelp => Handlers.helpHandler ctx
  | OnOpen => Handlers.openHandler ctx
  | OnAcceptPolicy => Handlers.acceptPolicyHandler ctx
  | OnChangeModel => Handlers.showModelMenu ctx
  | OnSettings => Handlers.settingsHandler ctx
  | OnViewModel modelName => Handlers.viewModelDetails ctx modelName
  | OnBackToModels => Handlers.backToModels ctx
  | OnSelectModel modelName => Handlers.handleModelSelection ctx modelName
  | OnCloseMenu => Handlers.closeMenu ctx
  end.

(** The ECMAScript line terminators, in UTF-8: LF, CR, U+2028, U+2029.  A
    dot of a regular expression matches anything else. *)
Definition lineTerminators : list string :=
  [ Js.bytes [10%nat]; Js.bytes [13%nat];
    Js.bytes [226; 128; 168]%nat; Js.bytes [226; 128; 169]%nat ].

Definition hasLineTerminator (s : string) : bool :=
  existsb (Js.includes s) lineTerminators.

(** [/^prefix(.+)$/.exec(data)[1]], the [ctx.match[1]] of the two
    registrations with a pattern: the capture group, if the data matches.
    The pattern has no flag, so [$] is the end of the data. *)
Definition execPrefixed (prefix data : string) : option string :=
  match Js.dropPrefix prefix data with
  | Some rest =>
      if Js.truthy rest && negb (hasLineTerminator rest) then Some rest else None
  | None => None
  end.

Definition viewModelMatch : string → option string := execPrefixed "view_model_".
Definition selectModelMatch : string → option string := execPrefixed "select_model_".

End Index.

(** ** Results, frames and completions *)

(** [r], then [k] from where [r] ended if [r] completed normally. *)
Definition seqResult {A B} (r : Result A) (k : A → nat → State → Result B) : Result B :=
  match completion r with
  | Ok a =>
      let r' := k a (next r) (stores r) in
      {| completion := completion r'; stores := stores r';
         events := events r ++ events r'; next := next r' |}
  | Thrown e =>
      {| completion := Thrown e; stores := stores r;
         events := events r; next := next r |}
  end.

(** [r], then the handler [h] from where [r] ended if [r] threw. *)
Definition catchResult {A} (r : Result A) (h : JsError → nat → State → Result A) : Result A :=
  match completion r with
  | Ok a => r
  | Thrown e =>
      let r' := h e (next r) (stores r) in
      {| completion := completion r'; stores := stores r';
         events := events r ++ events r'; next := next r' |}
  end.

(** [r], then [f] from where [r] ended, whatever the completion of [r]. *)
Definition finallyResult {A} (r : Result A) (f : nat → State → Result unit) : Result A :=
  let r' := f (next r) (stores r) in
  {| completion := match completion r' with
                   | Ok _ => completion r
                   | Thrown e => Thrown e
                   end;
     stores := stores r'; events := events r ++ events r'; next := next r' |}.

(** [keeps proj p]: no write of [p] changes the part [proj] of the stores. *)
Fixpoint keeps {X R} (proj : State → X) (p : Prog R) : Prop :=
  match p with
  | Ret _ | Throw _ => True
  | Await c k => ∀ o, keeps proj (k o)
  | Fire _ k | Log _ k => keeps proj k
  | Read k => ∀ s, keeps proj (k s)
  | Write f k => (∀ s, proj (f s) = proj s) ∧ keeps proj k
  end.

(** The stores of [handlers.js], which [tasks.js] never touches. *)
Definition handlerStores (s : State) :=
  (messageStore s, userAcceptanceStore s, userModelsStore s,
   userSelectedModelStore s, fetchingModelsFor s).

(** [ensures Q p]: whatever the outside world answers and whatever the
    stores hold, [p] completes in a way that satisfies [Q]. *)
Fixpoint ensures {R} (Q : Outcome R → Prop) (p : Prog R) : Prop :=
  match p with
  | Ret r => Q (Ok r)
  | Throw e => Q (Thrown e)
  | Await c k => ∀ o, ensures Q (k o)
  | Fire _ k | Log _ k => ensures Q k
  | Read k => ∀ s, ensures Q (k s)
  | Write _ k => ensures Q k
  end.

(** ** Scenarios and shorthands for the statements *)

Definition blankItem : DomItem :=
  {| nameElement := None; betaBadge := None; featureElements := [] |}.

Definition gptItem : DomItem :=
  {| nameElement := Some (" GPT-Model-X" +:+ Handlers.newline);
     betaBadge := None;
     featureElements := [" Web search "; "Created by X"] |}.

(** The alert that confirms a selection. *)
Definition confirmation (ctx : Ctx) (modelName : string) : Call :=
  CtxAnswerCbQuery ctx (Some ("✅ " +:+ modelName +:+ " has been selected!")) true.

Definition deleteBotMessage (ctx : Ctx) (entry : MessagePair) : Call :=
  CtxDeleteMessage ctx (Some (botMessageId entry)).

Definition deleteUserMessage (ctx : Ctx) (entry : MessagePair) : Call :=
  TelegramDeleteMessage (chatId ctx) (userMessageId entry).

Definition deletionLog (e : JsError) : Event :=
  Logged ("Error deleting messages: " +:+ errorMessage e).

(** A private chat with one user, and the pair of her open menu. *)
Definition ann : Ctx :=
  {| fromId := 7; firstName := Some "Ann"; userName := None;
     chatId := 7; messageId := 41 |}.

Definition annMenu : MessagePair :=
  {| userMessageId := 41; botMessageId := 42 |}.

Definition annAccepted : State :=
  setUserAcceptanceStore <[7 := true]> initialState.

Definition annMenuOpen : State :=
  setMessageStore <[7 := annMenu]> annAccepted.

(** Every call succeeds: the page is blank at first, no modal shows, and the
    dropdown lists two items, the second one with nothing in it. *)
Definition calmWorld : Oracle := λ n c,
  match c return Outcome (resp c) with
  | CtxReply _ _ _ => Ok 42
  | ReadUsersFile => Ok (ParsedValue (UsersArray [UserRecord 7]))
  | ChromiumLaunch => Ok 1
  | BrowserNewContext _ => Ok 2
  | ContextNewPage _ => Ok 3
  | PageUrl _ => Ok "about:blank"
  | LocatorIsVisible _ _ => Ok false
  | PageEvalAll _ _ => Ok [gptItem; blankItem]
  | _ => Ok tt
  end.

(** As [calmWorld], but the bot's menu message is already gone. *)
Definition botMessageGone : Oracle := λ n c,
  match c return Outcome (resp c) with
  | CtxDeleteMessage _ _ =>
      Thrown (Error "400: Bad Request: message to delete not found")
  | c => calmWorld n c
  end.

(** As [calmWorld], but the site shows its challenge modal. *)
Definition challengeWorld : Oracle := λ n c,
  match c return Outcome (resp c) with
  | LocatorIsVisible _ selector => Ok (String.eqb selector Tasks.anomalyModal)
  | c => calmWorld n c
  end.

(** As [calmWorld], but the dropdown button never shows. *)
Definition slowWorld : Oracle := λ n c,
  match c return Outcome (resp c) with
  | PageWaitForSelector _ _ _ _ => Thrown (Error "Timeout 10000ms exceeded.")
  | c => calmWorld n c
  end.

(** As [calmWorld], but the close button does not answer and the page is
    gone when Escape is pressed. *)
Definition pageGoneAtDismissal : Oracle := λ n c,
  match c return Outcome (resp c) with
  | PageClick _ selector _ =>
      if String.eqb selector Tasks.closeButton
      then Thrown (Error "Timeout 5000ms exceeded.")
      else Ok tt
  | KeyboardPress _ _ =>
      Thrown (Error "Target page, context or browser has been closed")
  | c => calmWorld n c
  end.

(** As [calmWorld], but the close button does not answer. *)
Definition closeButtonStuck : Oracle := λ n c,
  match c return Outcome (resp c) with
  | PageClick _ selector _ =>
      if String.eqb selector Tasks.closeButton
      then Thrown (Error "Timeout 5000ms exceeded.")
      else Ok tt
  | c => calmWorld n c
  end.

(** The catalog of the round trip: [A], and [B] with a badge and two
    features. *)
Definition modelA : Model :=
  {| name := "A"; isBeta := None; features := [] |}.

Definition modelB : Model :=
  {| name := "B"; isBeta := Some "Beta"; features := ["x"; "y"] |}.

Definition annWithCatalog : State :=
  setUserModelsStore <[7 := [modelA; modelB]]> annAccepted.

(** A list item whose badge element is there, with blank text. *)
Definition blankBadgeItem : DomItem :=
  {| nameElement := Some "B"; betaBadge := Some " "; featureElements := ["x"] |}.

(** The row of a model in the list view. *)
Definition rowOf (model : Model) : list Button :=
  [CallbackButton (name model +:+ Handlers.betaMarker model)
                  ("view_model_" +:+ name model)].

(** The list view, as sent by [showModelMenu] and as edited in by
    [backToModels]. *)
Definition listViewSent (ctx : Ctx) (models : list Model) : Call :=
  CtxReply ctx "🤖 Available Models:" (InlineKeyboard (Handlers.modelButtons models)).

Definition listViewEdited (ctx : Ctx) (models : list Model) : Call :=
  CtxEditMessageText ctx "🤖 Available Models:"
    (InlineKeyboard (Handlers.modelButtons models)).

(** The detail view of a model. *)
Definition detailViewEdited (ctx : Ctx) (model : Model) : Call :=
  CtxEditMessageText ctx (Handlers.detailMessage model) (Handlers.detailKeyboard model).

(** The feature lines of a detail view, first feature first. *)
Definition linesInOrder (features : list string) : string :=
  foldr (λ feature rest, Handlers.featureLine feature +:+ rest) EmptyString features.

(** [models.find((m) => m.name === modelName)] *)
Definition findByName (modelName : string) (models : list Model) : option Model :=
  find (λ m, String.eqb (name m) modelName) models.

(** A result that completes normally with [a] and does nothing else. *)
Definition returned {A} (a : A) (n : nat) (s : State) : Result A :=
  {| completion := Ok a; stores := s; events := []; next := n |}.

(** The end of [navigateToDuckAI] once the list has been read: what is
    returned when the dismissal completes as [dismissal]. *)
Definition afterDismissal (models : list Model) (dismissal : Outcome unit)
  : Tasks.NavResult :=
  match dismissal with
  | Ok _ => Tasks.extracted models
  | Thrown e => Tasks.failure e
  end.

(** [userId] is marked as being fetched for. *)
Definition startFetching (userId : Z) : State → State :=
  setFetchingModelsFor (λ fetching, {[userId]} ∪ fetching).

(** A call of [ensureModelsLoaded] answers at once, before any [await] and
    without touching the stores. *)
Definition answersAtOnce (ctx : Ctx) (userId : Z) (s : State)
    (answer : Handlers.LoadResult) : Prop :=
  advance (Handlers.ensureModelsLoaded ctx userId) s = (s, [], Ret answer).

(** A call of [ensureModelsLoaded] starts a fetch: by its first [await],
    which is the status message, it has marked the user as being fetched
    for. *)
Definition startsFetch (ctx : Ctx) (userId : Z) (s : State) : Prop :=
  ∃ k, advance (Handlers.ensureModelsLoaded ctx userId) s
       = (startFetching userId s, [],
          Await (CtxReply ctx Handlers.connecting NoExtra) k).

(** Ann asks for the menu, and while that call waits for its status
    message she sends [/open], which is handled to its end. *)
Definition annMenuPending : State :=
  (advance (Handlers.showModelMenu ann) annAccepted).1.1.

Definition annOpenedMeanwhile : State :=
  stores (run (Handlers.openHandler ann) calmWorld 0 annMenuPending).

(** The catalog store after the [if (result.success)] of a handler. *)
Definition written (userId : Z) (store : gmap Z (list Model))
    (result : Tasks.NavResult) : gmap Z (list Model) :=
  if Tasks.success result then <[userId := Tasks.models result]> store else store.

(** The edit of the status message of [ensureModelsLoaded] after a failed
    pipeline. *)
Definition failureNotice (ctx : Ctx) (statusMsg : Z) (result : Tasks.NavResult) : Call :=
  TelegramEditMessageText (chatId ctx) statusMsg
    ("❌ Failed to load models: " +:+ Tasks.message result).

(** The catalog store of a handler that got as far as the pipeline, which
    completed as [pipeline]. *)
Definition afterPipeline (userId : Z) (store : gmap Z (list Model))
    (pipeline : Outcome Tasks.NavResult) : gmap Z (list Model) :=
  match pipeline with
  | Ok result => written userId store result
  | Thrown _ => store
  end.

(** ** Interleaved calls

    Calls of [ensureModelsLoaded] in flight, each with the user it is for
    and what is left of it.  A call is made ([step_call]: it runs up to its
    first [await]); a waiting call gets the answer to its [await] and runs
    up to its next one ([step_resume]); in between, other handlers change
    the stores, but none of them touches [fetchingModelsFor]
    ([step_other]). *)

Definition pending {R} (p : Prog R) : bool :=
  match p with
  | Await _ _ => true
  | _ => false
  end.

Abbreviation Pool := (list (Z * Prog Handlers.LoadResult)).

Definition enter (ctx : Ctx) (userId : Z) (s : State) (pool : Pool) : State * Pool :=
  let '(s', _, rest) := advance (Handlers.ensureModelsLoaded ctx userId) s in
  (s', pool ++ [(userId, rest)]).

Definition resume (i : nat) (userId : Z) (rest : Prog Handlers.LoadResult)
    (s : State) (pool : Pool) : State * Pool :=
  let '(s', _, rest') := advance rest s in
  (s', <[i := (userId, rest')]> pool).

Inductive step : State * Pool → State * Pool → Prop :=
| step_call ctx userId s pool :
    step (s, pool) (enter ctx userId s pool)
| step_resume i userId c k o s pool :
    pool !! i = Some (userId, Await c k) →
    step (s, pool) (resume i userId (k o) s pool)
| step_other (f : State → State) s pool :
    (∀ s, fetchingModelsFor (f s) = fetchingModelsFor s) →
    step (s, pool) (f s, pool).

(** The calls of a pool that are waiting at an [await], by user. *)
Definition inFlight (pool : Pool) (i : nat) (userId : Z) : Prop :=
  ∃ rest, pool !! i = Some (userId, rest) ∧ pending rest = true.

Definition finished {R} (p : Prog R) : Prop :=
  match p with
  | Ret _ | Throw _ => True
  | _ => False
  end.

(** [releases userId p]: on every way through [p], the set of users being
    fetched for is left alone until [userId] is taken out of it, which is
    the last thing [p] does. *)
Fixpoint releases {R} (userId : Z) (p : Prog R) : Prop :=
  match p with
  | Ret _ | Throw _ => False
  | Await c k => ∀ o, releases userId (k o)
  | Fire _ k | Log _ k => releases userId k
  | Read k => ∀ s, releases userId (k s)
  | Write f k =>
      ((∀ s, fetchingModelsFor (f s) = fetchingModelsFor s) ∧ releases userId k)
      ∨ ((∀ s, fetchingModelsFor (f s) = fetchingModelsFor s ∖ {[userId]})
         ∧ finished k)
  end.

(** What holds of the stores and the pool at every point. *)
Definition guardMatchesPool (s : State) (pool : Pool) : Prop :=
  (∀ userId, userId ∈ fetchingModelsFor s ↔ ∃ i, inFlight pool i userId)
  ∧ (∀ userId i j, inFlight pool i userId → inFlight pool j userId → i = j)
  ∧ (∀ userId i rest, pool !! i = Some (userId, rest) → pending rest = true →
                      releases userId rest).

(** ** More ways to read a program *)

(** [stable I p]: every write of [p] takes a store that satisfies [I] to
    one that does. *)
Fixpoint stable {R} (I : State → Prop) (p : Prog R) : Prop :=
  match p with
  | Ret _ | Throw _ => True
  | Await c k => ∀ o, stable I (k o)
  | Fire _ k | Log _ k => stable I k
  | Read k => ∀ s, stable I (k s)
  | Write f k => (∀ s, I s → I (f s)) ∧ stable I k
  end.

(** [calls P p]: every call that [p] can make, awaited or not, satisfies
    [P]. *)
Fixpoint calls {R} (P : Call → Prop) (p : Prog R) : Prop :=
  match p with
  | Ret _ | Throw _ => True
  | Await c k => P c ∧ ∀ o, calls P (k o)
  | Fire c k => P c ∧ calls P k
  | Log _ k => calls P k
  | Read k => ∀ s, calls P (k s)
  | Write _ k => calls P k
  end.

(** The call of an event, if it is one. *)
Definition calledIn (P : Call → Prop) (ev : Event) : Prop :=
  match ev with
  | Awaited c | Fired c => P c
  | Logged _ => True
  end.

(** [wp Q p s]: from the stores [s], whatever the outside world answers,
    [p] ends with a completion and stores that satisfy [Q]. *)
Fixpoint wp {R} (Q : Outcome R → State → Prop) (p : Prog R) (s : State) : Prop :=
  match p with
  | Ret r => Q (Ok r) s
  | Throw e => Q (Thrown e) s
  | Await c k => ∀ o, wp Q (k o) s
  | Fire _ k | Log _ k => wp Q k s
  | Read k => wp Q (k s) s
  | Write f k => wp Q k (f s)
  end.

(** ** Shorthands for the further properties *)

(** The users that [forEach] marks: those of the entries before the first
    [null]. *)
Fixpoint marked (users : list UserEntry) : list Z :=
  match users with
  | [] => []
  | user :: users =>
      match user with
      | UserRecord id | UserOther (Some id) => id :: marked users
      | UserOther None => marked users
      | UserNull => []
      end
  end.

Definition isNull (user : UserEntry) : bool :=
  match user with UserNull => true | _ => false end.

Definition hasNull (users : list UserEntry) : bool := existsb isNull users.

(** The user that an entry marks, if any. *)
Definition keyOf (user : UserEntry) : option Z :=
  match user with
  | UserRecord id => Some id
  | UserOther key => key
  | UserNull => None
  end.

(** The stores with the users [ids] marked, one after the other. *)
Definition markAll (ids : list Z) (s : State) : State :=
  foldl (λ s id, setUserAcceptanceStore <[id := true]> s) s ids.

(** What [loadUsers] returns, and [saveUser] takes as [usersData.users]:
    what the file holds, or the empty array when the file cannot be read
    or parsed, holds [null], or has [null] among its users. *)
Definition usersRead (read : Outcome Parsed) : UsersField :=
  match read with
  | Ok (ParsedValue (UsersArray users)) =>
      UsersArray (if hasNull users then [] else users)
  | Ok (ParsedValue field) => field
  | Ok ParsedNull | Thrown _ => UsersArray []
  end.

(** The entries that [saveUser] writes for the entries [users] it has
    taken. *)
Definition isUser (id : Z) (user : UserEntry) : bool :=
  match user with
  | UserRecord id' => Z.eqb id' id
  | _ => false
  end.

Definition usersWritten (id : Z) (users : list UserEntry) : list UserEntry :=
  if existsb (isUser id) users then users else users ++ [UserRecord id].

(** As [calmWorld], but the users file has [null] between two users. *)
Definition nullEntryFile : Oracle := λ n c,
  match c return Outcome (resp c) with
  | ReadUsersFile =>
      Ok (ParsedValue (UsersArray [UserRecord 7; UserNull; UserRecord 8]))
  | c => calmWorld n c
  end.

(** As [calmWorld], but the users file is not there. *)
Definition usersFileMissing : Oracle := λ n c,
  match c return Outcome (resp c) with
  | ReadUsersFile =>
      Thrown (Error "ENOENT: no such file or directory, open 'data/users.json'")
  | c => calmWorld n c
  end.

(** The module-level variables of the two files. *)
Inductive Store :=
| MessageStore
| AcceptanceStore
| ModelsStore
| SelectionStore
| FetchingSet
| BrowserGlobals.

Definition sameStore (st : Store) (s s' : State) : Prop :=
  match st with
  | MessageStore => messageStore s' = messageStore s
  | AcceptanceStore => userAcceptanceStore s' = userAcceptanceStore s
  | ModelsStore => userModelsStore s' = userModelsStore s
  | SelectionStore => userSelectedModelStore s' = userSelectedModelStore s
  | FetchingSet => fetchingModelsFor s' = fetchingModelsFor s
  | BrowserGlobals =>
      (globalBrowser s', globalContext s', globalPage s')
      = (globalBrowser s, globalContext s, globalPage s)
  end.

(** The handlers with an assignment to the variable, in their own body or
    in a function they call. *)
Definition writers (st : Store) (h : Index.Handler) : bool :=
  match st, h with
  | MessageStore, (Index.OnChangeModel | Index.OnSelectModel _ | Index.OnCloseMenu) => true
  | AcceptanceStore, Index.OnAcceptPolicy => true
  | ModelsStore, (Index.OnOpen | Index.OnAcceptPolicy | Index.OnChangeModel) => true
  | SelectionStore, Index.OnSelectModel _ => true
  | FetchingSet, Index.OnChangeModel => true
  | BrowserGlobals, (Index.OnOpen | Index.OnAcceptPolicy | Index.OnChangeModel) => true
  | _, _ => false
  end.

(** The first call of [acceptPolicyHandler], and the edit of its [catch]. *)
Definition loggingIn (ctx : Ctx) : Call :=
  CtxEditMessageText ctx "Logging you in..." NoExtra.

Definition errorNotice (ctx : Ctx) : Call :=
  CtxEditMessageText ctx "❌ An error occurred. Please try again." NoExtra.

(** The reply of [showMainMenu]. *)
Definition allSet (ctx : Ctx) : Call :=
  CtxReply ctx ("You're all set, " +:+ Handlers.displayName ctx +:+ "! 🎉")
    Handlers.mainKeyboard.

(** The reply to a user who has not accepted the policy. *)
Definition turnedAway (ctx : Ctx) : Event :=
  Fired (CtxReply ctx Handlers.pleaseStart NoExtra).

(** The answer of [closeMenu] when a deletion failed. *)
Definition couldNotDelete (ctx : Ctx) : Call :=
  CtxAnswerCbQuery ctx (Some "Could not delete messages") false.

(** The pair that [showModelMenu] stores for the menu message [botMessage]. *)
Definition menuPair (ctx : Ctx) (botMessage : Z) : MessagePair :=
  {| userMessageId := messageId ctx; botMessageId := botMessage |}.

(** The press of the close button of Ann's menu: a callback query of the
    same chat, whose message is the menu. *)
Definition annClose : Ctx :=
  {| fromId := 7; firstName := Some "Ann"; userName := None;
     chatId := 7; messageId := 42 |}.

(** The edit of the status message of [ensureModelsLoaded] after a
    successful pipeline, and the deferred deletion of that message. *)
Definition successNotice (ctx : Ctx) (statusMsg : Z) (result : Tasks.NavResult) : Call :=
  TelegramEditMessageText (chatId ctx) statusMsg
    ("✅ Successfully loaded " +:+ pretty (length (Tasks.models result))
     +:+ " models!").

Definition deferredDeletion (ctx : Ctx) (statusMsg : Z) : Call :=
  SetTimeout (DeleteStatusMessage (chatId ctx) statusMsg) 2000.

(** The services behind the calls. *)
Inductive Service := Telegram | Timer | UsersFile | Browser.

Definition serviceOf (c : Call) : Service :=
  match c with
  | CtxReply _ _ _ | CtxEditMessageText _ _ _ | CtxAnswerCbQuery _ _ _
  | CtxDeleteMessage _ _ | TelegramEditMessageText _ _ _
  | TelegramDeleteMessage _ _ => Telegram
  | SetTimeout _ _ | Sleep _ => Timer
  | ReadUsersFile | WriteUsersFile _ => UsersFile
  | _ => Browser
  end.

(** The handlers with a call to the service, in their own body or in a
    function they call. *)
Definition uses (h : Index.Handler) (service : Service) : bool :=
  match service, h with
  | Telegram, _ => true
  | Timer, (Index.OnAcceptPolicy | Index.OnChangeModel) => true
  | UsersFile, Index.OnAcceptPolicy => true
  | Browser, (Index.OnOpen | Index.OnAcceptPolicy | Index.OnChangeModel) => true
  | _, _ => false
  end.

Definition closesBrowser (c : Call) : bool :=
  match c with BrowserClose _ => true | _ => false end.

(** The page that a call is made on, for the methods of a page. *)
Definition pageOf (c : Call) : option Z :=
  match c with
  | PageUrl page | PageGoto page _ _ | PageWaitForTimeout page _
  | LocatorIsVisible page _ | PageClick page _ _ | PageWaitForSelector page _ _ _
  | PageEvalAll page _ | KeyboardPress page _ => Some page
  | _ => None
  end.

(** The three globals of [tasks.js]. *)
Definition browserGlobals (s : State) : option Z * option Z * option Z :=
  (globalBrowser s, globalContext s, globalPage s).

(** As [calmWorld], but the browser gives no context. *)
Definition noContext : Oracle := λ n c,
  match c return Outcome (resp c) with
  | BrowserNewContext _ => Thrown (Error "browser.newContext: Target closed")
  | c => calmWorld n c
  end.

(** The stores once a browser, a context and a page are there. *)
Definition annBrowserOpen : State :=
  setGlobalPage (Some 3) (setGlobalContext (Some 2) (setGlobalBrowser (Some 1) annAccepted)).

(** The callback data of the buttons of an inline keyboard, row by row. *)
Definition callbackData (button : Button) : list string :=
  match button with
  | CallbackButton _ data => [data]
  | UrlButton _ _ => []
  end.

Definition keyboardData (extra : Extra) : list string :=
  match extra with
  | InlineKeyboard rows | MarkdownInlineKeyboard rows =>
      concat (map (λ row, concat (map callbackData row)) rows)
  | _ => []
  end.

(** What the patterns of the entry file capture from the callback data
    made for the name [modelName]. *)
Definition captured (modelName : string) : option string :=
  if Js.truthy modelName && negb (Index.hasLineTerminator modelName)
  then Some modelName else None.

(** As [calmWorld], but Telegram takes no answer to a callback query. *)
Definition queryExpired : Oracle := λ n c,
  match c return Outcome (resp c) with
  | CtxAnswerCbQuery _ _ _ =>
      Thrown (Error "400: Bad Request: query is too old and response timeout expired")
  | c => calmWorld n c
  end.

(** An answer to the callback query. *)
Definition isAnswer (ev : Event) : bool :=
  match ev with
  | Awaited (CtxAnswerCbQuery _ _ _) | Fired (CtxAnswerCbQuery _ _ _) => true
  | _ => false
  end.

(** The welcome of [startHandler] for a user who has not accepted. *)
Definition welcome (ctx : Ctx) : Call :=
  CtxReply ctx
    ("Welcome " +:+ Handlers.displayName ctx +:+ "! 🤖" +:+ Handlers.newline
     +:+ Handlers.newline
     +:+ "Before using this bot, please review and accept our policy.")
    (InlineKeyboard
       [[UrlButton "📋 Policy" Handlers.policyUrl;
         CallbackButton "✅ Accept" "accept_policy"]]).

(** The text and the keyboard of a reply. *)
Definition replyText (c : Call) : string :=
  match c with
  | CtxReply _ text _ => text
  | _ => EmptyString
  end.

Definition replyExtra (c : Call) : Extra :=
  match c with
  | CtxReply _ _ extra => extra
  | _ => NoExtra
  end.

(** A user without first name whose username is set. *)
Definition bob : Ctx :=
  {| fromId := 8; firstName := Some EmptyString; userName := Some "bob";
     chatId := 8; messageId := 50 |}.

(** The stores after [loadUsers], for what the file gave. *)
Definition afterLoad (read : Outcome Parsed) (s : State) : State :=
  match read with
  | Ok (ParsedValue (UsersArray users)) => markAll (marked users) s
  | _ => s
  end.

(** * Proofs *)

(** ** How [run] goes through the control operators *)

Lemma result_eta {A} (r : Result A) :
  r = {| completion := completion r; stores := stores r;
         events := events r; next := next r |}.
Proof. by destruct r. Qed.

Lemma seqResult_emit {A B} e (r : Result A) (k : A → nat → State → Result B) :
  seqResult (emit e r) k = emit e (seqResult r k).
Proof. destruct r as [[a|e'] s t n]; reflexivity. Qed.

Lemma catchResult_emit {A} e (r : Result A) h :
  catchResult (emit e r) h = emit e (catchResult r h).
Proof. destruct r as [[a|e'] s t n]; reflexivity. Qed.

Lemma finallyResult_emit {A} e (r : Result A) f :
  finallyResult (emit e r) f = emit e (finallyResult r f).
Proof. reflexivity. Qed.

Lemma run_bind {A B} (p : Prog A) (f : A → Prog B) env n s :
  run (bind p f) env n s
  = seqResult (run p env n s) (λ a n' s', run (f a) env n' s').
Proof.
  revert n s.
  induction p as [a|e|c k IH|c k IH|m k IH|k IH|g k IH]; intros n s; simpl;
    rewrite ?seqResult_emit, ?IH; try reflexivity.
  unfold seqResult; simpl. apply result_eta.
Qed.

Lemma run_tryCatch {A} (p : Prog A) (h : JsError → Prog A) env n s :
  run (tryCatch p h) env n s
  = catchResult (run p env n s) (λ e n' s', run (h e) env n' s').
Proof.
  revert n s.
  induction p as [a|e|c k IH|c k IH|m k IH|k IH|g k IH]; intros n s; simpl;
    rewrite ?catchResult_emit, ?IH; try reflexivity.
  unfold catchResult; simpl. apply result_eta.
Qed.

Lemma run_finally {A} (p : Prog A) (f : Prog unit) env n s :
  run (finally p f) env n s
  = finallyResult (run p env n s) (λ n' s', run f env n' s').
Proof.
  revert n s.
  induction p as [a|e|c k IH|c k IH|m k IH|k IH|g k IH]; intros n s; simpl;
    rewrite ?finallyResult_emit, ?IH; try reflexivity.
  - rewrite run_bind. unfold seqResult, finallyResult; simpl.
    destruct (run f env n s) as [[[]|e] s' t n']; simpl; by rewrite ?app_nil_r.
  - rewrite run_bind. unfold seqResult, finallyResult; simpl.
    destruct (run f env n s) as [[[]|e'] s' t n']; simpl; by rewrite ?app_nil_r.
Qed.

Lemma keeps_run {X R} (proj : State → X) (p : Prog R) env n s :
  keeps proj p → proj (stores (run p env n s)) = proj s.
Proof.
  revert n s.
  induction p as [a|e|c k IH|c k IH|m k IH|k IH|g k IH]; intros n s Hp; simpl in *;
    try done; try (by apply IH).
  destruct Hp as [Hg Hk]. rewrite IH by done. apply Hg.
Qed.

Lemma keeps_advance {X R} (proj : State → X) (p : Prog R) s :
  keeps proj p → proj (advance p s).1.1 = proj s ∧ keeps proj (advance p s).2.
Proof.
  revert s.
  induction p as [a|e|c k IH|c k IH|m k IH|k IH|g k IH]; intros s Hp; simpl in *;
    try done.
  - specialize (IH s Hp). by destruct (advance k s) as [[??]?].
  - specialize (IH s Hp). by destruct (advance k s) as [[??]?].
  - by apply IH.
  - destruct Hp as [Hg Hk]. destruct (IH (g s) Hk) as [-> ?]. by rewrite Hg.
Qed.

Lemma keeps_bind {X A B} (proj : State → X) (p : Prog A) (f : A → Prog B) :
  keeps proj p → (∀ a, keeps proj (f a)) → keeps proj (bind p f).
Proof.
  intros Hp Hf.
  induction p as [a|e|c k IH|c k IH|m k IH|k IH|g k IH]; simpl in *; try done;
    try (by intros; apply IH); try (by apply IH).
  destruct Hp. split; [done|]. by apply IH.
Qed.

Lemma keeps_tryCatch {X A} (proj : State → X) (p : Prog A) (h : JsError → Prog A) :
  keeps proj p → (∀ e, keeps proj (h e)) → keeps proj (tryCatch p h).
Proof.
  intros Hp Hh.
  induction p as [a|e|c k IH|c k IH|m k IH|k IH|g k IH]; simpl in *; try done;
    try (by intros; apply IH); try (by apply IH).
  destruct Hp. split; [done|]. by apply IH.
Qed.

Lemma keeps_finally {X A} (proj : State → X) (p : Prog A) (f : Prog unit) :
  keeps proj p → keeps proj f → keeps proj (finally p f).
Proof.
  intros Hp Hf.
  induction p as [a|e|c k IH|c k IH|m k IH|k IH|g k IH]; simpl in *;
    try (by apply keeps_bind); try (by intros; apply IH); try (by apply IH).
  destruct Hp. split; [done|]. by apply IH.
Qed.

Lemma keeps_await {X} (proj : State → X) c : keeps proj (await c).
Proof. by intros [v|e]. Qed.

Lemma keeps_markUsers {X} (proj : State → X) users :
  (∀ f s, proj (setUserAcceptanceStore f s) = proj s) →
  keeps proj (Handlers.markUsers users).
Proof.
  intros Hproj. induction users as [|[id|[id|]|] users IH]; simpl; auto.
Qed.

Ltac head_of t :=
  lazymatch t with
  | ?f _ => head_of f
  | _ => t
  end.

(** Splits a [keeps] goal along the structure of the program. *)
Ltac keeps_step :=
  lazymatch goal with
  | |- keeps _ (bind _ _) => apply keeps_bind; [|intros ?]
  | |- keeps _ (tryCatch _ _) => apply keeps_tryCatch; [|intros ?]
  | |- keeps _ (finally _ _) => apply keeps_finally
  | |- keeps _ (await _) => apply keeps_await
  | |- keeps _ (Handlers.markUsers _) =>
      apply keeps_markUsers; intros ? ?; reflexivity
  | |- keeps _ (Await _ _) =>
      let o := fresh "o" in intros o; destruct o; cbv beta iota
  | |- keeps _ (Read _) => let s := fresh "s" in intros s; cbv beta
  | |- keeps _ (Write _ _) => split; [intros ?; reflexivity|]
  | |- keeps _ (Ret _) => exact I
  | |- keeps _ (Throw _) => exact I
  | |- keeps ?proj (Fire _ ?k) => change (keeps proj k)
  | |- keeps ?proj (Log _ ?k) => change (keeps proj k)
  | |- keeps _ (let x := _ in _) => cbv zeta
  | |- keeps _ (match ?x with _ => _ end) => destruct x
  | |- keeps _ ?p => let h := head_of p in unfold h
  end.

Ltac keeps_tac := repeat keeps_step.

Lemma navigate_keeps_handlerStores keepOpen :
  keeps handlerStores (Tasks.navigateToDuckAI keepOpen).
Proof.
  keeps_tac.
Qed.

Lemma ensures_run {R} (Q : Outcome R → Prop) (p : Prog R) env n s :
  ensures Q p → Q (completion (run p env n s)).
Proof.
  revert n s.
  induction p as [a|e|c k IH|c k IH|m k IH|k IH|g k IH]; intros n s Hp; simpl in *;
    try done; by apply IH.
Qed.

Lemma ensures_bind {A B} (Q : Outcome B → Prop) (p : Prog A) (f : A → Prog B) :
  ensures (λ o, match o with
                | Ok a => ensures Q (f a)
                | Thrown e => Q (Thrown e)
                end) p →
  ensures Q (bind p f).
Proof.
  induction p as [a|e|c k IH|c k IH|m k IH|k IH|g k IH]; simpl; try done;
    try (by intros H o; apply IH); by apply IH.
Qed.

Lemma ensures_tryCatch {A} (Q : Outcome A → Prop) (p : Prog A) (h : JsError → Prog A) :
  ensures (λ o, match o with
                | Ok a => Q (Ok a)
                | Thrown e => ensures Q (h e)
                end) p →
  ensures Q (tryCatch p h).
Proof.
  induction p as [a|e|c k IH|c k IH|m k IH|k IH|g k IH]; simpl; try done;
    try (by intros H o; apply IH); by apply IH.
Qed.

Lemma ensures_finally {A} (Q : Outcome A → Prop) (p : Prog A) (f : Prog unit) :
  ensures (λ o, ensures (λ o', match o' with
                               | Ok _ => Q o
                               | Thrown e => Q (Thrown e)
                               end) f) p →
  ensures Q (finally p f).
Proof.
  induction p as [a|e|c k IH|c k IH|m k IH|k IH|g k IH]; simpl;
    try (by intros H o; apply IH); try (by apply IH);
    intros H; apply ensures_bind; revert H; clear;
    induction f as [[]|e'|c k IH|c k IH|m k IH|k IH|g k IH]; simpl; try done;
    try (by intros H o; apply IH); by apply IH.
Qed.

Lemma ensures_weaken {R} (Q Q' : Outcome R → Prop) (p : Prog R) :
  (∀ o, Q o → Q' o) → ensures Q p → ensures Q' p.
Proof.
  intros HQ.
  induction p as [a|e|c k IH|c k IH|m k IH|k IH|g k IH]; simpl; auto.
Qed.

Lemma ensures_markUsers (Q : Outcome unit → Prop) users :
  Q (Ok tt) → (∀ e, Q (Thrown e)) → ensures Q (Handlers.markUsers users).
Proof.
  intros Hok Hthrown. induction users as [|[id|[id|]|] users IH]; simpl; auto.
Qed.

(** Splits an [ensures] goal along the structure of the program. *)
Ltac ensures_step :=
  lazymatch goal with
  | |- ensures _ (bind _ _) => apply ensures_bind
  | |- ensures _ (tryCatch _ _) => apply ensures_tryCatch
  | |- ensures _ (finally _ _) => apply ensures_finally
  | |- ensures _ (Handlers.markUsers _) =>
      apply ensures_markUsers; [|intros ?]; cbv beta iota
  | |- ensures _ (Await _ _) =>
      let o := fresh "o" in intros o; destruct o; cbv beta iota
  | |- ensures _ (Read _) => let s := fresh "s" in intros s; cbv beta
  | |- ensures ?Q (Ret ?r) => change (Q (Ok r)); cbv beta iota
  | |- ensures ?Q (Throw ?e) => change (Q (Thrown e)); cbv beta iota
  | |- ensures ?Q (Write _ ?k) => change (ensures Q k)
  | |- ensures ?Q (Fire _ ?k) => change (ensures Q k)
  | |- ensures ?Q (Log _ ?k) => change (ensures Q k)
  | |- ensures _ (let x := _ in _) => cbv zeta
  | |- ensures _ (if negb true then _ else _) => change (negb true) with false; cbv iota
  | |- ensures _ (if negb false then _ else _) => change (negb false) with true; cbv iota
  | |- ensures _ (match ?x with _ => _ end) => destruct x eqn:?
  | |- ensures _ ?p => let h := head_of p in unfold h
  end.

Ltac ensures_tac := repeat ensures_step.

(** Cases on the answers of the outside world that the goal depends on. *)
Ltac world_cases :=
  repeat match goal with
         | |- context [match ?env ?n ?c with Ok _ => _ | Thrown _ => _ end] =>
             destruct (env n c); simpl
         end.

(** ** The catalog extractor *)

Lemma extractModels_length items :
  length (Tasks.extractModels items) = length items.
Proof. apply length_map. Qed.

Lemma extractModels_lookup items (i : nat) :
  Tasks.extractModels items !! i = Tasks.extractItem <$> items !! i.
Proof. apply list_lookup_fmap. Qed.


Example extractItem_gpt :
  Tasks.extractItem gptItem
  = {| name := "GPT-Model-X"; isBeta := None;
       features := ["Web search"; "Created by X"] |}.
Proof. reflexivity. Qed.

(** ** The catalog cache *)

Lemma run_ensureModelsLoaded_cached ctx userId env n s model rest :
  userModelsStore s !! userId = Some (model :: rest) →
  run (Handlers.ensureModelsLoaded ctx userId) env n s
  = {| completion := Ok Handlers.alreadyLoadedResult;
       stores := s; events := []; next := n |}.
Proof.
  intros Hstored.
  unfold Handlers.ensureModelsLoaded; simpl. by rewrite Hstored.
Qed.

(** C3: once a non-empty catalog is stored for a user, [ensureModelsLoaded]
    returns [{ success: true, alreadyLoaded: true }] at once: no call is
    made to Telegram or to the browser (the event list is empty) and the
    stores are left as they were. *)
Theorem ensureModelsLoaded_cached_is_noop :
  ∀ ctx userId env n s model rest,
    userModelsStore s !! userId = Some (model :: rest) →
    run (Handlers.ensureModelsLoaded ctx userId) env n s
    = {| completion := Ok Handlers.alreadyLoadedResult;
         stores := s; events := []; next := n |}.
Proof.
  intros ctx userId env n s model rest Hstored.
  by apply run_ensureModelsLoaded_cached with model rest.
Qed.

Lemma ensureModelsLoaded_cached_is_noop_witness :
  userModelsStore annWithCatalog !! 7 = Some [modelA; modelB]
  ∧ run (Handlers.ensureModelsLoaded ann 7) challengeWorld 0 annWithCatalog
    = {| completion := Ok Handlers.alreadyLoadedResult;
         stores := annWithCatalog; events := []; next := 0 |}.
Proof.
  split; [reflexivity|].
  by apply (ensureModelsLoaded_cached_is_noop ann 7 challengeWorld 0%nat
              annWithCatalog modelA [modelB]).
Defined.

(** ** Selecting a model *)

Lemma handleModelSelection_records ctx modelName env n s :
  userSelectedModelStore (stores (run (Handlers.handleModelSelection ctx modelName) env n s))
  = <[fromId ctx := modelName]> (userSelectedModelStore s).
Proof.
  unfold Handlers.handleModelSelection.
  change (bind (modify ?f) ?k) with (Write f (k tt)). cbn [run].
  rewrite (keeps_run userSelectedModelStore); [done|]. keeps_tac.
Qed.

Lemma find_name_None modelName (models : list Model) :
  (∀ model, model ∈ models → name model ≠ modelName) →
  find (λ m, String.eqb (name m) modelName) models = None.
Proof.
  induction models as [|m models IH]; intros Hno; [done|]. simpl.
  destruct (String.eqb_spec (name m) modelName) as [Heq|_].
  - destruct (Hno m); [left | done].
  - apply IH. intros model Hin. apply Hno. by right.
Qed.

(** C10: a selection is recorded under the user for whatever name the
    trigger carries; the catalog is not consulted, so this holds as well
    when no entry has that name and when the user has no catalog.  The
    detail view does look the name up: when no entry of the user's catalog
    has it, the only thing done is the "not found" answer to the callback,
    and the stores stay as they were. *)
Theorem selection_is_not_validated :
  ∀ ctx modelName (env : Oracle) n s,
    userSelectedModelStore
      (stores (run (Handlers.handleModelSelection ctx modelName) env n s))
      !! fromId ctx = Some modelName
    ∧ ((∀ model, model ∈ Handlers.modelsOrEmpty (userModelsStore s !! fromId ctx) →
                 name model ≠ modelName) →
       events (run (Handlers.viewModelDetails ctx modelName) env n s)
       = [Awaited (CtxAnswerCbQuery ctx (Some "❌ Model not found") false)]
       ∧ stores (run (Handlers.viewModelDetails ctx modelName) env n s) = s).
Proof.
  intros ctx modelName env n s. split.
  - rewrite handleModelSelection_records. apply lookup_insert_eq.
  - intros Hno. unfold Handlers.viewModelDetails. simpl.
    rewrite (find_name_None _ _ Hno). simpl.
    by destruct (env n _) as [[]|e].
Qed.

(** C5, as amended: a selection is recorded and the confirming alert is
    requested first.  When that call returns, the handler completes
    normally whatever the deletions do.  With no pair stored for the chat
    nothing more happens.  With a pair stored, the bot's message is deleted,
    then the user's, then the pair is removed; a deletion that fails is
    logged and ends the cleanup there, the pair staying in the store. *)
Theorem selection_cleanup :
  ∀ ctx modelName (env : Oracle) n s,
    let r := run (Handlers.handleModelSelection ctx modelName) env n s in
    userSelectedModelStore (stores r)
    = <[fromId ctx := modelName]> (userSelectedModelStore s)
    ∧ (∃ rest, events r = Awaited (confirmation ctx modelName) :: rest)
    ∧ (env n (confirmation ctx modelName) = Ok tt →
       completion r = Ok tt
       ∧ match messageStore s !! chatId ctx with
         | None =>
             events r = [Awaited (confirmation ctx modelName)]
             ∧ messageStore (stores r) = messageStore s
         | Some entry =>
             match env (S n) (deleteBotMessage ctx entry) with
             | Thrown e =>
                 events r = [Awaited (confirmation ctx modelName);
                             Awaited (deleteBotMessage ctx entry);
                             deletionLog e]
                 ∧ messageStore (stores r) = messageStore s
             | Ok _ =>
                 match env (S (S n)) (deleteUserMessage ctx entry) with
                 | Thrown e =>
                     events r = [Awaited (confirmation ctx modelName);
                                 Awaited (deleteBotMessage ctx entry);
                                 Awaited (deleteUserMessage ctx entry);
                                 deletionLog e]
                     ∧ messageStore (stores r) = messageStore s
                 | Ok _ =>
                     events r = [Awaited (confirmation ctx modelName);
                                 Awaited (deleteBotMessage ctx entry);
                                 Awaited (deleteUserMessage ctx entry)]
                     ∧ messageStore (stores r)
                       = delete (chatId ctx) (messageStore s)
                 end
             end
         end).
Proof.
  intros ctx modelName env n s r. split; [apply handleModelSelection_records|].
  subst r. unfold Handlers.handleModelSelection, Handlers.deleteMenuMessages,
    confirmation, deleteBotMessage, deleteUserMessage, deletionLog.
  simpl. split.
  { by destruct (env n _) as [[]|e]; eexists. }
  intros ->. simpl.
  destruct (messageStore s !! chatId ctx) as [entry|] eqn:Hentry; simpl; [|done].
  destruct (env (S n) _) as [[]|e]; simpl; [|done].
  rewrite Hentry. simpl.
  by destruct (env (S (S n)) _) as [[]|e].
Qed.

Lemma selection_cleanup_witness :
  calmWorld 0%nat (confirmation ann "GPT-Model-X") = Ok tt
  ∧ completion (run (Handlers.handleModelSelection ann "GPT-Model-X") calmWorld 0 annMenuOpen)
    = Ok tt
  ∧ userSelectedModelStore
      (stores (run (Handlers.handleModelSelection ann "GPT-Model-X") calmWorld 0 annMenuOpen))
      !! 7 = Some "GPT-Model-X"
  ∧ messageStore
      (stores (run (Handlers.handleModelSelection ann "GPT-Model-X") calmWorld 0 annMenuOpen))
    = delete 7 (messageStore annMenuOpen).
Proof.
  split; [reflexivity|].
  destruct (selection_cleanup ann "GPT-Model-X" calmWorld 0 annMenuOpen)
    as (Hsel & _ & Hrest).
  destruct (Hrest eq_refl) as [Hdone Hstore].
  split; [exact Hdone|]. split.
  - rewrite Hsel. reflexivity.
  - apply Hstore.
Defined.

(** C5, as stated, fails: the bot's message of the stored pair is already
    gone, so its deletion is rejected.  The handler completes normally and
    logs the error, but the user's message is never asked to be deleted and
    the pair of the chat is still in the store. *)
Lemma selection_keeps_pair_when_deletion_fails :
  completion (run (Handlers.handleModelSelection ann "GPT-Model-X") botMessageGone 0 annMenuOpen)
  = Ok tt
  ∧ events (run (Handlers.handleModelSelection ann "GPT-Model-X") botMessageGone 0 annMenuOpen)
    = [Awaited (confirmation ann "GPT-Model-X");
       Awaited (deleteBotMessage ann annMenu);
       deletionLog (Error "400: Bad Request: message to delete not found")]
  ∧ messageStore
      (stores (run (Handlers.handleModelSelection ann "GPT-Model-X") botMessageGone 0 annMenuOpen))
      !! chatId ann = Some annMenu.
Proof. vm_compute. auto. Qed.

Lemma selection_is_not_validated_witness :
  userModelsStore annAccepted !! fromId ann = None
  ∧ userSelectedModelStore
      (stores (run (Handlers.handleModelSelection ann "No-Such-Model") calmWorld 0 annAccepted))
      !! fromId ann = Some "No-Such-Model"
  ∧ events (run (Handlers.viewModelDetails ann "No-Such-Model") calmWorld 0 annAccepted)
    = [Awaited (CtxAnswerCbQuery ann (Some "❌ Model not found") false)]
  ∧ stores (run (Handlers.viewModelDetails ann "No-Such-Model") calmWorld 0 annAccepted)
    = annAccepted.
Proof.
  split; [reflexivity|].
  destruct (selection_is_not_validated ann "No-Such-Model" calmWorld 0 annAccepted)
    as [Hsel Hview].
  split; [exact Hsel|]. apply Hview.
  intros model Hin. by apply elem_of_nil in Hin.
Defined.

(** ** The menu *)

Lemma append_empty_r (s : string) : s +:+ EmptyString = s.
Proof.
  induction s as [|c s IH]; [done|].
  change (String c (s +:+ EmptyString) = String c s). by rewrite IH.
Qed.

Lemma append_assoc (s t u : string) : (s +:+ t) +:+ u = s +:+ t +:+ u.
Proof.
  induction s as [|c s IH]; [done|].
  change (String c ((s +:+ t) +:+ u) = String c (s +:+ t +:+ u)). by rewrite IH.
Qed.

Lemma buttonText_marker model :
  Handlers.buttonText model = name model +:+ Handlers.betaMarker model.
Proof.
  unfold Handlers.buttonText, Handlers.betaMarker.
  destruct (isBeta model) as [[|c beta]|]; simpl; by rewrite ?append_empty_r.
Qed.

Lemma modelButtons_rows models :
  Handlers.modelButtons models = map rowOf models ++ [Handlers.closeButtonRow].
Proof.
  unfold Handlers.modelButtons. f_equal. apply map_ext. intros model.
  unfold Handlers.modelButton, rowOf. by rewrite buttonText_marker.
Qed.

Lemma featureLines_from acc features :
  foldl (λ message feature, message +:+ Handlers.featureLine feature) acc features
  = acc +:+ linesInOrder features.
Proof.
  revert acc. induction features as [|f features IH]; intros acc; simpl.
  - by rewrite append_empty_r.
  - by rewrite IH, append_assoc.
Qed.

Lemma featureLines_in_order features :
  Handlers.featureLines features = linesInOrder features.
Proof. apply featureLines_from. Qed.

Lemma findByName_unique modelName (models : list Model) model :
  NoDup (map name models) → model ∈ models → name model = modelName →
  findByName modelName models = Some model.
Proof.
  unfold findByName.
  induction models as [|m models IH]; intros Hnodup Hin Hname.
  - by apply elem_of_nil in Hin.
  - simpl in *. apply NoDup_cons in Hnodup as [Hfresh Hnodup].
    destruct (String.eqb_spec (name m) modelName) as [Heq|Hne].
    + apply elem_of_cons in Hin as [->|Hin]; [done|].
      destruct Hfresh. rewrite Heq, <- Hname. by apply list_elem_of_fmap_2.
    + apply elem_of_cons in Hin as [->|Hin]; [done|]. by apply IH.
Qed.

Lemma showModelMenu_cached ctx (env : Oracle) n s model rest :
  Handlers.accepted s (fromId ctx) = true →
  userModelsStore s !! fromId ctx = Some (model :: rest) →
  events (run (Handlers.showModelMenu ctx) env n s)
  = [Awaited (listViewSent ctx (model :: rest))].
Proof.
  intros Hacc Hstored. unfold Handlers.showModelMenu, listViewSent.
  cbv zeta. change (bind get ?k) with (Read (λ s, k s)). cbn [run].
  rewrite Hacc. cbn [negb]. rewrite run_bind.
  rewrite (run_ensureModelsLoaded_cached ctx (fromId ctx) env n s model rest Hstored).
  unfold seqResult. simpl. rewrite Hstored. simpl.
  by destruct (env n _) as [botMessage|e].
Qed.

(** C8, as amended: for a user with a non-empty stored catalog, the list
    view that is sent (and the one [backToModels] edits in) has one row per
    entry, in the order of the catalog, then the close row.  A row is
    labelled with the name of its entry, followed by the bracketed badge
    text when that text is not empty; an entry without badge, or with an
    empty badge text, is labelled with its bare name.  Choosing a name shows
    the detail view of the entry that the lookup finds, which is the entry
    of that name when names are unique: its name, its marker under the same
    rule and its features, first feature first. *)
Theorem menu_round_trip :
  ∀ ctx (env : Oracle) n s models,
    userModelsStore s !! fromId ctx = Some models →
    models ≠ [] →
    (Handlers.accepted s (fromId ctx) = true →
     events (run (Handlers.showModelMenu ctx) env n s)
     = [Awaited (listViewSent ctx models)])
    ∧ (∃ rest, events (run (Handlers.backToModels ctx) env n s)
               = Awaited (listViewEdited ctx models) :: rest)
    ∧ Handlers.modelButtons models = map rowOf models ++ [Handlers.closeButtonRow]
    ∧ (∀ model beta, isBeta model = Some beta → beta ≠ EmptyString →
                     Handlers.betaMarker model = " [" +:+ beta +:+ "]")
    ∧ (∀ model, isBeta model = None ∨ isBeta model = Some EmptyString →
                Handlers.betaMarker model = EmptyString)
    ∧ (∀ modelName model,
         findByName modelName models = Some model →
         name model = modelName
         ∧ model ∈ models
         ∧ (∃ rest, events (run (Handlers.viewModelDetails ctx modelName) env n s)
                    = Awaited (detailViewEdited ctx model) :: rest)
         ∧ stores (run (Handlers.viewModelDetails ctx modelName) env n s) = s)
    ∧ (∀ model, NoDup (map name models) → model ∈ models →
                findByName (name model) models = Some model)
    ∧ (∀ model,
         Handlers.detailMessage model
         = "🤖 *" +:+ name model +:+ "*" +:+ Handlers.betaMarker model
           +:+ Handlers.newline +:+ Handlers.newline
           +:+ match features model with
               | [] => EmptyString
               | _ :: _ => "*Features:*" +:+ Handlers.newline
                           +:+ linesInOrder (features model)
               end).
Proof.
  intros ctx env n s models Hstored Hnonempty.
  destruct models as [|first others]; [done|].
  split; [intros Hacc; by apply showModelMenu_cached|].
  split.
  { unfold Handlers.backToModels, listViewEdited. simpl. rewrite Hstored. simpl.
    destruct (env n _) as [[]|e]; simpl; eauto. }
  split; [apply modelButtons_rows|].
  split.
  { intros model beta Hbeta Hne. unfold Handlers.betaMarker. rewrite Hbeta.
    by destruct beta. }
  split.
  { intros model [Hbeta|Hbeta]; unfold Handlers.betaMarker; by rewrite Hbeta. }
  split.
  { intros modelName model Hfind. unfold findByName in Hfind.
    pose proof (find_some _ _ Hfind) as [Hin Hname].
    apply String.eqb_eq in Hname. split; [done|].
    split; [by apply list_elem_of_In|].
    unfold Handlers.viewModelDetails, detailViewEdited. cbv zeta.
    change (run (bind get ?k) ?env ?n ?s) with (run (k s) env n s). cbv beta.
    rewrite Hstored. cbn [Handlers.modelsOrEmpty]. rewrite Hfind. simpl.
    world_cases; eauto. }
  split.
  { intros model Hnodup Hin. by apply findByName_unique. }
  intros model. unfold Handlers.detailMessage.
  destruct (features model) as [|f fs]; [done|].
  by rewrite featureLines_in_order.
Qed.

Lemma menu_round_trip_witness :
  events (run (Handlers.showModelMenu ann) calmWorld 0 annWithCatalog)
  = [Awaited (CtxReply ann "🤖 Available Models:"
                (InlineKeyboard
                   [[CallbackButton "A" "view_model_A"];
                    [CallbackButton "B [Beta]" "view_model_B"];
                    [CallbackButton "❌ Close" "close_menu"]]))]
  ∧ ∃ rest,
      events (run (Handlers.viewModelDetails ann "B") calmWorld 0 annWithCatalog)
      = Awaited (CtxEditMessageText ann
                   ("🤖 *B* [Beta]" +:+ Handlers.newline +:+ Handlers.newline
                    +:+ "*Features:*" +:+ Handlers.newline
                    +:+ "  • x" +:+ Handlers.newline
                    +:+ "  • y" +:+ Handlers.newline)
                   (Handlers.detailKeyboard modelB)) :: rest.
Proof.
  destruct (menu_round_trip ann calmWorld 0%nat annWithCatalog [modelA; modelB])
    as (Hlist & _ & _ & _ & _ & Hdetail & _); [reflexivity|discriminate|].
  split; [by apply Hlist|].
  destruct (Hdetail "B" modelB) as (_ & _ & Hview & _); [reflexivity|].
  exact Hview.
Defined.

(** C8, as stated, fails: the badge element of the item is there, so the
    extracted entry carries a beta label (not [null]), but its text is
    blank: the row and the detail view show the bare name, without a
    bracketed marker. *)
Lemma blank_badge_gets_no_marker :
  isBeta (Tasks.extractItem blankBadgeItem) = Some EmptyString
  ∧ Handlers.buttonText (Tasks.extractItem blankBadgeItem) = "B"
  ∧ Handlers.detailMessage (Tasks.extractItem blankBadgeItem)
    = "🤖 *B*" +:+ Handlers.newline +:+ Handlers.newline
      +:+ "*Features:*" +:+ Handlers.newline +:+ "  • x" +:+ Handlers.newline.
Proof. vm_compute. auto. Qed.

(** ** The navigation pipeline *)

Lemma run_closeUnlessKept_true env n s :
  run (Tasks.closeUnlessKept true) env n s = returned tt n s.
Proof. unfold Tasks.closeUnlessKept. simpl. by destruct (globalBrowser s). Qed.

Lemma run_navigateCatch_true e env n s :
  run (Tasks.navigateCatch true e) env n s = returned (Tasks.failure e) n s.
Proof.
  unfold Tasks.navigateCatch. by rewrite run_bind, run_closeUnlessKept_true.
Qed.

Lemma run_navigateToDuckAI env n s :
  run (Tasks.navigateToDuckAI true) env n s
  = catchResult (run (Tasks.navigateBody true) env n s)
                (λ e n' s', returned (Tasks.failure e) n' s').
Proof.
  unfold Tasks.navigateToDuckAI. rewrite run_tryCatch. unfold catchResult.
  destruct (completion (run (Tasks.navigateBody true) env n s)); [done|].
  by rewrite run_navigateCatch_true.
Qed.

(** Whatever the browser does, [navigateToDuckAI()] returns an object:
    the success object, or the failure object of the error that was
    thrown, whose [models] is empty. *)
Lemma navigateToDuckAI_returns env n s :
  ∃ result, completion (run (Tasks.navigateToDuckAI true) env n s) = Ok result
    ∧ ((∃ models, result = Tasks.extracted models)
       ∨ (∃ e, result = Tasks.failure e)).
Proof.
  apply (ensures_run (λ o, ∃ result, o = Ok result
    ∧ ((∃ models, result = Tasks.extracted models) ∨ (∃ e, result = Tasks.failure e)))).
  unfold Tasks.navigateToDuckAI. ensures_tac; eauto 6.
Qed.

Lemma navigateToDuckAI_failure_shape env n s result :
  completion (run (Tasks.navigateToDuckAI true) env n s) = Ok result →
  Tasks.success result = false →
  ∃ e, result = Tasks.failure e.
Proof.
  intros Hrun Hfail.
  destruct (navigateToDuckAI_returns env n s) as (result' & Hrun' & Hshape).
  rewrite Hrun in Hrun'. injection Hrun' as <-.
  destruct Hshape as [[models ->]|Hshape]; [discriminate|done].
Qed.

(** When the steps of [navigateToDuckAI] from the wait for the dropdown
    button on complete normally, [page.$$eval] has resolved, and what they
    give is the extraction of the items it resolved to. *)
Lemma openDropdownAndExtract_gives_extraction page (env : Oracle) n s models :
  completion (run (Tasks.openDropdownAndExtract page) env n s) = Ok models →
  ∃ items, env (4 + n)%nat (PageEvalAll page Tasks.freeModelItems) = Ok items
           ∧ models = Tasks.extractModels items.
Proof.
  unfold Tasks.openDropdownAndExtract, Tasks.isVisibleOrFalse. simpl.
  destruct (env n _) as [[]|e]; simpl; [|done].
  destruct (env (S n) _) as [[]|e]; simpl; try done.
  - destruct (env (S (S n)) _) as [[]|e]; simpl; [|done].
    destruct (env (S (S (S n))) _) as [[]|e]; simpl; [|done].
    destruct (env (S (S (S (S n)))) _) as [items|e]; simpl; [|done].
    intros [= <-]. by exists items.
  - destruct (env (S (S n)) _) as [[]|e']; simpl; [|done].
    destruct (env (S (S (S n))) _) as [[]|e']; simpl; [|done].
    destruct (env (S (S (S (S n)))) _) as [items|e']; simpl; [|done].
    intros [= <-]. by exists items.
Qed.

Lemma navigateToDuckAI_gives_extraction (env : Oracle) n s result :
  completion (run (Tasks.navigateToDuckAI true) env n s) = Ok result →
  Tasks.success result = true →
  ∃ page k items,
    env k (PageEvalAll page Tasks.freeModelItems) = Ok items
    ∧ result = Tasks.extracted (Tasks.extractModels items).
Proof.
  rewrite run_navigateToDuckAI. unfold catchResult.
  destruct (completion (run (Tasks.navigateBody true) env n s)) as [result'|e] eqn:Hbody;
    [|by intros [= <-]].
  intros Hresult _. assert (result' = result) as -> by congruence.
  clear Hresult. revert Hbody. unfold Tasks.navigateBody.
  rewrite run_bind. unfold seqResult at 1.
  destruct (run Tasks.launchIfNeeded env n s) as [[[]|e] s1 t1 n1];
    cbn [completion stores events next]; [|done].
  change (run (bind get ?k) ?env ?n ?s) with (run (k s) env n s). cbv beta.
  destruct (globalPage s1) as [page|]; [|done].
  rewrite run_bind. unfold seqResult at 1.
  destruct (completion (run (Tasks.reachModels page) env n1 s1)) as [models|e] eqn:Hreach;
    [|done].
  rewrite run_bind. unfold seqResult at 1.
  destruct (completion (run (Tasks.closeDropdown page) env _ _)) as [[]|e]; [|done].
  rewrite run_bind, run_closeUnlessKept_true. unfold seqResult at 1.
  cbn [completion stores events next returned run]. intros [= <-].
  revert Hreach. unfold Tasks.reachModels. rewrite run_bind. unfold seqResult.
  destruct (completion (run (Tasks.openSite page) env n1 s1)) as [[]|e]; [|done].
  cbn [completion]. intros (items & Hitems & ->)%openDropdownAndExtract_gives_extraction.
  eexists page, _, items. split; [exact Hitems|done].
Qed.

(** C6: the extraction never fails on a list item, whatever is missing
    from it.  The list it returns has one entry per matched [li], in
    order; an item without name label gets the empty name, an item without
    badge gets [isBeta = null], an item without feature elements gets the
    empty feature list, and what is present is kept, trimmed.  In the
    pipeline: once the dropdown has been opened and [page.$$eval] resolves
    to the items, the step completes normally with exactly these entries,
    and whenever [navigateToDuckAI()] returns its success object, the
    models in it are the extraction of the items that [page.$$eval]
    resolved to. *)
Theorem extraction_degrades_on_missing_elements :
  ∀ (items : list DomItem),
    length (Tasks.extractModels items) = length items
    ∧ (∀ (i : nat) item, items !! i = Some item →
         ∃ model, Tasks.extractModels items !! i = Some model
           ∧ (nameElement item = None → name model = EmptyString)
           ∧ (∀ text, nameElement item = Some text → name model = Js.trim text)
           ∧ (betaBadge item = None → isBeta model = None)
           ∧ (∀ text, betaBadge item = Some text → isBeta model = Some (Js.trim text))
           ∧ (featureElements item = [] → features model = [])
           ∧ features model = map Js.trim (featureElements item))
    ∧ (∀ page (env : Oracle) n s,
         env n (PageWaitForSelector page Tasks.dropdownButton "visible" 10000) = Ok tt →
         env (1 + n)%nat (LocatorIsVisible page Tasks.anomalyModal) ≠ Ok true →
         env (2 + n)%nat (PageClick page Tasks.dropdownButton (Some 10000)) = Ok tt →
         env (3 + n)%nat (PageWaitForSelector page Tasks.dropdownList "visible" 10000)
         = Ok tt →
         env (4 + n)%nat (PageEvalAll page Tasks.freeModelItems) = Ok items →
         completion (run (Tasks.openDropdownAndExtract page) env n s)
         = Ok (Tasks.extractModels items))
    ∧ (∀ (env : Oracle) n s result,
         completion (run (Tasks.navigateToDuckAI true) env n s) = Ok result →
         Tasks.success result = true →
         ∃ page k items',
           env k (PageEvalAll page Tasks.freeModelItems) = Ok items'
           ∧ result = Tasks.extracted (Tasks.extractModels items')
           ∧ length (Tasks.models result) = length items').
Proof.
  intros items. split; [apply extractModels_length|]. split; [|split].
  - intros i item Hi. exists (Tasks.extractItem item).
    rewrite extractModels_lookup, Hi. split; [done|].
    unfold Tasks.extractItem; simpl.
    repeat split; try (by intros ->); by intros ? ->.
  - intros page env n s Hbutton Hchallenge Hclick Hlist Hitems.
    cbn [Nat.add] in Hchallenge, Hclick, Hlist, Hitems.
    unfold Tasks.openDropdownAndExtract, Tasks.isVisibleOrFalse, await.
    cbn [run bind completion emit]. rewrite Hbutton. cbn [run bind completion emit].
    destruct (env (S n) (LocatorIsVisible page Tasks.anomalyModal)) as [[]|e];
      [done| |]; cbn [run bind completion emit];
      rewrite Hclick; cbn [run bind completion emit];
      rewrite Hlist; cbn [run bind completion emit];
      by rewrite Hitems.
  - intros env n s result Hresult Hsuccess.
    destruct (navigateToDuckAI_gives_extraction env n s result Hresult Hsuccess)
      as (page & k & items' & Hitems & ->).
    exists page, k, items'. split; [done|]. split; [done|].
    apply extractModels_length.
Qed.

Lemma extraction_degrades_on_missing_elements_witness :
  (∃ model, Tasks.extractModels [gptItem; blankItem] !! 1%nat = Some model
     ∧ (nameElement blankItem = None → name model = EmptyString)
     ∧ (∀ text, nameElement blankItem = Some text → name model = Js.trim text)
     ∧ (betaBadge blankItem = None → isBeta model = None)
     ∧ (∀ text, betaBadge blankItem = Some text → isBeta model = Some (Js.trim text))
     ∧ (featureElements blankItem = [] → features model = [])
     ∧ features model = map Js.trim (featureElements blankItem))
  ∧ completion (run (Tasks.openDropdownAndExtract 3) calmWorld 9 initialState)
    = Ok (Tasks.extractModels [gptItem; blankItem]).
Proof.
  destruct (extraction_degrades_on_missing_elements [gptItem; blankItem])
    as (_ & Hentries & Hstep & _).
  split; [by apply Hentries|].
  by apply Hstep.
Defined.

Lemma run_closeDropdown page env n s :
  run (Tasks.closeDropdown page) env n s
  = catchResult (run (Tasks.closeWithButton page) env n s)
      (λ _ n' s', emit (Awaited (Tasks.pressEscape page))
                    {| completion := env n' (Tasks.pressEscape page);
                       stores := s'; events := []; next := S n' |}).
Proof.
  unfold Tasks.closeDropdown. rewrite run_tryCatch. unfold catchResult.
  destruct (completion _); [done|]. simpl. by destruct (env _ _) as [[]|?].
Qed.

(** C7, as amended: once the list has been read, the close button is
    clicked and the modal awaited, each within 5 s; when either step fails,
    Escape is pressed instead and the error of the button is dropped.  The
    operation returns the success object with the entries that were read
    when the dismissal completes, by the button or by Escape.  An error of
    the Escape key press itself is not dropped: it reaches the outer
    [catch], and the operation returns the failure object of that error,
    with no entries. *)
Theorem dismissal_falls_back_to_escape :
  ∀ (env : Oracle) n s page models,
    let launched := run Tasks.launchIfNeeded env n s in
    let reached := run (Tasks.reachModels page) env (next launched) (stores launched) in
    let button := run (Tasks.closeWithButton page) env (next reached) (stores reached) in
    let dismissed := run (Tasks.closeDropdown page) env (next reached) (stores reached) in
    completion launched = Ok tt →
    globalPage (stores launched) = Some page →
    completion reached = Ok models →
    events button
    = Awaited (PageClick page Tasks.closeButton (Some 5000))
      :: match env (next reached) (PageClick page Tasks.closeButton (Some 5000)) with
         | Ok _ => [Awaited (PageWaitForSelector page Tasks.dropdownModal "hidden" 5000)]
         | Thrown _ => []
         end
    ∧ match completion button with
      | Ok _ => dismissed = button
      | Thrown _ =>
          events dismissed = events button ++ [Awaited (Tasks.pressEscape page)]
          ∧ completion dismissed = env (next button) (Tasks.pressEscape page)
      end
    ∧ completion (run (Tasks.navigateToDuckAI true) env n s)
      = Ok (afterDismissal models (completion dismissed)).
Proof.
  intros env n s page models launched reached button dismissed
    Hlaunched Hpage Hreached.
  split.
  { subst button. unfold Tasks.closeWithButton. simpl. by world_cases. }
  split.
  { subst dismissed button. rewrite run_closeDropdown. unfold catchResult.
    destruct (run (Tasks.closeWithButton page) _ _ _) as [[[]|e] s1 t1 n1];
      simpl; [done|].
    split; [done|]. by destruct (env n1 _). }
  rewrite run_navigateToDuckAI. unfold Tasks.navigateBody.
  rewrite run_bind. fold launched. unfold seqResult at 1. rewrite Hlaunched.
  change (run (bind get ?k) ?env ?n ?s) with (run (k s) env n s). cbv beta.
  rewrite Hpage. rewrite run_bind. fold reached. unfold seqResult at 1.
  rewrite Hreached. rewrite run_bind. fold dismissed.
  unfold seqResult at 1, catchResult.
  destruct (completion dismissed) as [[]|e]; [|done]. cbn [completion].
  rewrite run_bind, run_closeUnlessKept_true. done.
Qed.

Lemma dismissal_falls_back_to_escape_witness :
  closeButtonStuck 14%nat (PageClick 3 Tasks.closeButton (Some 5000))
  = Thrown (Error "Timeout 5000ms exceeded.")
  ∧ completion (run (Tasks.navigateToDuckAI true) closeButtonStuck 0 initialState)
    = Ok (Tasks.extracted (Tasks.extractModels [gptItem; blankItem])).
Proof.
  split; [reflexivity|].
  by destruct (dismissal_falls_back_to_escape closeButtonStuck 0%nat initialState 3
                 (Tasks.extractModels [gptItem; blankItem]) eq_refl eq_refl eq_refl)
    as (_ & _ & ->).
Defined.

(** C7, as stated, fails: the list has been read (two items), the close
    button does not answer and the page is gone when Escape is pressed.
    The error of the key press is not swallowed: the operation returns the
    failure object, and the entries that were read are not in it. *)
Lemma escape_failure_discards_catalog :
  pageGoneAtDismissal 13%nat (PageEvalAll 3 Tasks.freeModelItems)
  = Ok [gptItem; blankItem]
  ∧ completion (run (Tasks.navigateToDuckAI true) pageGoneAtDismissal 0 initialState)
    = Ok {| Tasks.success := false;
            Tasks.message := "Error: Target page, context or browser has been closed";
            Tasks.error := Some "Target page, context or browser has been closed";
            Tasks.models := [] |}
  ∧ last (events (run (Tasks.navigateToDuckAI true) pageGoneAtDismissal 0 initialState))
    = Some (Awaited (Tasks.pressEscape 3)).
Proof. vm_compute. auto. Qed.

(** ** One fetch *)

Lemma run_fetchModels ctx userId (env : Oracle) n s :
  run (Handlers.fetchModels ctx userId) env n s
  = let fetching := setFetchingModelsFor (λ fetching, {[userId]} ∪ fetching) s in
    emit (Awaited (CtxReply ctx Handlers.connecting NoExtra))
      match env n (CtxReply ctx Handlers.connecting NoExtra) with
      | Ok statusMsg =>
          seqResult (run (Tasks.navigateToDuckAI true) env (S n) fetching)
            (λ result n' s',
               run (Handlers.reportFetch ctx userId statusMsg result) env n' s')
      | Thrown e =>
          {| completion := Thrown e; stores := fetching; events := []; next := S n |}
      end.
Proof.
  unfold Handlers.fetchModels.
  change (run (bind (modify ?f) ?k) ?env ?n ?s) with (run (k tt) env n (f s)).
  cbv beta zeta.
  change (run (bind (await ?c) ?k) ?env ?n ?s)
    with (emit (Awaited c)
            (run (bind (match env n c with Ok v => Ret v | Thrown e => Throw e end) k)
               env (S n) s)).
  destruct (env n _) as [statusMsg|e]; [|done].
  change (bind (Ret statusMsg) ?k) with (k statusMsg). cbv beta.
  by rewrite run_bind.
Qed.

Lemma run_ensureModelsLoaded_fetch ctx userId env n s :
  Handlers.hasModels (userModelsStore s !! userId) = false →
  userId ∉ fetchingModelsFor s →
  run (Handlers.ensureModelsLoaded ctx userId) env n s
  = finallyResult
      (catchResult (run (Handlers.fetchModels ctx userId) env n s)
         (λ e n' s', run (Handlers.fetchFailed e) env n' s'))
      (λ n' s', returned tt n'
                  (setFetchingModelsFor (λ fetching, fetching ∖ {[userId]}) s')).
Proof.
  intros Hempty Hfree. unfold Handlers.ensureModelsLoaded.
  change (run (bind get ?k) ?env ?n ?s) with (run (k s) env n s). cbv beta.
  rewrite Hempty, bool_decide_eq_false_2 by done.
  by rewrite run_finally, run_tryCatch.
Qed.

Lemma fetchModels_fetching ctx userId env n s :
  fetchingModelsFor (stores (run (Handlers.fetchModels ctx userId) env n s))
  = {[userId]} ∪ fetchingModelsFor s.
Proof.
  unfold Handlers.fetchModels.
  change (run (bind (modify ?f) ?k) ?env ?n ?s) with (run (k tt) env n (f s)).
  rewrite (keeps_run fetchingModelsFor); [done|].
  keeps_tac.
Qed.

Lemma advance_ensureModelsLoaded ctx userId s :
  advance (Handlers.ensureModelsLoaded ctx userId) s
  = if Handlers.hasModels (userModelsStore s !! userId)
    then (s, [], Ret Handlers.alreadyLoadedResult)
    else if bool_decide (userId ∈ fetchingModelsFor s)
    then (s, [], Ret Handlers.busyResult)
    else (startFetching userId s, [],
          (advance (Handlers.ensureModelsLoaded ctx userId) s).2).
Proof.
  unfold Handlers.ensureModelsLoaded.
  change (advance (bind get ?k) ?s) with (advance (k s) s). cbv beta.
  destruct (Handlers.hasModels _); [done|].
  destruct (bool_decide _); done.
Qed.

Lemma startsFetch_iff ctx userId s :
  startsFetch ctx userId s
  ↔ Handlers.hasModels (userModelsStore s !! userId) = false
    ∧ userId ∉ fetchingModelsFor s.
Proof.
  unfold startsFetch, Handlers.ensureModelsLoaded.
  change (advance (bind get ?k) ?s) with (advance (k s) s). cbv beta.
  destruct (Handlers.hasModels _).
  { split; [intros [k Hk]; discriminate | intros [? _]; discriminate]. }
  destruct (bool_decide_reflect (userId ∈ fetchingModelsFor s)) as [Hin|Hout].
  { split; [intros [k Hk]; discriminate | intros [_ ?]; done]. }
  split; [done|]. intros _. eexists. reflexivity.
Qed.

Lemma answersBusy_iff ctx userId s :
  answersAtOnce ctx userId s Handlers.busyResult
  ↔ Handlers.hasModels (userModelsStore s !! userId) = false
    ∧ userId ∈ fetchingModelsFor s.
Proof.
  unfold answersAtOnce. rewrite advance_ensureModelsLoaded.
  destruct (Handlers.hasModels _) eqn:Hempty.
  { split; [discriminate | intros [? _]; discriminate]. }
  destruct (bool_decide_reflect (userId ∈ fetchingModelsFor s)) as [Hin|Hout].
  { split; [by split | reflexivity]. }
  split; [|intros [_ ?]; done].
  destruct (proj2 (startsFetch_iff ctx userId s)) as [k Hk]; [done|].
  rewrite Hk. discriminate.
Qed.

Lemma run_ensureModelsLoaded_busy ctx userId env n s :
  answersAtOnce ctx userId s Handlers.busyResult →
  run (Handlers.ensureModelsLoaded ctx userId) env n s
  = returned Handlers.busyResult n s.
Proof.
  intros [Hempty Hin]%answersBusy_iff. unfold Handlers.ensureModelsLoaded.
  change (run (bind get ?k) ?env ?n ?s) with (run (k s) env n s). cbv beta.
  by rewrite Hempty, bool_decide_eq_true_2.
Qed.

Lemma add_remove_fresh (userId : Z) (fetching : gset Z) :
  userId ∉ fetching → ({[userId]} ∪ fetching) ∖ {[userId]} = fetching.
Proof.
  intros Hfresh. apply set_eq. intros x.
  rewrite elem_of_difference, elem_of_union, elem_of_singleton.
  split.
  - by intros [[->|Hin] Hne].
  - intros Hin. split; [by right|]. by intros ->.
Qed.

Lemma fetchFailed_keeps {X} (proj : State → X) e : keeps proj (Handlers.fetchFailed e).
Proof. keeps_tac. Qed.

Lemma ensureModelsLoaded_returns ctx userId env n s :
  ∃ answer, completion (run (Handlers.ensureModelsLoaded ctx userId) env n s) = Ok answer.
Proof.
  apply (ensures_run (λ o, ∃ answer, o = Ok answer)).
  unfold Handlers.ensureModelsLoaded. ensures_tac; eauto.
Qed.

Lemma ensureModelsLoaded_fetching ctx userId env n s :
  startsFetch ctx userId s →
  fetchingModelsFor (stores (run (Handlers.ensureModelsLoaded ctx userId) env n s))
  = fetchingModelsFor s.
Proof.
  intros [Hempty Hfree]%startsFetch_iff.
  rewrite run_ensureModelsLoaded_fetch by done.
  unfold finallyResult, catchResult. cbn [stores returned setFetchingModelsFor fetchingModelsFor].
  pose proof (fetchModels_fetching ctx userId env n s) as Hfetching.
  destruct (completion (run (Handlers.fetchModels ctx userId) env n s)) as [answer|e].
  - rewrite Hfetching. by apply add_remove_fresh.
  - cbn [stores]. rewrite (keeps_run fetchingModelsFor) by apply fetchFailed_keeps.
    rewrite Hfetching. by apply add_remove_fresh.
Qed.

(** ** Failed fetches *)

Lemma reportFetch_written ctx userId statusMsg result env n s :
  userModelsStore (stores (run (Handlers.reportFetch ctx userId statusMsg result) env n s))
  = written userId (userModelsStore s) result.
Proof.
  unfold Handlers.reportFetch, written. destruct (Tasks.success result).
  - change (run (bind (modify ?f) ?k) ?env ?n ?s) with (run (k tt) env n (f s)).
    rewrite (keeps_run userModelsStore); [done|]. keeps_tac.
  - rewrite (keeps_run userModelsStore); [done|]. keeps_tac.
Qed.

Lemma run_reportFetch_failed ctx userId statusMsg result (env : Oracle) n s :
  Tasks.success result = false →
  completion (run (Handlers.reportFetch ctx userId statusMsg result) env n s)
  = match env n (failureNotice ctx statusMsg result) with
    | Ok _ => Ok (Handlers.failedResult (Tasks.message result))
    | Thrown e => Thrown e
    end.
Proof.
  intros Hfailed. unfold Handlers.reportFetch, failureNotice. rewrite Hfailed. simpl.
  by destruct (env n _) as [[]|e].
Qed.

Lemma navigate_keeps_models env n s :
  userModelsStore (stores (run (Tasks.navigateToDuckAI true) env n s))
  = userModelsStore s.
Proof. apply (keeps_run userModelsStore). keeps_tac. Qed.

(** C4: whatever the browser does, [navigateToDuckAI()] returns an object;
    an error thrown anywhere in its [try], the challenge error and the
    timeouts included, gives the failure object, which carries the message
    of the error and an empty [models].  [ensureModelsLoaded] never throws
    either.  When the pipeline of a fetch returns a failure,
    [ensureModelsLoaded] returns a failed result with a reason (the message
    of the pipeline, or that of the error of the status edit) and no models,
    and nothing is written to the catalog store. *)
Theorem pipeline_failures_become_failed_results :
  ∀ ctx userId (env : Oracle) n s,
    (∃ result, completion (run (Tasks.navigateToDuckAI true) env n s) = Ok result)
    ∧ (∀ e, completion (run (Tasks.navigateBody true) env n s) = Thrown e →
            completion (run (Tasks.navigateToDuckAI true) env n s)
            = Ok {| Tasks.success := false;
                    Tasks.message := "Error: " +:+ errorMessage e;
                    Tasks.error := Some (errorMessage e);
                    Tasks.models := [] |})
    ∧ (∃ answer, completion (run (Handlers.ensureModelsLoaded ctx userId) env n s)
                 = Ok answer)
    ∧ (startsFetch ctx userId s →
       ∀ statusMsg result,
         let pipeline := run (Tasks.navigateToDuckAI true) env (S n)
                           (startFetching userId s) in
         let r := run (Handlers.ensureModelsLoaded ctx userId) env n s in
         env n (CtxReply ctx Handlers.connecting NoExtra) = Ok statusMsg →
         completion pipeline = Ok result →
         Tasks.success result = false →
         Tasks.models result = []
         ∧ completion r
           = Ok {| Handlers.success := false;
                   Handlers.alreadyLoaded := false;
                   Handlers.models := None;
                   Handlers.message :=
                     Some match env (next pipeline) (failureNotice ctx statusMsg result) with
                          | Ok _ => Tasks.message result
                          | Thrown e => errorMessage e
                          end |}
         ∧ userModelsStore (stores r) = userModelsStore s).
Proof.
  intros ctx userId env n s.
  split.
  { destruct (navigateToDuckAI_returns env n s) as (result & Hresult & _). eauto. }
  split.
  { intros e Hbody. rewrite run_navigateToDuckAI. unfold catchResult.
    by rewrite Hbody. }
  split; [apply ensureModelsLoaded_returns|].
  intros [Hempty Hfree]%startsFetch_iff statusMsg result pipeline r
    Hstatus Hpipeline Hfailed.
  split.
  { destruct (navigateToDuckAI_failure_shape _ _ _ _ Hpipeline Hfailed) as [e ->].
    reflexivity. }
  subst r. rewrite run_ensureModelsLoaded_fetch by done.
  rewrite run_fetchModels. cbv zeta. rewrite Hstatus.
  fold (startFetching userId s). fold pipeline.
  unfold seqResult. rewrite Hpipeline.
  pose proof (run_reportFetch_failed ctx userId statusMsg result env (next pipeline)
                (stores pipeline) Hfailed) as Hreport.
  pose proof (reportFetch_written ctx userId statusMsg result env (next pipeline)
                (stores pipeline)) as Hwritten.
  unfold written in Hwritten. rewrite Hfailed in Hwritten.
  subst pipeline. rewrite navigate_keeps_models in Hwritten.
  unfold finallyResult, catchResult, emit.
  cbn [completion stores returned events next userModelsStore setFetchingModelsFor].
  rewrite Hreport.
  destruct (env _ (failureNotice ctx statusMsg result)) as [[]|e].
  - cbn [completion stores events next]. split; [done|]. by rewrite Hwritten.
  - cbn [completion stores events next]. split; [done|].
    rewrite (keeps_run userModelsStore) by apply fetchFailed_keeps.
    by rewrite Hwritten.
Qed.

Lemma pipeline_failures_become_failed_results_witness :
  slowWorld 0%nat (CtxReply ann Handlers.connecting NoExtra) = Ok 42
  ∧ completion (run (Tasks.navigateToDuckAI true) slowWorld 1 (startFetching 7 annAccepted))
    = Ok (Tasks.failure (Error "Timeout 10000ms exceeded."))
  ∧ completion (run (Handlers.ensureModelsLoaded ann 7) slowWorld 0 annAccepted)
    = Ok (Handlers.failedResult "Error: Timeout 10000ms exceeded.")
  ∧ userModelsStore (stores (run (Handlers.ensureModelsLoaded ann 7) slowWorld 0 annAccepted))
    = userModelsStore annAccepted.
Proof.
  split; [reflexivity|]. split; [reflexivity|].
  assert (startsFetch ann 7 annAccepted) as Hfirst.
  { apply startsFetch_iff. split; [reflexivity|]. apply not_elem_of_empty. }
  destruct (pipeline_failures_become_failed_results ann 7 slowWorld 0%nat annAccepted)
    as (_ & _ & _ & Hfetch).
  destruct (Hfetch Hfirst 42 (Tasks.failure (Error "Timeout 10000ms exceeded."))
              eq_refl eq_refl eq_refl) as (_ & Hanswer & Hstore).
  split; [exact Hanswer | exact Hstore].
Defined.

Lemma pipeline_body_written {A B} (pre : Prog A)
    (post : A → Tasks.NavResult → Prog B) userId env n s :
  keeps userModelsStore pre →
  (∀ a result env n s,
     userModelsStore (stores (run (post a result) env n s))
     = written userId (userModelsStore s) result) →
  userModelsStore
    (stores (run (a <- pre ;; result <- Tasks.navigateToDuckAI true ;; post a result)
               env n s))
  = match completion (run pre env n s) with
    | Ok _ =>
        afterPipeline userId (userModelsStore s)
          (completion (run (Tasks.navigateToDuckAI true) env
                         (next (run pre env n s)) (stores (run pre env n s))))
    | Thrown _ => userModelsStore s
    end.
Proof.
  intros Hpre Hpost. rewrite run_bind. unfold seqResult.
  pose proof (keeps_run userModelsStore pre env n s Hpre) as Hkept.
  destruct (completion (run pre env n s)) as [a|e]; [|done].
  cbn [stores]. rewrite run_bind. unfold seqResult, afterPipeline.
  pose proof (navigate_keeps_models env (next (run pre env n s)) (stores (run pre env n s)))
    as Hnav.
  destruct (completion (run (Tasks.navigateToDuckAI true) env _ _)) as [result|e].
  - cbn [stores]. by rewrite Hpost, Hnav, Hkept.
  - cbn [stores]. by rewrite Hnav, Hkept.
Qed.

Lemma catchResult_keeps {X A} (proj : State → X) (r : Result A) h :
  (∀ e n s, proj (stores (h e n s)) = proj s) →
  proj (stores (catchResult r h)) = proj (stores r).
Proof.
  intros Hh. unfold catchResult. destruct (completion r); [done|]. apply Hh.
Qed.

Lemma reportLogIn_written ctx result env n s :
  userModelsStore (stores (run (Handlers.reportLogIn ctx result) env n s))
  = written (fromId ctx) (userModelsStore s) result.
Proof.
  unfold Handlers.reportLogIn, written. cbv zeta. destruct (Tasks.success result).
  - change (run (bind (modify ?f) ?k) ?env ?n ?s) with (run (k tt) env n (f s)).
    rewrite (keeps_run userModelsStore); [done|]. keeps_tac.
  - rewrite (keeps_run userModelsStore); [done|]. keeps_tac.
Qed.

Lemma reportOpen_written ctx result env n s :
  userModelsStore (stores (run (Handlers.reportOpen ctx result) env n s))
  = written (fromId ctx) (userModelsStore s) result.
Proof.
  unfold Handlers.reportOpen, written. cbv zeta. destruct (Tasks.success result).
  - change (run (bind (modify ?f) ?k) ?env ?n ?s) with (run (k tt) env n (f s)).
    rewrite (keeps_run userModelsStore); [done|]. keeps_tac.
  - rewrite (keeps_run userModelsStore); [done|]. keeps_tac.
Qed.

Lemma logIn_keeps_models ctx : keeps userModelsStore (Handlers.logIn ctx).
Proof. keeps_tac. Qed.

Lemma ensureModelsLoaded_written ctx userId (env : Oracle) n s :
  startsFetch ctx userId s →
  userModelsStore (stores (run (Handlers.ensureModelsLoaded ctx userId) env n s))
  = match env n (CtxReply ctx Handlers.connecting NoExtra) with
    | Ok _ =>
        afterPipeline userId (userModelsStore s)
          (completion (run (Tasks.navigateToDuckAI true) env (S n)
                         (startFetching userId s)))
    | Thrown _ => userModelsStore s
    end.
Proof.
  intros [Hempty Hfree]%startsFetch_iff.
  rewrite run_ensureModelsLoaded_fetch by done.
  unfold finallyResult. cbn [stores returned setFetchingModelsFor userModelsStore].
  rewrite (catchResult_keeps userModelsStore).
  2: { intros e n' s'. apply keeps_run, fetchFailed_keeps. }
  rewrite run_fetchModels. cbv zeta. fold (startFetching userId s).
  destruct (env n _) as [statusMsg|e]; [|done].
  cbn [emit stores]. unfold seqResult, afterPipeline.
  pose proof (navigate_keeps_models env (S n) (startFetching userId s)) as Hnav.
  destruct (completion (run (Tasks.navigateToDuckAI true) env _ _)) as [result|e].
  - cbn [stores]. by rewrite reportFetch_written, Hnav.
  - cbn [stores]. by rewrite Hnav.
Qed.

Lemma acceptPolicyHandler_written ctx env n s :
  userModelsStore (stores (run (Handlers.acceptPolicyHandler ctx) env n s))
  = match completion (run (Handlers.logIn ctx) env n s) with
    | Ok _ =>
        afterPipeline (fromId ctx) (userModelsStore s)
          (completion (run (Tasks.navigateToDuckAI true) env
                         (next (run (Handlers.logIn ctx) env n s))
                         (stores (run (Handlers.logIn ctx) env n s))))
    | Thrown _ => userModelsStore s
    end.
Proof.
  unfold Handlers.acceptPolicyHandler. rewrite run_tryCatch.
  rewrite (catchResult_keeps userModelsStore).
  2: { intros e n' s'. apply keeps_run. keeps_tac. }
  apply (pipeline_body_written (Handlers.logIn ctx)
           (λ _ result, Handlers.reportLogIn ctx result)).
  - apply logIn_keeps_models.
  - intros _ result env' n' s'. apply reportLogIn_written.
Qed.

Lemma openHandler_written ctx (env : Oracle) n s :
  userModelsStore (stores (run (Handlers.openHandler ctx) env n s))
  = if Handlers.accepted s (fromId ctx) then
      match env n (CtxReply ctx Handlers.starting NoExtra) with
      | Ok _ =>
          afterPipeline (fromId ctx) (userModelsStore s)
            (completion (run (Tasks.navigateToDuckAI true) env (S n) s))
      | Thrown _ => userModelsStore s
      end
    else userModelsStore s.
Proof.
  unfold Handlers.openHandler. cbv zeta.
  change (run (bind get ?k) ?env ?n ?s) with (run (k s) env n s). cbv beta.
  destruct (Handlers.accepted s (fromId ctx)); [|done]. cbn [negb].
  rewrite run_tryCatch. rewrite (catchResult_keeps userModelsStore).
  2: { intros e n' s'. apply keeps_run. keeps_tac. }
  rewrite (pipeline_body_written (await (CtxReply ctx Handlers.starting NoExtra))
             (λ _ result, Handlers.reportOpen ctx result) (fromId ctx)).
  - simpl. by destruct (env n _).
  - apply keeps_await.
  - intros _ result env' n' s'. apply reportOpen_written.
Qed.

Lemma ensureModelsLoaded_idle ctx userId env n s :
  ¬ startsFetch ctx userId s →
  stores (run (Handlers.ensureModelsLoaded ctx userId) env n s) = s.
Proof.
  intros Hidle. unfold Handlers.ensureModelsLoaded.
  change (run (bind get ?k) ?env ?n ?s) with (run (k s) env n s). cbv beta.
  destruct (Handlers.hasModels _) eqn:Hempty; [done|].
  destruct (bool_decide_reflect (userId ∈ fetchingModelsFor s)) as [Hin|Hfree]; [done|].
  destruct Hidle. by apply startsFetch_iff.
Qed.

Lemma afterPipeline_cases userId store pipeline :
  afterPipeline userId store pipeline = store
  ∨ ∃ result, pipeline = Ok result ∧ Tasks.success result = true
      ∧ afterPipeline userId store pipeline = <[userId := Tasks.models result]> store.
Proof.
  destruct pipeline as [result|e]; [|by left]. simpl. unfold written.
  destruct (Tasks.success result) eqn:Hsuccess; [|by left].
  right. exists result. by rewrite Hsuccess.
Qed.

(** C9: in [ensureModelsLoaded], in [acceptPolicyHandler] and in
    [openHandler] the catalog store is written only with the models of a
    pipeline result that reports success: after a run of any of the three,
    the store is what it was, or it is what it was with the user's entry
    set to the models of a successful result of [navigateToDuckAI] obtained
    in that run.  So when the pipeline of the run returns a failure, the
    catalog store, and with it whatever was cached for the user, is left as
    it was. *)
Theorem failed_fetch_keeps_catalog :
  ∀ ctx (env : Oracle) n s,
    let writtenOnlyOnSuccess (userId : Z) (after : State) :=
      userModelsStore after = userModelsStore s
      ∨ ∃ n' s' result,
          completion (run (Tasks.navigateToDuckAI true) env n' s') = Ok result
          ∧ Tasks.success result = true
          ∧ userModelsStore after
            = <[userId := Tasks.models result]> (userModelsStore s) in
    let loggedIn := run (Handlers.logIn ctx) env n s in
    (∀ userId, writtenOnlyOnSuccess userId
                 (stores (run (Handlers.ensureModelsLoaded ctx userId) env n s)))
    ∧ writtenOnlyOnSuccess (fromId ctx)
        (stores (run (Handlers.acceptPolicyHandler ctx) env n s))
    ∧ writtenOnlyOnSuccess (fromId ctx)
        (stores (run (Handlers.openHandler ctx) env n s))
    ∧ ∀ result,
        Tasks.success result = false →
        (∀ userId statusMsg,
           env n (CtxReply ctx Handlers.connecting NoExtra) = Ok statusMsg →
           completion (run (Tasks.navigateToDuckAI true) env (S n)
                         (startFetching userId s)) = Ok result →
           userModelsStore (stores (run (Handlers.ensureModelsLoaded ctx userId) env n s))
           = userModelsStore s)
        ∧ (completion loggedIn = Ok tt →
           completion (run (Tasks.navigateToDuckAI true) env
                         (next loggedIn) (stores loggedIn)) = Ok result →
           userModelsStore (stores (run (Handlers.acceptPolicyHandler ctx) env n s))
           = userModelsStore s)
        ∧ (∀ sent,
             env n (CtxReply ctx Handlers.starting NoExtra) = Ok sent →
             completion (run (Tasks.navigateToDuckAI true) env (S n) s) = Ok result →
             userModelsStore (stores (run (Handlers.openHandler ctx) env n s))
             = userModelsStore s).
Proof.
  intros ctx env n s writtenOnlyOnSuccess loggedIn. subst writtenOnlyOnSuccess.
  cbv beta. split.
  { intros userId.
    destruct (Handlers.hasModels (userModelsStore s !! userId)) eqn:Hempty.
    { left. rewrite ensureModelsLoaded_idle; [done|].
      intros [? _]%startsFetch_iff. congruence. }
    destruct (decide (userId ∈ fetchingModelsFor s)) as [Hin|Hfree].
    { left. rewrite ensureModelsLoaded_idle; [done|].
      by intros [_ ?]%startsFetch_iff. }
    rewrite ensureModelsLoaded_written by by apply startsFetch_iff.
    destruct (env n _) as [statusMsg|e]; [|by left].
    destruct (afterPipeline_cases userId (userModelsStore s)
                (completion (run (Tasks.navigateToDuckAI true) env (S n)
                               (startFetching userId s))))
      as [->|(result & Hresult & Hsuccess & ->)]; [by left|].
    right. do 3 eexists. eauto. }
  split.
  { rewrite acceptPolicyHandler_written. fold loggedIn.
    destruct (completion loggedIn) as [[]|e]; [|by left].
    destruct (afterPipeline_cases (fromId ctx) (userModelsStore s)
                (completion (run (Tasks.navigateToDuckAI true) env
                               (next loggedIn) (stores loggedIn))))
      as [->|(result & Hresult & Hsuccess & ->)]; [by left|].
    right. do 3 eexists. eauto. }
  split.
  { rewrite openHandler_written.
    destruct (Handlers.accepted s (fromId ctx)); [|by left].
    destruct (env n _) as [sent|e]; [|by left].
    destruct (afterPipeline_cases (fromId ctx) (userModelsStore s)
                (completion (run (Tasks.navigateToDuckAI true) env (S n) s)))
      as [->|(result & Hresult & Hsuccess & ->)]; [by left|].
    right. do 3 eexists. eauto. }
  intros result Hfailed. split.
  { intros userId statusMsg Hstatus Hpipeline.
    destruct (Handlers.hasModels (userModelsStore s !! userId)) eqn:Hempty.
    { rewrite ensureModelsLoaded_idle; [done|].
      intros [? _]%startsFetch_iff. congruence. }
    destruct (decide (userId ∈ fetchingModelsFor s)) as [Hin|Hfree].
    { rewrite ensureModelsLoaded_idle; [done|].
      by intros [_ ?]%startsFetch_iff. }
    rewrite ensureModelsLoaded_written by by apply startsFetch_iff.
    rewrite Hstatus, Hpipeline. simpl. unfold written. by rewrite Hfailed. }
  split.
  { intros Hlogged Hpipeline. rewrite acceptPolicyHandler_written.
    fold loggedIn. rewrite Hlogged, Hpipeline. simpl. unfold written.
    by rewrite Hfailed. }
  intros sent Hsent Hpipeline. rewrite openHandler_written.
  destruct (Handlers.accepted s (fromId ctx)); [|done].
  rewrite Hsent, Hpipeline. simpl. unfold written. by rewrite Hfailed.
Qed.

Lemma failed_fetch_keeps_catalog_witness :
  completion (run (Tasks.navigateToDuckAI true) slowWorld 1 annWithCatalog)
  = Ok (Tasks.failure (Error "Timeout 10000ms exceeded."))
  ∧ userModelsStore (stores (run (Handlers.openHandler ann) slowWorld 0 annWithCatalog))
      !! 7 = Some [modelA; modelB].
Proof.
  split; [reflexivity|].
  destruct (failed_fetch_keeps_catalog ann slowWorld 0%nat annWithCatalog)
    as (_ & _ & _ & Hfailed).
  destruct (Hfailed (Tasks.failure (Error "Timeout 10000ms exceeded.")) eq_refl)
    as (_ & _ & Hopen).
  by rewrite (Hopen 42 eq_refl eq_refl).
Defined.

(** ** Interleaved fetches *)

Lemma releases_finally {R} userId (p : Prog R) :
  keeps fetchingModelsFor p →
  releases userId
    (finally p (modify (setFetchingModelsFor (λ fetching, fetching ∖ {[userId]})))).
Proof.
  induction p as [a|e|c k IH|c k IH|m k IH|k IH|g k IH]; simpl; intros Hp.
  - right. by split.
  - right. by split.
  - intros o. by apply IH.
  - by apply IH.
  - by apply IH.
  - intros s. by apply IH.
  - destruct Hp as [Hg Hk]. left. split; [done|]. by apply IH.
Qed.

Lemma advance_releases {R} userId (p : Prog R) s :
  releases userId p →
  (fetchingModelsFor (advance p s).1.1 = fetchingModelsFor s
   ∧ pending (advance p s).2 = true
   ∧ releases userId (advance p s).2)
  ∨ (fetchingModelsFor (advance p s).1.1 = fetchingModelsFor s ∖ {[userId]}
     ∧ pending (advance p s).2 = false).
Proof.
  revert s.
  induction p as [a|e|c k IH|c k IH|m k IH|k IH|g k IH]; intros s Hp; simpl in Hp;
    try done.
  - by left.
  - specialize (IH s Hp). simpl. by destruct (advance k s) as [[??]?].
  - specialize (IH s Hp). simpl. by destruct (advance k s) as [[??]?].
  - by apply IH.
  - destruct Hp as [[Hg Hk]|[Hg Hk]].
    + simpl. destruct (IH (g s) Hk) as [(E & ? & ?)|(E & ?)]; rewrite Hg in E; eauto.
    + right. simpl. destruct k; try done; simpl; by rewrite Hg.
Qed.

Lemma fetch_rest_releases ctx userId s :
  Handlers.hasModels (userModelsStore s !! userId) = false →
  userId ∉ fetchingModelsFor s →
  ∃ rest : Prog Handlers.LoadResult,
    releases userId rest
    ∧ advance (Handlers.ensureModelsLoaded ctx userId) s
      = advance rest (startFetching userId s).
Proof.
  intros Hempty Hfree.
  exists (finally
            (tryCatch
               (statusMsg <- await (CtxReply ctx Handlers.connecting NoExtra) ;;
                result <- Tasks.navigateToDuckAI true ;;
                Handlers.reportFetch ctx userId statusMsg result)
               Handlers.fetchFailed)
            (modify (setFetchingModelsFor (λ fetching, fetching ∖ {[userId]})))).
  split.
  - apply releases_finally. keeps_tac.
  - unfold Handlers.ensureModelsLoaded.
    change (advance (bind get ?k) ?s) with (advance (k s) s). cbv beta.
    by rewrite Hempty, bool_decide_eq_false_2.
Qed.

Lemma inFlight_app pool userId' rest i userId :
  inFlight (pool ++ [(userId', rest)]) i userId
  ↔ inFlight pool i userId
    ∨ (i = length pool ∧ userId = userId' ∧ pending rest = true).
Proof.
  unfold inFlight. split.
  - intros (rest' & Hlookup & Hpending).
    apply lookup_app_Some in Hlookup as [Hlookup|[Hlen Hlookup]]; [eauto|].
    right. apply list_lookup_singleton_Some in Hlookup as [Hi Heq].
    injection Heq as <- <-. split; [lia|done].
  - intros [(rest' & Hlookup & Hpending)|(-> & -> & Hpending)].
    + exists rest'. split; [|done]. by apply lookup_app_l_Some.
    + exists rest. split; [|done]. by apply list_lookup_middle.
Qed.

Lemma inFlight_insert (pool : Pool) (j : nat) userId' rest' i userId :
  (j < length pool)%nat →
  inFlight (<[j := (userId', rest')]> pool) i userId
  ↔ (i ≠ j ∧ inFlight pool i userId)
    ∨ (i = j ∧ userId = userId' ∧ pending rest' = true).
Proof.
  intros Hj. unfold inFlight. split.
  - intros (rest & Hlookup & Hpending).
    destruct (decide (i = j)) as [->|Hne].
    + rewrite list_lookup_insert_eq in Hlookup by done.
      injection Hlookup as <- <-. by right.
    + rewrite list_lookup_insert_ne in Hlookup by done. left. eauto.
  - intros [(Hne & rest & Hlookup & Hpending)|(-> & -> & Hpending)].
    + exists rest. by rewrite list_lookup_insert_ne.
    + exists rest'. by rewrite list_lookup_insert_eq.
Qed.

(** The handlers other than [ensureModelsLoaded] (and [showModelMenu],
    which calls it) never write [fetchingModelsFor]: between two steps of
    the calls of a pool they are [step_other] steps. *)
Lemma other_handlers_keep_fetching ctx modelName :
  keeps fetchingModelsFor Handlers.initializeBotData
  ∧ keeps fetchingModelsFor (Handlers.startHandler ctx)
  ∧ keeps fetchingModelsFor (Handlers.acceptPolicyHandler ctx)
  ∧ keeps fetchingModelsFor (Handlers.viewModelDetails ctx modelName)
  ∧ keeps fetchingModelsFor (Handlers.backToModels ctx)
  ∧ keeps fetchingModelsFor (Handlers.handleModelSelection ctx modelName)
  ∧ keeps fetchingModelsFor (Handlers.closeMenu ctx)
  ∧ keeps fetchingModelsFor (Handlers.settingsHandler ctx)
  ∧ keeps fetchingModelsFor (Handlers.openHandler ctx).
Proof. repeat split; keeps_tac. Qed.

Lemma guardMatchesPool_call ctx userId s pool :
  guardMatchesPool s pool →
  guardMatchesPool (enter ctx userId s pool).1 (enter ctx userId s pool).2.
Proof.
  intros (Hguard & Hunique & Hreleases). unfold enter.
  rewrite advance_ensureModelsLoaded.
  destruct (Handlers.hasModels (userModelsStore s !! userId)) eqn:Hempty;
    [|destruct (bool_decide_reflect (userId ∈ fetchingModelsFor s)) as [Hin|Hfree]].
  1, 2: simpl; split; [|split].
  1, 4: intros u; rewrite Hguard; split; intros [i Hi]; exists i;
        [apply inFlight_app; by left
        |by apply inFlight_app in Hi as [Hi|(_ & _ & ?)]].
  1, 3: intros u i j Hi Hj; apply inFlight_app in Hi as [Hi|(_ & _ & ?)]; [|done];
        apply inFlight_app in Hj as [Hj|(_ & _ & ?)]; [|done]; by eapply Hunique.
  1, 2: intros u i rest Hlookup Hpending;
        apply lookup_app_Some in Hlookup as [Hlookup|[_ Hlookup]];
        [by eapply Hreleases|];
        apply list_lookup_singleton_Some in Hlookup as [_ Heq];
        injection Heq as <- <-; done.
  destruct (fetch_rest_releases ctx userId s Hempty Hfree) as (rest & Hrest & Hadvance).
  destruct (proj2 (startsFetch_iff ctx userId s)) as [k Hk]; [done|].
  assert (releases userId (Await (CtxReply ctx Handlers.connecting NoExtra) k))
    as Hreleased.
  { destruct (advance_releases userId rest (startFetching userId s) Hrest)
      as [(_ & _ & Hreleased)|(_ & Hdone)];
      rewrite <- Hadvance, Hk in *; done. }
  rewrite Hk. cbn [fst snd]. split; [|split].
  - intros u. cbn [startFetching setFetchingModelsFor fetchingModelsFor].
    rewrite elem_of_union, elem_of_singleton, Hguard. split.
    + intros [->|[i Hi]].
      * exists (length pool). apply inFlight_app. by right.
      * exists i. apply inFlight_app. by left.
    + intros [i Hi]. apply inFlight_app in Hi as [Hi|(_ & -> & _)]; eauto.
  - intros u i j Hi Hj.
    apply inFlight_app in Hi as [Hi|(Ei & Eu & _)];
      apply inFlight_app in Hj as [Hj|(Ej & Eu' & _)].
    + by eapply Hunique.
    + subst u. destruct Hfree. apply Hguard. eauto.
    + subst u. destruct Hfree. apply Hguard. eauto.
    + congruence.
  - intros u i rest'' Hlookup Hpending'.
    apply lookup_app_Some in Hlookup as [Hlookup|[_ Hlookup]];
      [by eapply Hreleases|].
    apply list_lookup_singleton_Some in Hlookup as [_ Heq].
    by injection Heq as <- <-.
Qed.

Lemma inFlight_user (pool : Pool) i userId rest u :
  pool !! i = Some (userId, rest) → inFlight pool i u → u = userId.
Proof. intros Hlookup (rest' & Hlookup' & _). congruence. Qed.

Lemma inFlight_insert_pending (pool : Pool) i userId old rest j u :
  pool !! i = Some (userId, old) → pending old = true → pending rest = true →
  inFlight (<[i := (userId, rest)]> pool) j u ↔ inFlight pool j u.
Proof.
  intros Hlookup Hold Hrest.
  pose proof (lookup_lt_Some _ _ _ Hlookup) as Hi.
  rewrite inFlight_insert by done. split.
  - intros [[_ Hj]|(Ej & Eu & _)]; [done|]. subst j u. by exists old.
  - intros Hj. destruct (decide (j = i)) as [Ej|Hne]; [right|by left].
    subst j. split; [done|]. split; [by eapply inFlight_user|done].
Qed.

Lemma inFlight_insert_done (pool : Pool) i userId rest j u :
  (i < length pool)%nat → pending rest = false →
  inFlight (<[i := (userId, rest)]> pool) j u ↔ j ≠ i ∧ inFlight pool j u.
Proof.
  intros Hi Hrest. rewrite inFlight_insert by done. split.
  - intros [Hj|(_ & _ & Hpending)]; [done|congruence].
  - intros Hj. by left.
Qed.

Lemma guardMatchesPool_resume i userId c k o s pool :
  pool !! i = Some (userId, Await c k) →
  guardMatchesPool s pool →
  guardMatchesPool (resume i userId (k o) s pool).1 (resume i userId (k o) s pool).2.
Proof.
  intros Hlookup (Hguard & Hunique & Hreleases). unfold resume.
  pose proof (lookup_lt_Some _ _ _ Hlookup) as Hi.
  assert (inFlight pool i userId) as Hflight by (eexists; eauto).
  pose proof (Hreleases userId i _ Hlookup eq_refl o) as Hrest.
  destruct (advance_releases userId (k o) s Hrest)
    as [(Hsame & Hpending & Hreleased)|(Hremoved & Hdone)];
    destruct (advance (k o) s) as [[s' t] rest']; cbn [fst snd] in *.
  - split; [|split].
    + intros u. rewrite Hsame, Hguard.
      split; intros [j Hj]; exists j;
        by eapply (inFlight_insert_pending pool i userId (Await c k) rest').
    + intros u j j' Hj Hj'.
      apply (inFlight_insert_pending pool i userId (Await c k) rest') in Hj; [|done..].
      apply (inFlight_insert_pending pool i userId (Await c k) rest') in Hj'; [|done..].
      by eapply Hunique.
    + intros u j rest Hj Hpending'.
      destruct (decide (j = i)) as [Ej|Hne].
      * subst j. rewrite list_lookup_insert_eq in Hj by done. congruence.
      * rewrite list_lookup_insert_ne in Hj by done. by eapply Hreleases.
  - split; [|split].
    + intros u. rewrite Hremoved, elem_of_difference, elem_of_singleton, Hguard.
      split.
      * intros [[j Hj] Hne]. exists j. apply inFlight_insert_done; [done..|].
        split; [|done]. intros Ej. subst j. destruct Hne.
        by eapply inFlight_user.
      * intros [j Hj]. apply inFlight_insert_done in Hj as [Hne Hj]; [|done..].
        split; [eauto|]. intros Eu. subst u. destruct Hne. by eapply Hunique.
    + intros u j j' Hj Hj'.
      apply inFlight_insert_done in Hj as [_ Hj]; [|done..].
      apply inFlight_insert_done in Hj' as [_ Hj']; [|done..].
      by eapply Hunique.
    + intros u j rest Hj Hpending'.
      destruct (decide (j = i)) as [Ej|Hne].
      * subst j. rewrite list_lookup_insert_eq in Hj by done. congruence.
      * rewrite list_lookup_insert_ne in Hj by done. by eapply Hreleases.
Qed.

Lemma guardMatchesPool_step s pool s' pool' :
  step (s, pool) (s', pool') →
  guardMatchesPool s pool → guardMatchesPool s' pool'.
Proof.
  intros Hstep Hinv.
  remember (s, pool) as before eqn:Hbefore.
  remember (s', pool') as after eqn:Hafter.
  destruct Hstep as [ctx userId s0 pool0|i userId c k o s0 pool0 Hlookup|f s0 pool0 Hf];
    injection Hbefore as -> ->.
  - pose proof (guardMatchesPool_call ctx userId s pool Hinv) as Hnext.
    by rewrite Hafter in Hnext.
  - pose proof (guardMatchesPool_resume i userId c k o s pool Hlookup Hinv) as Hnext.
    by rewrite Hafter in Hnext.
  - injection Hafter as <- <-. destruct Hinv as (Hguard & Hunique & Hreleases).
    split; [|done]. intros u. by rewrite Hf.
Qed.

Lemma guardMatchesPool_steps before after :
  rtc step before after →
  guardMatchesPool before.1 before.2 → guardMatchesPool after.1 after.2.
Proof.
  induction 1 as [|[s pool] [s' pool'] after Hstep Hsteps IH]; intros Hinv; [done|].
  apply IH. by eapply guardMatchesPool_step.
Qed.

Lemma guardMatchesPool_reachable s0 s pool :
  fetchingModelsFor s0 = ∅ →
  rtc step (s0, []) (s, pool) →
  guardMatchesPool s pool.
Proof.
  intros Hempty Hsteps.
  apply (guardMatchesPool_steps _ _ Hsteps). simpl. split; [|split].
  - intros u. rewrite Hempty. split; [by intros ?%not_elem_of_empty|].
    by intros [i (rest & ? & _)].
  - by intros u i j (rest & ? & _).
  - by intros u i rest ?.
Qed.

(** ** The guard, call by call and under interleaving *)

(** C1, as amended: [ensureModelsLoaded(ctx, U)] answers "already fetching"
    at once, before any [await] and without touching the stores, exactly
    when no non-empty catalog is stored for [U] and [U] itself is in
    [fetchingModelsFor]; such a call makes no call to Telegram or to the
    browser.  Another user in the set changes nothing to that.  Right
    after a call for [U] has started its fetch, with nothing run in
    between, a second call for [U] gets that answer.  And however calls
    and other handlers interleave, at most one call for [U] is waiting at
    an [await] at any time, and while one is, a further call for [U]
    returns at once without making any call and without touching the
    stores: with "already fetching" when no non-empty catalog is stored for
    [U] at that moment, with "already loaded" when one has been stored
    meanwhile. *)
Theorem busy_guard_is_per_user :
  ∀ ctx userId s,
    (answersAtOnce ctx userId s Handlers.busyResult
     ↔ Handlers.hasModels (userModelsStore s !! userId) = false
       ∧ userId ∈ fetchingModelsFor s)
    ∧ (answersAtOnce ctx userId s Handlers.busyResult →
       ∀ env n, run (Handlers.ensureModelsLoaded ctx userId) env n s
                = returned Handlers.busyResult n s)
    ∧ (∀ other, other ≠ userId →
         (answersAtOnce ctx userId (startFetching other s) Handlers.busyResult
          ↔ answersAtOnce ctx userId s Handlers.busyResult))
    ∧ (startsFetch ctx userId s →
       ∀ ctx', answersAtOnce ctx' userId (startFetching userId s) Handlers.busyResult)
    ∧ (∀ s0 pool,
         fetchingModelsFor s0 = ∅ →
         rtc step (s0, []) (s, pool) →
         (∀ i j, inFlight pool i userId → inFlight pool j userId → i = j)
         ∧ ((∃ i, inFlight pool i userId) →
            let answer := if Handlers.hasModels (userModelsStore s !! userId)
                          then Handlers.alreadyLoadedResult
                          else Handlers.busyResult in
            answersAtOnce ctx userId s answer
            ∧ ∀ (env : Oracle) n,
                run (Handlers.ensureModelsLoaded ctx userId) env n s
                = returned answer n s)).
Proof.
  intros ctx userId s. split; [apply answersBusy_iff|].
  split; [intros Hbusy env n; by apply run_ensureModelsLoaded_busy|].
  split.
  { intros other Hother. rewrite !answersBusy_iff. simpl.
    split; intros [Hempty Hin]; split; try done.
    + apply elem_of_union in Hin as [Hin|Hin]; [|done].
      by apply elem_of_singleton in Hin.
    + apply elem_of_union. by right. }
  split.
  - intros [Hempty Hfree]%startsFetch_iff ctx'. apply answersBusy_iff. simpl.
    split; [done|]. apply elem_of_union. left. by apply elem_of_singleton.
  - intros s0 pool Hstart Hreach.
    destruct (guardMatchesPool_reachable s0 s pool Hstart Hreach)
      as (Hguard & Hunique & _).
    split; [apply Hunique|]. intros Hflight%Hguard. cbv zeta.
    destruct (Handlers.hasModels (userModelsStore s !! userId)) eqn:Hempty.
    + split.
      * unfold answersAtOnce. rewrite advance_ensureModelsLoaded.
        by rewrite Hempty.
      * intros env n. unfold Handlers.hasModels in Hempty.
        destruct (userModelsStore s !! userId) as [[|model rest]|] eqn:Hstored;
          try done.
        by apply (run_ensureModelsLoaded_cached ctx userId env n s model rest).
    + assert (answersAtOnce ctx userId s Handlers.busyResult) as Hbusy
        by by apply answersBusy_iff.
      split; [done|]. intros env n. by apply run_ensureModelsLoaded_busy.
Qed.

Lemma busy_guard_is_per_user_witness :
  startsFetch ann 7 annAccepted
  ∧ answersAtOnce ann 7 annMenuPending Handlers.busyResult
  ∧ run (Handlers.ensureModelsLoaded ann 7) calmWorld 0 annMenuPending
    = returned Handlers.busyResult 0 annMenuPending.
Proof.
  assert (startsFetch ann 7 annAccepted) as Hfirst.
  { apply startsFetch_iff. split; [reflexivity|]. apply not_elem_of_empty. }
  split; [exact Hfirst|].
  destruct (busy_guard_is_per_user ann 7 annMenuPending)
    as (_ & _ & _ & _ & Hpool).
  split.
  { exact (proj1 (proj2 (proj2 (proj2 (busy_guard_is_per_user ann 7 annAccepted))))
             Hfirst ann). }
  destruct (Hpool annAccepted
              [(7, (advance (Handlers.ensureModelsLoaded ann 7) annAccepted).2)]
              eq_refl (rtc_once _ _ (step_call ann 7 annAccepted [])))
    as [_ Hfurther].
  destruct Hfurther as [_ Hrun].
  { exists 0%nat. eexists. split; reflexivity. }
  exact (Hrun calmWorld 0%nat).
Defined.

(** C1, as stated, fails: Ann's call for the menu is waiting (she is in
    [fetchingModelsFor]) when her [/open] stores a catalog for her.  A
    further call of [ensureModelsLoaded] for her then answers "already
    loaded", not "already fetching", although she is in the set. *)
Lemma cached_user_in_flight_is_not_busy :
  bool_decide (7 ∈ fetchingModelsFor annOpenedMeanwhile) = true
  ∧ answersAtOnce ann 7 annOpenedMeanwhile Handlers.alreadyLoadedResult
  ∧ run (Handlers.ensureModelsLoaded ann 7) calmWorld 0 annOpenedMeanwhile
    = returned Handlers.alreadyLoadedResult 0 annOpenedMeanwhile.
Proof. vm_compute. auto. Qed.

(** C2: a call of [ensureModelsLoaded] that starts a fetch has the user in
    [fetchingModelsFor] from its first [await] on.  Whatever Telegram and
    the browser answer, the call returns an object (it never throws), and
    when it returns the set is what it was before the call: the user is not
    in it.  So the next call for the user is not told "already fetching":
    it answers "already loaded" or starts a fetch of its own.  And however
    calls and other handlers interleave, a user is in the set exactly while
    a call of [ensureModelsLoaded] for that user is waiting at an [await],
    which such a call does only between the start and the end of its
    fetch. *)
Theorem fetch_guard_is_released :
  ∀ ctx userId (env : Oracle) n s,
    startsFetch ctx userId s →
    let r := run (Handlers.ensureModelsLoaded ctx userId) env n s in
    userId ∈ fetchingModelsFor ((advance (Handlers.ensureModelsLoaded ctx userId) s).1.1)
    ∧ (∃ answer, completion r = Ok answer)
    ∧ fetchingModelsFor (stores r) = fetchingModelsFor s
    ∧ (userId ∉ fetchingModelsFor (stores r))
    ∧ (∀ ctx', answersAtOnce ctx' userId (stores r) Handlers.alreadyLoadedResult
               ∨ startsFetch ctx' userId (stores r))
    ∧ (∀ s0 s' pool,
         fetchingModelsFor s0 = ∅ →
         rtc step (s0, []) (s', pool) →
         (userId ∈ fetchingModelsFor s' ↔ ∃ i, inFlight pool i userId)).
Proof.
  intros ctx userId env n s Hstarts r.
  pose proof (ensureModelsLoaded_fetching ctx userId env n s Hstarts) as Hfetching.
  fold r in Hfetching.
  pose proof Hstarts as [Hempty Hfree]%startsFetch_iff.
  assert (userId ∉ fetchingModelsFor (stores r)) as Hreleased by by rewrite Hfetching.
  split.
  { destruct Hstarts as [k ->]. simpl. apply elem_of_union. left.
    by apply elem_of_singleton. }
  split; [apply ensureModelsLoaded_returns|].
  split; [done|]. split; [done|].
  split.
  - intros ctx'.
    destruct (Handlers.hasModels (userModelsStore (stores r) !! userId)) eqn:Hstored.
    + left. unfold answersAtOnce. rewrite advance_ensureModelsLoaded.
      by rewrite Hstored.
    + right. by apply startsFetch_iff.
  - intros s0 s' pool Hstart Hreach.
    by destruct (guardMatchesPool_reachable s0 s' pool Hstart Hreach) as (Hguard & _).
Qed.

Lemma fetch_guard_is_released_witness :
  startsFetch ann 7 annAccepted
  ∧ completion (run (Handlers.ensureModelsLoaded ann 7) challengeWorld 0 annAccepted)
    = Ok (Handlers.failedResult
            "Error: CAPTCHA/Challenge detected. Cannot proceed in headless mode")
  ∧ (7 ∉ fetchingModelsFor
           (stores (run (Handlers.ensureModelsLoaded ann 7) challengeWorld 0 annAccepted)))
  ∧ startsFetch ann 7
      (stores (run (Handlers.ensureModelsLoaded ann 7) challengeWorld 0 annAccepted)).
Proof.
  assert (startsFetch ann 7 annAccepted) as Hfirst.
  { apply startsFetch_iff. split; [reflexivity|]. apply not_elem_of_empty. }
  split; [exact Hfirst|]. split; [reflexivity|].
  destruct (fetch_guard_is_released ann 7 challengeWorld 0%nat annAccepted Hfirst)
    as (_ & _ & _ & Hreleased & _ & _).
  split; [exact Hreleased|].
  apply startsFetch_iff. split; [reflexivity|exact Hreleased].
Defined.

(** * Further properties of the handlers and of the pipeline *)

(** ** Invariants, calls and postconditions *)

Lemma stable_run {R} (I : State → Prop) (p : Prog R) env n s :
  stable I p → I s → I (stores (run p env n s)).
Proof.
  revert n s.
  induction p as [a|e|c k IH|c k IH|m k IH|k IH|g k IH]; intros n s Hp Hs; simpl in *;
    try done; try (by apply IH).
  destruct Hp as [Hg Hk]. apply IH; [done|]. by apply Hg.
Qed.

Lemma stable_bind {A B} (I : State → Prop) (p : Prog A) (f : A → Prog B) :
  stable I p → (∀ a, stable I (f a)) → stable I (bind p f).
Proof.
  intros Hp Hf.
  induction p as [a|e|c k IH|c k IH|m k IH|k IH|g k IH]; simpl in *; try done;
    try (by intros; apply IH); try (by apply IH).
  destruct Hp. split; [done|]. by apply IH.
Qed.

Lemma stable_tryCatch {A} (I : State → Prop) (p : Prog A) (h : JsError → Prog A) :
  stable I p → (∀ e, stable I (h e)) → stable I (tryCatch p h).
Proof.
  intros Hp Hh.
  induction p as [a|e|c k IH|c k IH|m k IH|k IH|g k IH]; simpl in *; try done;
    try (by intros; apply IH); try (by apply IH).
  destruct Hp. split; [done|]. by apply IH.
Qed.

Lemma stable_finally {A} (I : State → Prop) (p : Prog A) (f : Prog unit) :
  stable I p → stable I f → stable I (finally p f).
Proof.
  intros Hp Hf.
  induction p as [a|e|c k IH|c k IH|m k IH|k IH|g k IH]; simpl in *;
    try (by apply stable_bind); try (by intros; apply IH); try (by apply IH).
  destruct Hp. split; [done|]. by apply IH.
Qed.

Lemma stable_markUsers (I : State → Prop) users :
  (∀ id s, I s → I (setUserAcceptanceStore <[id := true]> s)) →
  stable I (Handlers.markUsers users).
Proof.
  intros Hmark. induction users as [|[id|[id|]|] users IH]; simpl; auto.
Qed.

(** Splits a [stable] goal along the structure of the program; the writes
    are left as goals. *)
Ltac stable_step :=
  lazymatch goal with
  | |- stable _ (bind _ _) => apply stable_bind; [|intros ?]
  | |- stable _ (tryCatch _ _) => apply stable_tryCatch; [|intros ?]
  | |- stable _ (finally _ _) => apply stable_finally
  | |- stable _ (Handlers.markUsers _) => apply stable_markUsers; intros ?
  | |- stable _ (Await _ _) =>
      let o := fresh "o" in intros o; destruct o; cbv beta iota
  | |- stable _ (Read _) => let s := fresh "s" in intros s; cbv beta
  | |- stable _ (Write _ _) => split; [|]
  | |- stable _ (Ret _) => exact I
  | |- stable _ (Throw _) => exact I
  | |- stable ?inv (Fire _ ?k) => change (stable inv k)
  | |- stable ?inv (Log _ ?k) => change (stable inv k)
  | |- stable _ (let x := _ in _) => cbv zeta
  | |- stable _ (match ?x with _ => _ end) => destruct x
  | |- stable _ ?p => let h := head_of p in unfold h
  end.

Ltac stable_tac := repeat stable_step.

Lemma calls_run {R} (P : Call → Prop) (p : Prog R) env n s :
  calls P p → Forall (calledIn P) (events (run p env n s)).
Proof.
  revert n s.
  induction p as [a|e|c k IH|c k IH|m k IH|k IH|g k IH]; intros n s Hp; simpl in *;
    try (by constructor); try (by apply IH).
  - destruct Hp as [Hc Hk]. constructor; [done|]. by apply IH.
  - destruct Hp as [Hc Hk]. constructor; [done|]. by apply IH.
  - constructor; [done|]. by apply IH.
Qed.

Lemma calls_bind {A B} (P : Call → Prop) (p : Prog A) (f : A → Prog B) :
  calls P p → (∀ a, calls P (f a)) → calls P (bind p f).
Proof.
  intros Hp Hf.
  induction p as [a|e|c k IH|c k IH|m k IH|k IH|g k IH]; simpl in *; try done;
    try (by intros; apply IH); try (by apply IH).
  - destruct Hp as [Hc Hk]. split; [done|]. intros o. by apply IH.
  - destruct Hp as [Hc Hk]. split; [done|]. by apply IH.
Qed.

Lemma calls_tryCatch {A} (P : Call → Prop) (p : Prog A) (h : JsError → Prog A) :
  calls P p → (∀ e, calls P (h e)) → calls P (tryCatch p h).
Proof.
  intros Hp Hh.
  induction p as [a|e|c k IH|c k IH|m k IH|k IH|g k IH]; simpl in *; try done;
    try (by intros; apply IH); try (by apply IH).
  - destruct Hp as [Hc Hk]. split; [done|]. intros o. by apply IH.
  - destruct Hp as [Hc Hk]. split; [done|]. by apply IH.
Qed.

Lemma calls_finally {A} (P : Call → Prop) (p : Prog A) (f : Prog unit) :
  calls P p → calls P f → calls P (finally p f).
Proof.
  intros Hp Hf.
  induction p as [a|e|c k IH|c k IH|m k IH|k IH|g k IH]; simpl in *;
    try (by apply calls_bind); try (by intros; apply IH); try (by apply IH).
  - destruct Hp as [Hc Hk]. split; [done|]. intros o. by apply IH.
  - destruct Hp as [Hc Hk]. split; [done|]. by apply IH.
Qed.

Lemma calls_markUsers (P : Call → Prop) users :
  calls P (Handlers.markUsers users).
Proof. induction users as [|[id|[id|]|] users IH]; simpl; auto. Qed.

(** Splits a [calls] goal along the structure of the program; the calls
    are left as goals. *)
Ltac calls_step :=
  lazymatch goal with
  | |- calls _ (bind _ _) => apply calls_bind; [|intros ?]
  | |- calls _ (tryCatch _ _) => apply calls_tryCatch; [|intros ?]
  | |- calls _ (finally _ _) => apply calls_finally
  | |- calls _ (Handlers.markUsers _) => apply calls_markUsers
  | |- calls _ (Await _ _) =>
      split; [|let o := fresh "o" in intros o; destruct o; cbv beta iota]
  | |- calls _ (Fire _ _) => split; [|]
  | |- calls _ (Read _) => let s := fresh "s" in intros s; cbv beta
  | |- calls _ (Ret _) => exact I
  | |- calls _ (Throw _) => exact I
  | |- calls ?P (Write _ ?k) => change (calls P k)
  | |- calls ?P (Log _ ?k) => change (calls P k)
  | |- calls _ (let x := _ in _) => cbv zeta
  | |- calls _ (if negb true then _ else _) => change (negb true) with false; cbv iota
  | |- calls _ (match ?x with _ => _ end) => destruct x
  | |- calls _ ?p => let h := head_of p in unfold h
  end.

Ltac calls_tac := repeat calls_step.

Lemma wp_run {R} (Q : Outcome R → State → Prop) (p : Prog R) env n s :
  wp Q p s → Q (completion (run p env n s)) (stores (run p env n s)).
Proof.
  revert n s.
  induction p as [a|e|c k IH|c k IH|m k IH|k IH|g k IH]; intros n s Hp; simpl in *;
    try done; by apply IH.
Qed.

Lemma wp_bind {A B} (Q : Outcome B → State → Prop) (p : Prog A) (f : A → Prog B) s :
  wp (λ o s', match o with
              | Ok a => wp Q (f a) s'
              | Thrown e => Q (Thrown e) s'
              end) p s →
  wp Q (bind p f) s.
Proof.
  revert s.
  induction p as [a|e|c k IH|c k IH|m k IH|k IH|g k IH]; intros s; simpl; try done;
    try (by intros H o; apply IH); by apply IH.
Qed.

Lemma wp_tryCatch {A} (Q : Outcome A → State → Prop) (p : Prog A)
    (h : JsError → Prog A) s :
  wp (λ o s', match o with
              | Ok a => Q (Ok a) s'
              | Thrown e => wp Q (h e) s'
              end) p s →
  wp Q (tryCatch p h) s.
Proof.
  revert s.
  induction p as [a|e|c k IH|c k IH|m k IH|k IH|g k IH]; intros s; simpl; try done;
    try (by intros H o; apply IH); by apply IH.
Qed.

(** Splits a [wp] goal along the structure of the program. *)
Ltac wp_step :=
  lazymatch goal with
  | |- wp _ (bind _ _) _ => apply wp_bind
  | |- wp _ (tryCatch _ _) _ => apply wp_tryCatch
  | |- wp _ (Await _ _) _ =>
      let o := fresh "o" in intros o; destruct o; cbv beta iota
  | |- wp ?Q (Read ?k) ?s => change (wp Q (k s) s); cbv beta
  | |- wp ?Q (Write ?f ?k) ?s => change (wp Q k (f s))
  | |- wp ?Q (Ret ?r) ?s => change (Q (Ok r) s); cbv beta iota
  | |- wp ?Q (Throw ?e) ?s => change (Q (Thrown e) s); cbv beta iota
  | |- wp ?Q (Fire _ ?k) ?s => change (wp Q k s)
  | |- wp ?Q (Log _ ?k) ?s => change (wp Q k s)
  | |- wp _ (let x := _ in _) _ => cbv zeta
  | |- wp _ (if negb true then _ else _) _ => change (negb true) with false; cbv iota
  | |- wp _ (if negb false then _ else _) _ => change (negb false) with true; cbv iota
  | |- wp _ (match ?x with _ => _ end) _ => destruct x eqn:?
  | |- wp _ ?p _ => let h := head_of p in unfold h
  end.

Ltac wp_tac := repeat wp_step.

(** ** The users file *)

Lemma markAll_lookup (ids : list Z) (s : State) (u : Z) :
  userAcceptanceStore (markAll ids s) !! u
  = if bool_decide (u ∈ ids) then Some true else userAcceptanceStore s !! u.
Proof.
  unfold markAll. revert s. induction ids as [|id ids IH]; intros s; simpl.
  - done.
  - rewrite IH. cbn [userAcceptanceStore setUserAcceptanceStore].
    destruct (bool_decide_reflect (u ∈ ids)) as [Hin|Hout].
    + rewrite bool_decide_eq_true_2; [done|]. by right.
    + destruct (decide (u = id)) as [->|Hne].
      * rewrite lookup_insert_eq. rewrite bool_decide_eq_true_2; [done|]. by left.
      * rewrite lookup_insert_ne by done.
        rewrite bool_decide_eq_false_2; [done|].
        intros [?|?]%elem_of_cons; done.
Qed.


Lemma marked_no_null users :
  hasNull users = false → marked users = omap keyOf users.
Proof.
  induction users as [|[id|[id|]|] users IH]; simpl; intros Hnull;
    try done; by rewrite IH.
Qed.

Lemma run_markUsers users (env : Oracle) n s :
  run (Handlers.markUsers users) env n s
  = {| completion := if hasNull users then Thrown (Tasks.nullError "id") else Ok tt;
       stores := markAll (marked users) s; events := []; next := n |}.
Proof.
  revert s. induction users as [|[id|[id|]|] users IH]; intros s; try done.
  - change (run (Handlers.markUsers (_ :: users)) env n s)
      with (run (Handlers.markUsers users) env n
              (setUserAcceptanceStore <[id := true]> s)).
    by rewrite IH.
  - change (run (Handlers.markUsers (_ :: users)) env n s)
      with (run (Handlers.markUsers users) env n
              (setUserAcceptanceStore <[id := true]> s)).
    by rewrite IH.
Qed.

Lemma run_loadUsers (env : Oracle) n s :
  run Handlers.loadUsers env n s
  = {| completion := Ok (usersRead (env n ReadUsersFile));
       stores := afterLoad (env n ReadUsersFile) s;
       events := [Awaited ReadUsersFile]; next := S n |}.
Proof.
  unfold Handlers.loadUsers.
  change (run (tryCatch (bind (await ?c) ?k) ?h) ?env ?n ?s)
    with (emit (Awaited c)
            (run (tryCatch (bind (match env n c with
                                  | Ok v => Ret v
                                  | Thrown e => Throw e
                                  end) k) h) env (S n) s)).
  destruct (env n ReadUsersFile) as [[|[users| | |]]|e]; try done.
  change (bind (Ret ?a) ?k) with (k a). cbv beta iota.
  rewrite run_tryCatch, run_bind, run_markUsers. unfold seqResult, catchResult.
  cbn [completion stores events next emit usersRead afterLoad].
  by destruct (hasNull users).
Qed.





(** On entries without [null], [findIndex] returns, and the array with the
    user's entry replaced, or with it pushed, is the array with the user
    added if the user was not there. *)
Lemma findIndex_written id users :
  hasNull users = false →
  ∃ index, Handlers.findIndex id users = Ok index
    ∧ match index with
      | Some i => <[i := UserRecord id]> users
      | None => users ++ [UserRecord id]
      end = usersWritten id users.
Proof.
  unfold usersWritten.
  induction users as [|[id'|key|] users IH]; simpl; intros Hnull; try done.
  - by exists None.
  - destruct (Z.eqb_spec id' id) as [->|Hne]; [by exists (Some 0%nat)|].
    destruct (IH Hnull) as (index & -> & Hwritten). exists (S <$> index).
    split; [done|]. destruct index as [i|]; simpl in *;
      destruct (existsb (isUser id) users); by f_equal.
  - destruct (IH Hnull) as (index & -> & Hwritten). exists (S <$> index).
    split; [done|]. destruct index as [i|]; simpl in *;
      destruct (existsb (isUser id) users); by f_equal.
Qed.

Lemma usersRead_no_null read users :
  usersRead read = UsersArray users → hasNull users = false.
Proof.
  destruct read as [[|[users'| | |]]|e]; simpl; try done; intros [= <-]; try done.
  by destruct (hasNull users') eqn:Hnull.
Qed.

(** The run of [saveUser], from what [loadUsers] returned. *)
Lemma run_saveUser id (env : Oracle) n s :
  let r := run (Handlers.saveUser id) env n s in
  stores r = afterLoad (env n ReadUsersFile) s
  ∧ match usersRead (env n ReadUsersFile) with
    | UsersArray users =>
        let write := WriteUsersFile (usersWritten id users) in
        completion r = Ok match env (S n) write with
                          | Ok _ => true
                          | Thrown _ => false
                          end
        ∧ events r = Awaited ReadUsersFile :: Awaited write
                     :: match env (S n) write with
                        | Ok _ => []
                        | Thrown e =>
                            [Logged ("Error saving user data: " +:+ errorMessage e)]
                        end
    | _ =>
        completion r = Ok false
        ∧ ∃ message, events r = [Awaited ReadUsersFile; Logged message]
    end.
Proof.
  intros r. subst r. unfold Handlers.saveUser.
  rewrite run_tryCatch, run_bind, run_loadUsers. unfold seqResult, catchResult.
  cbn [completion stores events next].
  destruct (usersRead (env n ReadUsersFile)) as [users| | |] eqn:Hread;
    try (cbn; eauto; fail).
  apply usersRead_no_null in Hread.
  destruct (findIndex_written id users Hread) as (index & Hindex & Hwritten).
  rewrite run_bind, Hindex. unfold seqResult. cbn [Handlers.lift run completion].
  cbv zeta. rewrite Hwritten. cbn.
  by destruct (env (S n) (WriteUsersFile (usersWritten id users))) as [[]|e].
Qed.



(** X3: when the users file cannot be read or parsed, [saveUser] takes it
    as empty and writes a file that holds the saved user alone: whatever
    the file held is replaced. *)
Theorem saveUser_replaces_unreadable_file :
  ∀ id (env : Oracle) n s e,
    env n ReadUsersFile = Thrown e →
    ∃ rest, events (run (Handlers.saveUser id) env n s)
            = Awaited ReadUsersFile :: Awaited (WriteUsersFile [UserRecord id]) :: rest.
Proof.
  intros id env n s e Hread.
  pose proof (run_saveUser id env n s) as [_ Hrun]. cbv zeta in Hrun.
  rewrite Hread in Hrun. destruct Hrun as [_ Hevents]. eauto.
Qed.

Lemma saveUser_replaces_unreadable_file_witness :
  ∃ rest, events (run (Handlers.saveUser 9) usersFileMissing 0 annAccepted)
          = Awaited ReadUsersFile :: Awaited (WriteUsersFile [UserRecord 9]) :: rest.
Proof.
  exact (saveUser_replaces_unreadable_file 9 usersFileMissing 0%nat annAccepted _ eq_refl).
Defined.

(** ** Which handler writes which variable *)

Lemma keeps_stable {X R} (proj : State → X) (I : State → Prop) (p : Prog R) :
  (∀ s s', proj s' = proj s → I s → I s') → keeps proj p → stable I p.
Proof.
  intros Hproj.
  induction p as [a|e|c k IH|c k IH|m k IH|k IH|g k IH]; simpl; try done;
    try (by intros H o; apply IH); try (by apply IH).
  intros [Hg Hk]. split; [|by apply IH]. intros s. by apply Hproj.
Qed.

(** X4: a handler changes a module-level variable only if it, or a
    function it calls, assigns to it: the selection is written by the
    selection handler alone, the guard set by the menu handler alone, the
    acceptance marks by the policy handler alone, the catalogs and the
    browser globals by the three handlers that run the pipeline, the menu
    pairs by the menu, selection and close handlers. *)
Theorem handlers_write_only_their_stores :
  ∀ st h ctx (env : Oracle) n s,
    writers st h = false →
    sameStore st s (stores (run (Index.handle h ctx) env n s)).
Proof.
  intros st h ctx env n s Hwriters.
  destruct st; simpl sameStore.
  - apply (keeps_run messageStore).
    destruct h; try discriminate; unfold Index.handle; keeps_tac.
  - apply (keeps_run userAcceptanceStore).
    destruct h; try discriminate; unfold Index.handle; keeps_tac.
  - apply (keeps_run userModelsStore).
    destruct h; try discriminate; unfold Index.handle; keeps_tac.
  - apply (keeps_run userSelectedModelStore).
    destruct h; try discriminate; unfold Index.handle; keeps_tac.
  - apply (keeps_run fetchingModelsFor).
    destruct h; try discriminate; unfold Index.handle; keeps_tac.
  - apply (keeps_run (λ s, (globalBrowser s, globalContext s, globalPage s))).
    destruct h; try discriminate; unfold Index.handle; keeps_tac.
Qed.

Lemma handlers_write_only_their_stores_witness :
  userSelectedModelStore
    (stores (run (Index.handle Index.OnCloseMenu ann) botMessageGone 0 annMenuOpen))
  = userSelectedModelStore annMenuOpen.
Proof.
  exact (handlers_write_only_their_stores SelectionStore Index.OnCloseMenu ann
           botMessageGone 0%nat annMenuOpen eq_refl).
Defined.

(** ** Acceptance of the policy *)

Lemma wp_stable {R} (I : State → Prop) (Q : Outcome R → State → Prop) (p : Prog R) s :
  stable I p → I s → (∀ o s', I s' → Q o s') → wp Q p s.
Proof.
  intros Hp Hs HQ. revert s Hp Hs.
  induction p as [a|e|c k IH|c k IH|m k IH|k IH|g k IH]; intros s Hp Hs; simpl in *;
    try (by apply HQ); try (by intros o; apply IH); try (by apply IH).
  destruct Hp as [Hg Hk]. apply IH; [done|]. by apply Hg.
Qed.

(** The writes that [stable_tac] leaves, for the mark of one user. *)
Ltac accepted_writes :=
  let s := fresh "s" in
  let Hs := fresh "Hs" in
  intros s Hs; try exact Hs;
  unfold Handlers.accepted in *;
  cbn [userAcceptanceStore setUserAcceptanceStore] in *;
  repeat match goal with
         | |- context [bool_decide ?P] => destruct (bool_decide P)
         | |- context [<[?i := _]> _ !! ?j] =>
             destruct (decide (j = i));
             [subst; rewrite lookup_insert_eq|rewrite lookup_insert_ne by done]
         end;
  done.

Lemma handle_stable_accepted h ctx u :
  stable (λ s, Handlers.accepted s u = true) (Index.handle h ctx).
Proof.
  destruct h; unfold Index.handle; stable_tac; accepted_writes.
Qed.

(** X5: no handler revokes an acceptance: a user who has accepted the
    policy is still marked as accepted after any handler has run, for any
    user and whatever the outside world answers. *)
Theorem acceptance_is_never_revoked :
  ∀ h ctx (env : Oracle) n s u,
    Handlers.accepted s u = true →
    Handlers.accepted (stores (run (Index.handle h ctx) env n s)) u = true.
Proof.
  intros h ctx env n s u Hu.
  apply (stable_run (λ s, Handlers.accepted s u = true)); [|exact Hu].
  apply handle_stable_accepted.
Qed.

Lemma acceptance_is_never_revoked_witness :
  Handlers.accepted
    (stores (run (Index.handle Index.OnAcceptPolicy ann) usersFileMissing 0 annAccepted)) 7
  = true.
Proof.
  exact (acceptance_is_never_revoked Index.OnAcceptPolicy ann usersFileMissing 0%nat
           annAccepted 7 eq_refl).
Defined.

Lemma wp_ensures {R} (P : Outcome R → Prop) (Q : Outcome R → State → Prop)
    (p : Prog R) s :
  ensures P p → (∀ o s', P o → Q o s') → wp Q p s.
Proof.
  intros Hp HQ. revert s Hp.
  induction p as [a|e|c k IH|c k IH|m k IH|k IH|g k IH]; intros s Hp; simpl in *;
    try (by apply HQ); try (by intros o; apply IH); by apply IH.
Qed.

Lemma saveUser_returns id :
  ensures (λ o, ∃ saved, o = Ok saved) (Handlers.saveUser id).
Proof. unfold Handlers.saveUser. ensures_tac; eauto. Qed.

(** X6: once the first edit of [acceptPolicyHandler] (the "Logging you
    in..." text) has succeeded, the user is marked as accepted when the
    handler ends, whatever fails afterwards: saving the user, the answer to
    the callback, the pipeline or a later message.  When that first edit is
    rejected, nothing is read, written or navigated: the error is logged,
    the error text is put in the message and, if that worked, the main menu
    is sent with its "all set" greeting; the stores are left untouched, so
    the user is still not marked. *)
Theorem acceptPolicyHandler_marks_user :
  ∀ ctx (env : Oracle) n s,
    let r := run (Handlers.acceptPolicyHandler ctx) env n s in
    match env n (loggingIn ctx) with
    | Ok _ => Handlers.accepted (stores r) (fromId ctx) = true
    | Thrown e =>
        stores r = s
        ∧ completion r = env (S n) (errorNotice ctx)
        ∧ events r
          = [Awaited (loggingIn ctx);
             Logged ("Error in acceptPolicyHandler: " +:+ errorMessage e);
             Awaited (errorNotice ctx)]
            ++ match env (S n) (errorNotice ctx) with
               | Ok _ => [Fired (allSet ctx)]
               | Thrown _ => []
               end
    end.
Proof.
  intros ctx env n s r. subst r.
  unfold Handlers.acceptPolicyHandler, Handlers.logIn. cbv zeta.
  change (run (tryCatch (bind (bind (await ?c) ?f) ?g) ?h) env n s)
    with (emit (Awaited c)
            (run (tryCatch (bind (bind (match env n c with
                                        | Ok v => Ret v
                                        | Thrown e => Throw e
                                        end) f) g) h) env (S n) s)).
  fold (loggingIn ctx). destruct (env n (loggingIn ctx)) as [[]|e].
  { change (stores (emit ?e ?r)) with (stores r).
    apply (wp_run (λ _ s', Handlers.accepted s' (fromId ctx) = true)).
    apply wp_tryCatch, wp_bind, wp_bind.
    change (wp ?Q (Ret ?r) ?s) with (Q (Ok r) s). cbv beta iota.
    apply wp_bind.
    apply (wp_ensures _ _ _ _ (saveUser_returns (fromId ctx))).
    intros o s1 [saved ->].
    apply wp_bind. change (wp ?Q (modify ?f) ?s) with (Q (Ok tt) (f s)).
    cbv beta iota.
    apply (wp_stable (λ s, Handlers.accepted s (fromId ctx) = true)).
    { stable_tac; accepted_writes. }
    { unfold Handlers.accepted. cbn. by rewrite lookup_insert_eq. }
    intros [[]|e] s2 Hs2.
    - apply (wp_stable (λ s, Handlers.accepted s (fromId ctx) = true)); [|done|].
      { stable_tac; accepted_writes. }
      intros [[]|e] s3 Hs3; [done|].
      apply (wp_stable (λ s, Handlers.accepted s (fromId ctx) = true)); [|done|done].
      stable_tac; accepted_writes.
    - apply (wp_stable (λ s, Handlers.accepted s (fromId ctx) = true)); [|done|done].
      stable_tac; accepted_writes. }
  unfold Handlers.logInFailed, Handlers.showMainMenu. simpl.
  fold (errorNotice ctx) (allSet ctx).
  by destruct (env (S n) (errorNotice ctx)) as [[]|e'].
Qed.

(** ** The gate and the menu messages *)

(** X7: a user who has not accepted the policy gets nothing from the menu
    handler and from [/open] but the request to start the bot: no call is
    awaited, the pipeline is not run and the stores are untouched. *)
Theorem unaccepted_users_are_turned_away :
  ∀ ctx (env : Oracle) n s,
    Handlers.accepted s (fromId ctx) = false →
    run (Handlers.showModelMenu ctx) env n s
    = emit (turnedAway ctx) (returned tt n s)
    ∧ run (Handlers.openHandler ctx) env n s
      = emit (turnedAway ctx) (returned tt n s).
Proof.
  intros ctx env n s Hacc.
  unfold Handlers.showModelMenu, Handlers.openHandler. cbv zeta.
  change (run (bind get ?k) env n s) with (run (k s) env n s). cbv beta.
  by rewrite Hacc.
Qed.

Lemma unaccepted_users_are_turned_away_witness :
  events (run (Handlers.openHandler ann) calmWorld 0 initialState)
  = [turnedAway ann].
Proof.
  by destruct (unaccepted_users_are_turned_away ann calmWorld 0%nat initialState
                 eq_refl) as [_ ->].
Defined.

Lemma run_deleteMenuMessages ctx (env : Oracle) n s :
  run (Handlers.deleteMenuMessages ctx) env n s
  = match messageStore s !! chatId ctx with
    | None => returned tt n s
    | Some entry =>
        emit (Awaited (deleteBotMessage ctx entry))
          match env n (deleteBotMessage ctx entry) with
          | Thrown e =>
              {| completion := Thrown e; stores := s; events := []; next := S n |}
          | Ok _ =>
              emit (Awaited (deleteUserMessage ctx entry))
                match env (S n) (deleteUserMessage ctx entry) with
                | Thrown e =>
                    {| completion := Thrown e; stores := s; events := [];
                       next := S (S n) |}
                | Ok _ =>
                    returned tt (S (S n)) (setMessageStore (delete (chatId ctx)) s)
                end
          end
    end.
Proof.
  unfold Handlers.deleteMenuMessages, deleteBotMessage, deleteUserMessage. cbv zeta.
  change (run (bind get ?k) env n s) with (run (k s) env n s). cbv beta.
  destruct (messageStore s !! chatId ctx) as [entry|] eqn:Hentry; [|done].
  simpl. destruct (env n _) as [[]|e]; [|done]. simpl. rewrite Hentry. simpl.
  by destruct (env (S n) _) as [[]|e].
Qed.

(** X8: [closeMenu] with nothing stored for the chat does nothing at all.
    With a pair stored it deletes the bot's message, then the user's, and
    when both deletions succeed it removes the pair and ends without
    answering the callback.  When a deletion is rejected the stores stay as
    they were, pair included, the error is logged, the remaining deletion is not
    attempted, and the callback is answered with "Could not delete
    messages"; the handler throws only if that answer is rejected. *)
Theorem closeMenu_outcomes :
  ∀ ctx (env : Oracle) n s,
    let r := run (Handlers.closeMenu ctx) env n s in
    match messageStore s !! chatId ctx with
    | None => r = returned tt n s
    | Some entry =>
        match env n (deleteBotMessage ctx entry) with
        | Thrown e =>
            stores r = s
            ∧ events r = [Awaited (deleteBotMessage ctx entry); deletionLog e;
                          Awaited (couldNotDelete ctx)]
            ∧ completion r = env (S n) (couldNotDelete ctx)
        | Ok _ =>
            match env (S n) (deleteUserMessage ctx entry) with
            | Thrown e =>
                stores r = s
                ∧ events r = [Awaited (deleteBotMessage ctx entry);
                              Awaited (deleteUserMessage ctx entry); deletionLog e;
                              Awaited (couldNotDelete ctx)]
                ∧ completion r = env (S (S n)) (couldNotDelete ctx)
            | Ok _ =>
                r = {| completion := Ok tt;
                       stores := setMessageStore (delete (chatId ctx)) s;
                       events := [Awaited (deleteBotMessage ctx entry);
                                  Awaited (deleteUserMessage ctx entry)];
                       next := S (S n) |}
            end
        end
    end.
Proof.
  intros ctx env n s r. subst r. unfold Handlers.closeMenu.
  rewrite run_tryCatch, run_deleteMenuMessages. unfold catchResult.
  destruct (messageStore s !! chatId ctx) as [entry|]; [|done].
  destruct (env n (deleteBotMessage ctx entry)) as [[]|e]; simpl.
  - destruct (env (S n) (deleteUserMessage ctx entry)) as [[]|e]; simpl; [done|].
    fold (couldNotDelete ctx). by destruct (env (S (S n)) _) as [[]|e'].
  - fold (couldNotDelete ctx). by destruct (env (S n) _) as [[]|e'].
Qed.

(** X9: opening the menu and closing it is a round trip on the menu
    pairs.  For an accepted user with a stored catalog, [showModelMenu]
    stores for the chat the id of the user's message and the id that the
    reply got, over whatever pair was there.  A [closeMenu] from that chat
    then asks first for the deletion of that reply; when that deletion and
    the one of the user's message succeed, exactly these two messages have
    been asked to go and the chat has no pair any more; otherwise the pair
    stays as it was stored. *)
Theorem menu_open_then_close :
  ∀ ctx ctx' (env : Oracle) n s model models botMessage,
    let opened := run (Handlers.showModelMenu ctx) env n s in
    let closed := run (Handlers.closeMenu ctx') env (S n) (stores opened) in
    let deleteBot := CtxDeleteMessage ctx' (Some botMessage) in
    let deleteUser := TelegramDeleteMessage (chatId ctx) (messageId ctx) in
    Handlers.accepted s (fromId ctx) = true →
    userModelsStore s !! fromId ctx = Some (model :: models) →
    env n (listViewSent ctx (model :: models)) = Ok botMessage →
    chatId ctx' = chatId ctx →
    next opened = S n
    ∧ messageStore (stores opened)
      = <[chatId ctx := menuPair ctx botMessage]> (messageStore s)
    ∧ head (events closed) = Some (Awaited deleteBot)
    ∧ match env (S n) deleteBot, env (S (S n)) deleteUser with
      | Ok _, Ok _ =>
          events closed = [Awaited deleteBot; Awaited deleteUser]
          ∧ messageStore (stores closed) = delete (chatId ctx) (messageStore s)
      | _, _ => messageStore (stores closed) = messageStore (stores opened)
      end.
Proof.
  intros ctx ctx' env n s model models botMessage opened closed deleteBot deleteUser
    Hacc Hstored Hreply Hchat.
  assert (opened = {| completion := Ok tt;
                      stores := setMessageStore
                                  <[chatId ctx := menuPair ctx botMessage]> s;
                      events := [Awaited (listViewSent ctx (model :: models))];
                      next := S n |}) as Hopened.
  { subst opened. unfold Handlers.showModelMenu, listViewSent in *.
    cbv zeta. change (bind get ?k) with (Read (λ s, k s)). cbn [run].
    rewrite Hacc. cbn [negb]. rewrite run_bind.
    rewrite (run_ensureModelsLoaded_cached ctx (fromId ctx) env n s model models Hstored).
    unfold seqResult. simpl. rewrite Hstored. simpl. by rewrite Hreply. }
  subst closed. rewrite Hopened. cbn [stores next]. split; [done|]. split; [done|].
  unfold Handlers.closeMenu. rewrite run_tryCatch, run_deleteMenuMessages.
  cbn [messageStore setMessageStore]. rewrite Hchat, lookup_insert_eq.
  unfold deleteBotMessage, deleteUserMessage, menuPair, catchResult. rewrite Hchat.
  cbn [botMessageId userMessageId]. fold deleteBot deleteUser.
  destruct (env (S n) deleteBot) as [[]|e]; cbn.
  - destruct (env (S (S n)) deleteUser) as [[]|e]; cbn.
    + split; [done|]. split; [done|]. by rewrite delete_insert_eq.
    + split; [done|]. by destruct (env (S (S (S n))) _) as [[]|e'].
  - split; [done|]. by destruct (env (S (S n)) _) as [[]|e'].
Qed.

Lemma menu_open_then_close_witness :
  messageStore (stores (run (Handlers.showModelMenu ann) calmWorld 0 annWithCatalog))
  = <[7 := annMenu]> ∅
  ∧ messageStore
      (stores (run (Handlers.closeMenu annClose) calmWorld 1
                 (stores (run (Handlers.showModelMenu ann) calmWorld 0 annWithCatalog))))
    = delete 7 ∅.
Proof.
  destruct (menu_open_then_close ann annClose calmWorld 0%nat annWithCatalog
              modelA [modelB] 42 eq_refl eq_refl eq_refl eq_refl)
    as (_ & Hopened & _ & _ & Hclosed).
  split; [exact Hopened|exact Hclosed].
Defined.

(** X10: [showModelMenu] stores a menu pair only for a list view that was
    sent.  After a run either the menu pairs are as before, or the last
    call of the run was the list view of the user's stored catalog, which is
    not empty, and the pair stored for the chat is the id of the user's
    message with the id that this reply got. *)
Theorem menu_pair_comes_with_a_list_view :
  ∀ ctx (env : Oracle) n s,
    let r := run (Handlers.showModelMenu ctx) env n s in
    messageStore (stores r) = messageStore s
    ∨ ∃ model models botMessage,
        userModelsStore (stores r) !! fromId ctx = Some (model :: models)
        ∧ last (events r) = Some (Awaited (listViewSent ctx (model :: models)))
        ∧ env (pred (next r)) (listViewSent ctx (model :: models)) = Ok botMessage
        ∧ messageStore (stores r)
          = <[chatId ctx := menuPair ctx botMessage]> (messageStore s).
Proof.
  intros ctx env n s r. subst r. unfold Handlers.showModelMenu. cbv zeta.
  change (run (bind get ?k) env n s) with (run (k s) env n s). cbv beta.
  destruct (Handlers.accepted s (fromId ctx)); [|by left]. cbn [negb].
  rewrite run_bind. unfold seqResult.
  assert (messageStore (stores (run (Handlers.ensureModelsLoaded ctx (fromId ctx)) env n s))
          = messageStore s) as Hkept.
  { apply (keeps_run messageStore). keeps_tac. }
  destruct (run (Handlers.ensureModelsLoaded ctx (fromId ctx)) env n s)
    as [[answer|e] s1 t1 n1]; cbn [completion stores events next] in *; [|by left].
  destruct (negb (Handlers.success answer) && negb (Handlers.alreadyLoaded answer)).
  { destruct (Handlers.message answer) as [[|c m]|]; by left. }
  change (run (bind get ?k) env n1 s1) with (run (k s1) env n1 s1). cbv beta.
  destruct (userModelsStore s1 !! fromId ctx) as [[|model models]|] eqn:Hstored;
    cbn [Handlers.modelsOrEmpty]; try by left.
  fold (listViewSent ctx (model :: models)).
  change (run (bind (await ?c) ?k) ?env ?n ?s)
    with (emit (Awaited c)
            (run (bind (match env n c with Ok v => Ret v | Thrown e => Throw e end) k)
               env (S n) s)).
  destruct (env n1 (listViewSent ctx (model :: models))) as [botMessage|e] eqn:Hreply;
    [|by left].
  right. exists model, models, botMessage. cbn. rewrite Hstored, Hkept.
  split; [done|]. split; [by rewrite last_snoc|]. done.
Qed.

(** X11: in [ensureModelsLoaded] the catalog is stored before the status
    message is edited.  When the status message was sent and the pipeline
    succeeded, the user's catalog is the one that was extracted and the user
    is out of the guard set, whatever happens to the edit.  If the edit
    goes through, the call returns the models and leaves a deferred deletion
    of the status message, which never throws; if the edit is rejected, the
    call returns a failure with the message of that error, although the
    catalog has been stored. *)
Theorem fetched_catalog_is_stored_before_the_notice :
  ∀ ctx userId (env : Oracle) n s statusMsg result,
    let pipeline := run (Tasks.navigateToDuckAI true) env (S n) (startFetching userId s) in
    let r := run (Handlers.ensureModelsLoaded ctx userId) env n s in
    Handlers.hasModels (userModelsStore s !! userId) = false →
    userId ∉ fetchingModelsFor s →
    env n (CtxReply ctx Handlers.connecting NoExtra) = Ok statusMsg →
    completion pipeline = Ok result →
    Tasks.success result = true →
    userModelsStore (stores r) = <[userId := Tasks.models result]> (userModelsStore s)
    ∧ fetchingModelsFor (stores r) = fetchingModelsFor s
    ∧ match env (next pipeline) (successNotice ctx statusMsg result) with
      | Ok _ =>
          completion r = Ok (Handlers.loadedResult (Tasks.models result))
          ∧ last (events r) = Some (Fired (deferredDeletion ctx statusMsg))
          ∧ ∀ n' s', completion (run (Handlers.runDeferred
                                        (DeleteStatusMessage (chatId ctx) statusMsg))
                                   env n' s') = Ok tt
      | Thrown e =>
          completion r = Ok (Handlers.failedResult (errorMessage e))
          ∧ last (events r) = Some (Logged ("Error fetching models: " +:+ errorMessage e))
      end.
Proof.
  intros ctx userId env n s statusMsg result pipeline r
    Hempty Hfree Hstatus Hpipeline Hsuccess.
  assert (handlerStores (stores pipeline) = handlerStores (startFetching userId s))
    as Hkept.
  { apply (keeps_run handlerStores), navigate_keeps_handlerStores. }
  subst r. rewrite run_ensureModelsLoaded_fetch by done.
  rewrite run_fetchModels. cbv zeta. rewrite Hstatus.
  fold (startFetching userId s). fold pipeline.
  unfold seqResult. rewrite Hpipeline.
  unfold Handlers.reportFetch. rewrite Hsuccess.
  fold (successNotice ctx statusMsg result).
  change (run (bind (modify ?f) ?k) ?env ?n ?s) with (run (k tt) env n (f s)).
  cbv beta.
  change (run (bind (await ?c) ?k) ?env ?n ?s)
    with (emit (Awaited c)
            (run (bind (match env n c with Ok v => Ret v | Thrown e => Throw e end) k)
               env (S n) s)).
  unfold handlerStores in Hkept. injection Hkept as Hmsg Hacc Hmodels Hsel Hfetching.
  change (userModelsStore (stores pipeline) = userModelsStore s) in Hmodels.
  change (fetchingModelsFor (stores pipeline) = {[userId]} ∪ fetchingModelsFor s)
    in Hfetching.
  clearbody pipeline.
  destruct (env (next pipeline) (successNotice ctx statusMsg result)) as [[]|e].
  - cbn. rewrite Hmodels, Hfetching. split; [done|].
    split; [by apply add_remove_fresh|]. split; [done|].
    split; [|intros n' s'; by destruct (env n' _) as [[]|e]].
    fold (deferredDeletion ctx statusMsg).
    by rewrite app_nil_r, last_cons, last_app.
  - cbn. rewrite Hmodels, Hfetching. split; [done|].
    split; [by apply add_remove_fresh|]. split; [done|].
    by rewrite app_nil_r, last_cons, last_app.
Qed.

Lemma fetched_catalog_is_stored_before_the_notice_witness :
  userModelsStore (stores (run (Handlers.ensureModelsLoaded ann 7) calmWorld 0 annAccepted))
  = <[7 := Tasks.extractModels [gptItem; blankItem]]> ∅.
Proof.
  by destruct (fetched_catalog_is_stored_before_the_notice ann 7 calmWorld 0%nat
                 annAccepted 42 (Tasks.extracted (Tasks.extractModels [gptItem; blankItem]))
                 eq_refl (not_elem_of_empty 7) eq_refl eq_refl eq_refl)
    as [-> _].
Defined.

(** ** The browser *)

(** X12: no handler ever closes the browser, and a handler calls only the
    services that it, or a function it calls, uses: the users file is read
    and written by the policy handler alone, the browser is driven by the
    three handlers that run the pipeline, timers are set by the policy and
    menu handlers, and every other call goes to Telegram. *)
Theorem handlers_call_only_their_services :
  ∀ h ctx (env : Oracle) n s,
    Forall (calledIn (λ c, uses h (serviceOf c) = true ∧ closesBrowser c = false))
      (events (run (Index.handle h ctx) env n s)).
Proof.
  intros h ctx env n s. apply calls_run.
  destruct h; unfold Index.handle; calls_tac; done.
Qed.

Lemma closeUnlessKept_true_keeps : keeps (λ s, s) (Tasks.closeUnlessKept true).
Proof. unfold Tasks.closeUnlessKept. intros s. simpl. by destruct (globalBrowser s). Qed.

(** X13: an open browser is reused.  With a browser and a page in the
    globals, [navigateToDuckAI()] launches nothing, opens no context and no
    page, closes nothing: every call it makes is a method of the stored
    page, and the stores, globals included, are left as they were. *)
Theorem open_browser_is_reused :
  ∀ (env : Oracle) n s browser page,
    globalBrowser s = Some browser →
    globalPage s = Some page →
    Forall (calledIn (λ c, pageOf c = Some page))
      (events (run (Tasks.navigateToDuckAI true) env n s))
    ∧ stores (run (Tasks.navigateToDuckAI true) env n s) = s.
Proof.
  intros env n s browser page Hbrowser Hpage.
  unfold Tasks.navigateToDuckAI, Tasks.navigateBody, Tasks.launchIfNeeded.
  change (run (tryCatch (bind (bind get ?k) ?f) ?h) env n s)
    with (run (tryCatch (bind (k s) f) h) env n s).
  cbv beta. rewrite Hbrowser.
  change (bind (Ret tt) ?f) with (f tt). cbv beta.
  change (run (tryCatch (bind get ?k) ?h) env n s)
    with (run (tryCatch (k s) h) env n s).
  cbv beta. rewrite Hpage. split.
  - apply calls_run. calls_tac; done.
  - apply (keeps_run (λ s, s)).
    repeat first [apply closeUnlessKept_true_keeps | keeps_step].
Qed.

Lemma open_browser_is_reused_witness :
  stores (run (Tasks.navigateToDuckAI true) calmWorld 0 annBrowserOpen) = annBrowserOpen.
Proof.
  by destruct (open_browser_is_reused calmWorld 0%nat annBrowserOpen 1 3 eq_refl eq_refl)
    as [_ ->].
Defined.

(** X14: a start that fails half-way locks the pipeline.  When the browser
    is launched and then gives no context, [navigateToDuckAI()] returns the
    failure of that error and keeps the browser in its global, without a
    page.  From then on every [navigateToDuckAI()] skips the launch, finds
    no page and returns the failure of reading [url] of [null], without
    making a single call and without changing anything. *)
Theorem failed_start_locks_the_pipeline :
  ∀ (env : Oracle) n s browser e,
    let r := run (Tasks.navigateToDuckAI true) env n s in
    globalBrowser s = None →
    globalPage s = None →
    env n ChromiumLaunch = Ok browser →
    env (S n) (BrowserNewContext browser) = Thrown e →
    r = {| completion := Ok (Tasks.failure e);
           stores := setGlobalBrowser (Some browser) s;
           events := [Awaited ChromiumLaunch; Awaited (BrowserNewContext browser)];
           next := S (S n) |}
    ∧ ∀ (env' : Oracle) n',
        run (Tasks.navigateToDuckAI true) env' n' (stores r)
        = returned (Tasks.failure (Tasks.nullError "url")) n' (stores r).
Proof.
  intros env n s browser e r Hbrowser Hpage Hlaunch Hcontext.
  assert (r = {| completion := Ok (Tasks.failure e);
                 stores := setGlobalBrowser (Some browser) s;
                 events := [Awaited ChromiumLaunch; Awaited (BrowserNewContext browser)];
                 next := S (S n) |}) as ->.
  { subst r.
    unfold Tasks.navigateToDuckAI, Tasks.navigateBody, Tasks.launchIfNeeded.
    change (run (tryCatch (bind (bind get ?k) ?f) ?h) env n s)
      with (run (tryCatch (bind (k s) f) h) env n s).
    cbv beta. rewrite Hbrowser. cbn. rewrite Hlaunch. cbn. by rewrite Hcontext. }
  split; [done|]. intros env' n'. cbn [stores].
  unfold Tasks.navigateToDuckAI, Tasks.navigateBody, Tasks.launchIfNeeded.
  cbn. by rewrite Hpage.
Qed.

Lemma failed_start_locks_the_pipeline_witness :
  completion (run (Tasks.navigateToDuckAI true) calmWorld 0
                (stores (run (Tasks.navigateToDuckAI true) noContext 0 initialState)))
  = Ok (Tasks.failure (Tasks.nullError "url")).
Proof.
  destruct (failed_start_locks_the_pipeline noContext 0%nat initialState 1 _
              eq_refl eq_refl eq_refl eq_refl) as [_ Hlocked].
  by rewrite Hlocked.
Defined.

(** X15: [navigateToDuckAI(false)] leaves no browser behind: whenever it
    returns, with the success object or with a failure, [globalBrowser] is
    [null]. *)
Theorem closing_run_leaves_no_browser :
  ∀ (env : Oracle) n s,
    let r := run (Tasks.navigateToDuckAI false) env n s in
    match completion r with
    | Ok _ => globalBrowser (stores r) = None
    | Thrown _ => True
    end.
Proof.
  intros env n s.
  apply (wp_run (λ o s', match o with
                         | Ok _ => globalBrowser s' = None
                         | Thrown _ => True
                         end)).
  unfold Tasks.navigateToDuckAI. wp_tac; try done; try assumption.
Qed.

(** X16: [closeBrowser] does nothing without a browser.  With one it asks
    it to close; when that succeeds the three globals are [null], so that a
    second [closeBrowser] does nothing; when it is rejected the error is
    thrown and the globals keep the browser. *)
Theorem closeBrowser_outcomes :
  ∀ (env : Oracle) n s,
    let r := run Tasks.closeBrowser env n s in
    match globalBrowser s with
    | None => r = returned tt n s
    | Some browser =>
        events r = [Awaited (BrowserClose browser)]
        ∧ match env n (BrowserClose browser) with
          | Ok _ =>
              completion r = Ok tt
              ∧ browserGlobals (stores r) = (None, None, None)
              ∧ handlerStores (stores r) = handlerStores s
              ∧ ∀ (env' : Oracle) n',
                  run Tasks.closeBrowser env' n' (stores r) = returned tt n' (stores r)
          | Thrown e => completion r = Thrown e ∧ stores r = s
          end
    end.
Proof.
  intros env n s r. subst r. unfold Tasks.closeBrowser, Tasks.closeAndForget.
  change (run (bind get ?k) env n s) with (run (k s) env n s). cbv beta.
  destruct (globalBrowser s) as [browser|]; [|done]. cbn.
  by destruct (env n (BrowserClose browser)) as [[]|e].
Qed.

(** ** Callback data and the patterns of the entry file *)

Lemma dropPrefix_append prefix rest :
  Js.dropPrefix prefix (prefix +:+ rest) = Some rest.
Proof.
  induction prefix as [|a prefix IH]; [by destruct rest|].
  change (Js.dropPrefix (String a prefix) (String a (prefix +:+ rest)) = Some rest).
  cbn [Js.dropPrefix]. by rewrite Ascii.eqb_refl.
Qed.

Lemma execPrefixed_append prefix modelName :
  Index.execPrefixed prefix (prefix +:+ modelName) = captured modelName.
Proof. unfold Index.execPrefixed. by rewrite dropPrefix_append. Qed.

(** X17: the callback data that the menus make and the patterns of the
    entry file go together.  From the data of a model's row the pattern
    [view_model_(.+)] captures the model's name, and from the data of the
    Select button of its detail view [select_model_(.+)] captures it as
    well, provided the name is not empty and holds no line terminator;
    otherwise neither pattern matches, and the button is dead.  The view
    pattern matches no data of a detail view's buttons, and the selection
    pattern none of the list view's. *)
Theorem callback_data_round_trip :
  ∀ model models,
    map Index.viewModelMatch
      (keyboardData (InlineKeyboard (Handlers.modelButtons (model :: models))))
    = map (λ m, captured (name m)) (model :: models) ++ [None]
    ∧ map Index.selectModelMatch (keyboardData (Handlers.detailKeyboard model))
      = [None; captured (name model)]
    ∧ map Index.viewModelMatch (keyboardData (Handlers.detailKeyboard model))
      = [None; None]
    ∧ Forall (λ data, Index.selectModelMatch data = None)
        (keyboardData (InlineKeyboard (Handlers.modelButtons (model :: models)))).
Proof.
  intros model models.
  assert (∀ ms, keyboardData (InlineKeyboard (Handlers.modelButtons ms))
                = map (λ m, "view_model_" +:+ name m) ms ++ ["close_menu"]) as Hdata.
  { intros ms. unfold keyboardData, Handlers.modelButtons.
    rewrite map_app, concat_app. f_equal.
    induction ms as [|m ms IH]; [done|]. cbn [map concat app] in *.
    by rewrite IH. }
  rewrite Hdata. split; [|split; [|split]].
  - rewrite map_app, map_map. f_equal.
  - cbn [Handlers.detailKeyboard keyboardData map concat callbackData app].
    unfold Index.selectModelMatch at 2. by rewrite execPrefixed_append.
  - reflexivity.
  - apply Forall_app. split; [|by repeat constructor].
    apply Forall_map, Forall_forall. intros m _. reflexivity.
Qed.

(** X18: a list item without a name element ends as a dead row: its
    model has the empty name, the row is labelled with the badge alone or
    with nothing, and no pattern of the entry file matches its callback
    data. *)
Theorem nameless_item_gives_a_dead_row :
  ∀ item,
    nameElement item = None →
    ∃ label data,
      Handlers.modelButton (Tasks.extractItem item) = [CallbackButton label data]
      ∧ Index.viewModelMatch data = None
      ∧ Index.selectModelMatch data = None.
Proof.
  intros item Hname. unfold Handlers.modelButton.
  eexists _, _. split; [done|].
  unfold Tasks.extractItem. rewrite Hname. cbn [name]. by vm_compute.
Qed.

Lemma nameless_item_gives_a_dead_row_witness :
  ∃ label data,
    Handlers.modelButton (Tasks.extractItem blankItem) = [CallbackButton label data]
    ∧ Index.viewModelMatch data = None
    ∧ Index.selectModelMatch data = None.
Proof. exact (nameless_item_gives_a_dead_row blankItem eq_refl). Defined.

(** ** Answers to callback queries *)

(** X19: when Telegram rejects the confirmation of a selection, the
    selection has been recorded all the same, the handler throws that error
    at once, and the menu is left alone: no deletion is asked for and the
    menu pairs are untouched. *)
Theorem selection_survives_a_rejected_confirmation :
  ∀ ctx modelName (env : Oracle) n s e,
    env n (confirmation ctx modelName) = Thrown e →
    run (Handlers.handleModelSelection ctx modelName) env n s
    = {| completion := Thrown e;
         stores := setUserSelectedModelStore <[fromId ctx := modelName]> s;
         events := [Awaited (confirmation ctx modelName)];
         next := S n |}.
Proof.
  intros ctx modelName env n s e Hconfirmation.
  unfold Handlers.handleModelSelection, confirmation in *. cbn.
  by rewrite Hconfirmation.
Qed.

Lemma selection_survives_a_rejected_confirmation_witness :
  userSelectedModelStore
    (stores (run (Handlers.handleModelSelection annClose "B") queryExpired 0 annMenuOpen))
  = <[7 := "B"]> ∅
  ∧ messageStore
      (stores (run (Handlers.handleModelSelection annClose "B") queryExpired 0 annMenuOpen))
    = <[7 := annMenu]> ∅.
Proof.
  by rewrite (selection_survives_a_rejected_confirmation annClose "B" queryExpired
                0%nat annMenuOpen _ eq_refl).
Defined.

(** The last step of a path that ends with the answer [text], which is
    the [k]-th call. *)
Ltac answer_ends env k text :=
  let Hlast := fresh "Hlast" in
  destruct (env k (CtxAnswerCbQuery _ text false)) as [[]|?] eqn:Hlast; cbn;
  rewrite ?Hlast;
  (split; [reflexivity|]); (split; [done|]); (split; [done|]).

(** X20: the detail view and the way back end with an answer to the
    callback query on every path, complete as that answer does, and change
    no store.  The plain answer is inside the [try] of the edit: when the
    edit went through and the plain answer is rejected, that rejection is
    logged as an editing error and a second answer, with the error text, is
    attempted.  In every other case the final answer is the only one. *)
Theorem views_end_with_an_answer :
  ∀ ctx modelName (env : Oracle) n s r,
    r = run (Handlers.viewModelDetails ctx modelName) env n s
    ∨ r = run (Handlers.backToModels ctx) env n s →
    ∃ before text,
      events r = before ++ [Awaited (CtxAnswerCbQuery ctx text false)]
      ∧ completion r = env (pred (next r)) (CtxAnswerCbQuery ctx text false)
      ∧ stores r = s
      ∧ (List.filter isAnswer before = []
         ∨ ∃ e, env (S n) (CtxAnswerCbQuery ctx None false) = Thrown e
                ∧ List.filter isAnswer before
                  = [Awaited (CtxAnswerCbQuery ctx None false)]
                ∧ last before
                  = Some (Logged ("Error editing message: " +:+ errorMessage e))).
Proof.
  intros ctx modelName env n s r [->| ->].
  - unfold Handlers.viewModelDetails. cbv zeta.
    change (run (bind get ?k) env n s) with (run (k s) env n s). cbv beta.
    destruct (find _ _) as [model|].
    + cbn. destruct (env n _) as [[]|e]; cbn.
      * destruct (env (S n) (CtxAnswerCbQuery ctx None false)) as [[]|e] eqn:Hanswer;
          cbn.
        -- eexists [_], None. rewrite Hanswer. auto.
        -- eexists [_; _; _], (Some "Error displaying model details").
           answer_ends env (S (S n)) (Some "Error displaying model details").
           all: right; by exists e.
      * eexists [_; _], (Some "Error displaying model details").
        answer_ends env (S n) (Some "Error displaying model details").
        all: by left.
    + cbn. eexists [], (Some "❌ Model not found").
      answer_ends env n (Some "❌ Model not found"). all: by left.
  - unfold Handlers.backToModels. cbv zeta.
    change (run (bind get ?k) env n s) with (run (k s) env n s). cbv beta.
    destruct (Handlers.modelsOrEmpty _) as [|model models].
    + cbn. eexists [], (Some "No models available").
      answer_ends env n (Some "No models available"). all: by left.
    + cbn. destruct (env n _) as [[]|e]; cbn.
      * destruct (env (S n) (CtxAnswerCbQuery ctx None false)) as [[]|e] eqn:Hanswer;
          cbn.
        -- eexists [_], None. rewrite Hanswer. auto.
        -- eexists [_; _; _], (Some "Error going back").
           answer_ends env (S (S n)) (Some "Error going back").
           all: right; by exists e.
      * eexists [_; _], (Some "Error going back").
        answer_ends env (S n) (Some "Error going back").
        all: by left.
Qed.

Lemma views_end_with_an_answer_witness :
  ∃ e, List.filter isAnswer
         (events (run (Handlers.backToModels annClose) queryExpired 0 annWithCatalog))
       = [Awaited (CtxAnswerCbQuery annClose None false);
          Awaited (CtxAnswerCbQuery annClose (Some "Error going back") false)]
       ∧ completion (run (Handlers.backToModels annClose) queryExpired 0 annWithCatalog)
         = Thrown e.
Proof.
  destruct (views_end_with_an_answer annClose "B" queryExpired 0%nat annWithCatalog _
              (or_intror eq_refl)) as (before & text & Hevents & Hcompletion & _).
  eexists. split; [|exact Hcompletion]. reflexivity.
Defined.

(** ** The greeting *)

Lemma includes_append before needle after :
  Js.includes (before +:+ needle +:+ after) needle = true.
Proof.
  induction before as [|a before IH].
  - change (Js.includes (needle +:+ after) needle = true).
    destruct (needle +:+ after) eqn:Hwhole; cbn [Js.includes];
      rewrite <- Hwhole, dropPrefix_append; done.
  - change (Js.includes (String a (before +:+ needle +:+ after)) needle = true).
    cbn [Js.includes]. rewrite IH. by destruct (Js.dropPrefix _ _).
Qed.

(** X21: [/start] answers with one reply that is not awaited, whatever
    the stores hold, and changes nothing.  The reply greets the user by a
    name that is never empty: the first name, else the username, else
    "there".  An accepted user gets the main keyboard; any other user gets
    the welcome, whose only callback button carries [accept_policy]. *)
Theorem start_greets_by_name :
  ∀ ctx (env : Oracle) n s,
    let greeting := if Handlers.accepted s (fromId ctx) then allSet ctx else welcome ctx in
    run (Handlers.startHandler ctx) env n s = emit (Fired greeting) (returned tt n s)
    ∧ Js.truthy (Handlers.displayName ctx) = true
    ∧ Js.includes (replyText greeting) (Handlers.displayName ctx) = true
    ∧ keyboardData (replyExtra greeting)
      = (if Handlers.accepted s (fromId ctx) then [] else ["accept_policy"])
    ∧ (firstName ctx = None ∨ firstName ctx = Some EmptyString →
       Handlers.displayName ctx
       = match userName ctx with
         | Some (String c name) => String c name
         | _ => "there"
         end).
Proof.
  intros ctx env n s greeting. subst greeting.
  split; [|split; [|split; [|split]]].
  - unfold Handlers.startHandler, Handlers.showMainMenu, allSet, welcome. cbv zeta.
    change (run (bind get ?k) env n s) with (run (k s) env n s). cbv beta.
    by destruct (Handlers.accepted s (fromId ctx)).
  - unfold Handlers.displayName.
    by destruct (firstName ctx) as [[|??]|], (userName ctx) as [[|??]|].
  - destruct (Handlers.accepted s (fromId ctx)); unfold allSet, welcome, replyText.
    + apply (includes_append "You're all set, ").
    + apply (includes_append "Welcome ").
  - by destruct (Handlers.accepted s (fromId ctx)).
  - unfold Handlers.displayName. by intros [-> | ->].
Qed.

Lemma start_greets_by_name_witness :
  Handlers.displayName bob = "bob".
Proof.
  destruct (start_greets_by_name bob calmWorld 0%nat initialState)
    as (_ & _ & _ & _ & Hname).
  exact (Hname (or_intror eq_refl)).
Defined.

(** X22: saving a user reloads the acceptance marks.  [saveUser] and
    [initializeBotData] never throw, and each leaves the stores exactly as
    the [loadUsers] it starts with leaves them, whether or not the write
    that follows succeeds: when the file holds a [users] array, the users
    of its entries before the first [null] entry (of all its entries when
    there is none) are marked as accepted in memory and no other mark
    changes; otherwise the stores are untouched. *)
Theorem saveUser_reloads_the_marks :
  ∀ id (env : Oracle) n s,
    let saved := run (Handlers.saveUser id) env n s in
    stores saved = stores (run Handlers.loadUsers env n s)
    ∧ (∃ answer, completion saved = Ok answer)
    ∧ run Handlers.initializeBotData env n s
      = {| completion := Ok tt; stores := stores saved;
           events := [Awaited ReadUsersFile]; next := S n |}
    ∧ match env n ReadUsersFile with
      | Ok (ParsedValue (UsersArray users)) =>
          (∀ u, userAcceptanceStore (stores saved) !! u
                = if bool_decide (u ∈ marked users) then Some true
                  else userAcceptanceStore s !! u)
          ∧ (hasNull users = false → marked users = omap keyOf users)
      | _ => stores saved = s
      end.
Proof.
  intros id env n s saved. subst saved.
  destruct (run_saveUser id env n s) as [Hstores _]. cbv zeta in Hstores.
  rewrite Hstores, run_loadUsers. cbn [stores].
  split; [done|]. split.
  { apply (ensures_run (λ o, ∃ answer, o = Ok answer)), saveUser_returns. }
  split.
  { unfold Handlers.initializeBotData. by rewrite run_bind, run_loadUsers. }
  destruct (env n ReadUsersFile) as [[|[users| | |]]|e]; try done.
  cbn [afterLoad]. split; [intros u; apply markAll_lookup|apply marked_no_null].
Qed.

Lemma saveUser_reloads_the_marks_witness :
  userAcceptanceStore (stores (run (Handlers.saveUser 9) nullEntryFile 0 initialState))
  = <[7 := true]> ∅.
Proof.
  destruct (saveUser_reloads_the_marks 9 nullEntryFile 0%nat initialState)
    as (Hstores & _).
  rewrite Hstores. reflexivity.
Defined.
